(** * systemd_persistent_eth: renaming network interfaces to ethN

    A shallow embedding of [systemd_persistent_eth.py] and the properties
    of its renaming core: the command sequence of [link_name_change], the
    parsing of the ifcfg files, the match pass ([assign_interface]) and
    the three passes of [main].

    The script talks to two things outside itself: the [ip] tool (the
    link table of the kernel) and the directory of ifcfg files.  Both are
    explicit here: the link table is the state threaded through every
    operation, each [ip link set] call is recorded in a trace together
    with the way it ended, and the directory is an argument of [main].

    Conventions of the model:
    - the link table lists the devices past the loopback entry, in the
      order of [ip link show]; a rename keeps the position of a device;
    - a dict is iterated in the order in which its keys were inserted;
    - of what the script prints, the messages of [main] are kept in the
      trace; the listing printed by [get_interface_dict] is left out;
    - exceptions are values: nothing in the renaming core catches one, so
      a raised exception ends [main] with the table as it is then. *)

From Stdlib Require Import List String Ascii Bool Arith ZArith Lia.
From Stdlib Require Import Decimal DecimalNat DecimalString.
Import ListNotations.

Local Open Scope string_scope.
Local Open Scope list_scope.

(** ** Python strings *)

Module Str.

(** The double quote character, [chr(34)]. *)
Definition dquote : ascii := ascii_of_nat 34.

(** The characters removed by [str.strip()] without argument. *)
Definition is_space (a : ascii) : bool :=
  let n := nat_of_ascii a in
  Nat.eqb n 32 || (Nat.leb 9 n && Nat.leb n 13).

Definition is_lower (a : ascii) : bool :=
  let n := nat_of_ascii a in Nat.leb 97 n && Nat.leb n 122.

Definition is_upper (a : ascii) : bool :=
  let n := nat_of_ascii a in Nat.leb 65 n && Nat.leb n 90.

Definition upper_ascii (a : ascii) : ascii :=
  if is_lower a then ascii_of_nat (nat_of_ascii a - 32) else a.

Definition lower_ascii (a : ascii) : ascii :=
  if is_upper a then ascii_of_nat (nat_of_ascii a + 32) else a.

Fixpoint map_str (f : ascii -> ascii) (s : string) : string :=
  match s with
  | EmptyString => EmptyString
  | String a r => String (f a) (map_str f r)
  end.

(** [s.upper()] and [s.lower()] *)
Definition upper : string -> string := map_str upper_ascii.
Definition lower : string -> string := map_str lower_ascii.

Fixpoint mem (a : ascii) (chars : string) : bool :=
  match chars with
  | EmptyString => false
  | String c r => Ascii.eqb a c || mem a r
  end.

Fixpoint lstrip (p : ascii -> bool) (s : string) : string :=
  match s with
  | EmptyString => EmptyString
  | String a r => if p a then lstrip p r else s
  end.

Fixpoint rstrip (p : ascii -> bool) (s : string) : string :=
  match s with
  | EmptyString => EmptyString
  | String a r =>
      match rstrip p r with
      | EmptyString => if p a then EmptyString else String a EmptyString
      | r' => String a r'
      end
  end.

(** [s.strip()] *)
Definition strip (s : string) : string := rstrip is_space (lstrip is_space s).

(** [s.strip(chars)] *)
Definition strip_chars (chars s : string) : string :=
  rstrip (fun a => mem a chars) (lstrip (fun a => mem a chars) s).

(** [s.split(sep)] for a separator of one character: never empty. *)
Fixpoint split (sep : ascii) (s : string) : list string :=
  match s with
  | EmptyString => [EmptyString]
  | String a r =>
      if Ascii.eqb a sep then EmptyString :: split sep r
      else match split sep r with
           | x :: xs => String a x :: xs
           | [] => [String a EmptyString]
           end
  end.

(** [sub in s] *)
Fixpoint contains (sub s : string) : bool :=
  prefix sub s ||
  match s with
  | EmptyString => false
  | String _ r => contains sub r
  end.

(** ['%d' % n] *)
Definition fmt_nat (n : nat) : string := NilEmpty.string_of_uint (Nat.to_uint n).

Definition fmt_d (z : Z) : string :=
  if (z <? 0)%Z then String "-" (fmt_nat (Z.abs_nat z)) else fmt_nat (Z.to_nat z).

End Str.

(** ** Python dicts

    A dict is an association list without repeated keys; assigning to a
    key that is present replaces its value in place, assigning to a new
    key appends it.  Iteration follows the list. *)

Module Dict.

Definition dict (V : Type) : Type := list (string * V).

Fixpoint set {V} (k : string) (v : V) (d : dict V) : dict V :=
  match d with
  | [] => [(k, v)]
  | (k', v') :: r => if String.eqb k' k then (k, v) :: r else (k', v') :: set k v r
  end.

Fixpoint get {V} (k : string) (d : dict V) : option V :=
  match d with
  | [] => None
  | (k', v') :: r => if String.eqb k' k then Some v' else get k r
  end.

Definition keys {V} (d : dict V) : list string := map fst d.

End Dict.

Import Dict.

(** ** The link table and the [ip] tool *)

(** One line pair of [ip link show] past the loopback entry: the device
    name, the hardware address as printed, and whether the link is up
    (the [LOWER_UP] flag). *)
Record link : Type := Link { name : string; address : string; up : bool }.

Inductive ip_cmd : Type :=
| SetDown (dev : string)              (* ip link set dev <dev> down *)
| SetName (dev new : string)          (* ip link set dev <dev> name <new> *)
| SetUp (dev : string).               (* ip link set dev <dev> up *)

(** How a call of [ip link set] ended. *)
Inductive status : Type := Done | NoSuchDevice | Busy | NameInUse.

Definition names (t : list link) : list string := map name t.
Definition addresses (t : list link) : list string := map address t.

Definition has_dev (dev : string) (t : list link) : bool :=
  existsb (fun l => String.eqb (name l) dev) t.

Definition set_up (dev : string) (b : bool) (l : link) : link :=
  if String.eqb (name l) dev then Link (name l) (address l) b else l.

Definition set_name (dev new : string) (l : link) : link :=
  if String.eqb (name l) dev then Link new (address l) (up l) else l.

(** The link facility: a device that does not exist cannot be changed, a
    device that is up cannot be renamed, and a name that another device
    holds is refused. *)
Definition ip_link_set (c : ip_cmd) (t : list link) : list link * status :=
  match c with
  | SetDown dev =>
      if has_dev dev t then (map (set_up dev false) t, Done) else (t, NoSuchDevice)
  | SetUp dev =>
      if has_dev dev t then (map (set_up dev true) t, Done) else (t, NoSuchDevice)
  | SetName dev new =>
      if negb (has_dev dev t) then (t, NoSuchDevice)
      else if existsb (fun l => String.eqb (name l) dev && up l) t then (t, Busy)
      else if String.eqb dev new then (t, Done)
      else if has_dev new t then (t, NameInUse)
      else (map (set_name dev new) t, Done)
  end.

(** ** Effects: link table, trace, exceptions *)

Inductive exn : Type :=
| KeyError (key : string)
| IOError (path : string)
| UnboundLocalError (var : string).

Inductive outcome (A : Type) : Type :=
| Ok (a : A)
| Raise (e : exn).
Arguments Ok {A} a.
Arguments Raise {A} e.

Inductive event : Type :=
| Ip (c : ip_cmd) (s : status)
| Print (line : string).

Record run (A : Type) : Type :=
  Run { res : outcome A; table : list link; trace : list event }.
Arguments Run {A} res table trace.
Arguments res {A} r.
Arguments table {A} r.
Arguments trace {A} r.

Definition M (A : Type) : Type := list link -> run A.

Definition ret {A} (a : A) : M A := fun t => Run (Ok a) t [].

Definition raise {A} (e : exn) : M A := fun t => Run (Raise e) t [].

Definition bind {A B} (m : M A) (f : A -> M B) : M B := fun t =>
  let r1 := m t in
  match res r1 with
  | Ok a =>
      let r2 := f a (table r1) in
      Run (res r2) (table r2) (trace r1 ++ trace r2)
  | Raise e => Run (Raise e) (table r1) (trace r1)
  end.

Notation "x <- m ;; k" := (bind m (fun x => k))
  (at level 61, m at next level, right associativity).
Notation "m ;; k" := (bind m (fun _ => k))
  (at level 61, right associativity).

(** [Popen(['ip', 'link', 'set', ...]).wait()]: the exit status is not
    looked at by the script; it is kept in the trace. *)
Definition ip (c : ip_cmd) : M unit := fun t =>
  let (t', s) := ip_link_set c t in Run (Ok tt) t' [Ip c s].

Definition print (line : string) : M unit := fun t => Run (Ok tt) t [Print line].

(** [for x in l: body(x)] *)
Fixpoint for_each {A} (l : list A) (body : A -> M unit) : M unit :=
  match l with
  | [] => ret tt
  | x :: r => body x ;; for_each r body
  end.

(** A [for] loop that updates a local variable. *)
Fixpoint for_fold {A S} (l : list A) (s : S) (body : S -> A -> M S) : M S :=
  match l with
  | [] => ret s
  | x :: r => s' <- body s x ;; for_fold r s' body
  end.

Fixpoint enumerate_from {A} (i : nat) (l : list A) : list (nat * A) :=
  match l with
  | [] => []
  | x :: r => (i, x) :: enumerate_from (S i) r
  end.

Definition enumerate {A} (l : list A) : list (nat * A) := enumerate_from 0 l.

(** ** The script *)

(** The value stored per interface: [hwaddr, connection, interface]. *)
Record iface : Type := Iface { hwaddr : string; connection : bool; ifname : string }.

(** [get_interface_dict]: one entry per device of the report, keyed by
    the device name, the hardware address upper-cased.  [connection] is
    [True] when the line carries [LOWER_UP] and [None] otherwise ([true]
    and [false] here).  The name and the address are tokens of
    [line.split()], on which the [strip()] of the source changes nothing. *)
Definition interface_dict (t : list link) : dict iface :=
  fold_left
    (fun interfaces l =>
       Dict.set (name l) (Iface (Str.upper (address l)) (up l) (name l)) interfaces)
    t [].

Definition get_interface_dict : M (dict iface) := fun t =>
  Run (Ok (interface_dict t)) t [].

Definition temp_name (idx : nat) : string := ("temp" ++ Str.fmt_nat idx)%string.

Definition eth_name (idx : nat) : string := ("eth" ++ Str.fmt_nat idx)%string.

(** [not dest] for [dest] being [None] or a string. *)
Definition not_dest (dest : option string) : bool :=
  match dest with
  | None => true
  | Some EmptyString => true
  | Some (String _ _) => false
  end.

(** The name that [link_name_change] asks for. *)
Definition target (idx : nat) (dest : option string) : string :=
  if not_dest dest then temp_name idx
  else match dest with Some d => d | None => EmptyString end.

Definition link_name_change (idx : nat) (entry : string) (dest : option string) : M unit :=
  ip (SetDown entry) ;;
  (if not_dest dest
   then ip (SetName entry (temp_name idx))
   else ip (SetName entry (match dest with Some d => d | None => EmptyString end))) ;;
  ip (SetUp (temp_name idx)).

Definition conf_dir : string := "/etc/sysconfig/network-scripts/".

(** [glob('/etc/sysconfig/network-scripts/ifcfg-eth*')] over a directory
    given as the list of its file names, each with its text, or [None]
    when the file cannot be opened. *)
Definition glob_ifcfg_eth (dir : list (string * option string))
  : list (string * option string) :=
  map (fun f => ((conf_dir ++ fst f)%string, snd f))
      (filter (fun f => prefix "ifcfg-eth" (fst f)) dir).

Definition get_config_files (dir : list (string * option string)) : M (dict string) :=
  for_fold (glob_ifcfg_eth dir) []
    (fun files f =>
       let (entry, content) := (f : string * option string) in
       if Str.contains ":" entry then ret files            (* VLAN file, disregard *)
       else match content with
            | None => raise (IOError entry)
            | Some text => ret (Dict.set entry text files)
            end).

Definition parse_line (config_dict : dict string) (line : string) : dict string :=
  let split_line := Str.split "=" line in
  if Nat.ltb 1 (List.length split_line)
  then Dict.set (Str.strip (Str.upper (nth 0 split_line EmptyString)))
                (Str.strip (Str.upper (nth 1 split_line EmptyString)))
                config_dict
  else config_dict.

Definition parse_config (string_input : string) : dict string :=
  fold_left parse_line (Str.split "010" string_input) [].

Definition get_config (dir : list (string * option string)) : M (dict (dict string)) :=
  cached_configs <- get_config_files dir ;;
  ret (fold_left
         (fun parsed_entries f => Dict.set (fst f) (parse_config (snd f)) parsed_entries)
         cached_configs []).

Definition quotes : string := String Str.dquote EmptyString.

(** The test of line 203, for a record that has an HWADDR value. *)
Definition hwaddr_in (value : string) (interface : iface) : bool :=
  Str.contains (Str.strip_chars quotes value) (hwaddr interface).

(** The body of the loop of [assign_interface], for one record. *)
Definition assign_entry (interface : iface) (named : Z) (config : dict string) : M Z :=
  match Dict.get "HWADDR" config with
  | None => raise (KeyError "HWADDR")
  | Some value =>
      if hwaddr_in value interface then
        match Dict.get "DEVICE" config with
        | Some device =>
            link_name_change 0 (ifname interface)
              (Some (Str.strip_chars quotes (Str.lower device))) ;;
            ret (named + 1)%Z
        | None =>
            match Dict.get "NAME" config with
            | Some nm =>
                link_name_change 0 (ifname interface)
                  (Some (Str.strip_chars quotes (Str.lower nm))) ;;
                ret (named + 1)%Z
            | None => ret named
            end
        end
      else ret named
  end.

Definition assign_interface (interface : iface) (configs : dict (dict string)) : M Z :=
  for_fold configs 0%Z (fun named f => assign_entry interface named (snd f)).

(** [while tempname in interfaces.keys(): idx += 1].  The loop leaves at
    the latest after as many rounds as there are keys; see [next_free_not_taken]. *)
Fixpoint next_free (fuel : nat) (taken : list string) (idx : nat) : nat :=
  match fuel with
  | 0 => idx
  | S fuel' =>
      if existsb (String.eqb (eth_name idx)) taken
      then next_free fuel' taken (S idx)
      else idx
  end.

(** The body of the loop of the fallback pass. *)
Definition fallback_entry (interfaces : dict iface) (idx : nat) (f : string * iface) : M nat :=
  if negb (Str.contains "eth" (ifname (snd f))) then
    let idx' := next_free (List.length (keys interfaces)) (keys interfaces) idx in
    link_name_change 0 (fst f) (Some (eth_name idx')) ;;
    ret (S idx')
  else ret idx.

Definition fallback_pass (interfaces : dict iface) : M nat :=
  for_fold interfaces 0 (fallback_entry interfaces).

Definition quarantine_pass (interfaces : dict iface) : M unit :=
  for_each (enumerate (keys interfaces))
    (fun ie => link_name_change (fst ie) (snd ie) None).

(** The loop of lines 227-228: [success] is bound by the assignment in the
    loop body only. *)
Definition match_pass (interfaces : dict iface) (configs : dict (dict string))
  : M (option Z) :=
  for_fold interfaces None
    (fun _ f => success <- assign_interface (snd f) configs ;; ret (Some success)).

Definition summary (success unnamed : Z) : string :=
  (Str.fmt_d success ++ " Assigned, " ++ Str.fmt_d unnamed ++ " Unnamed:")%string.

(** [main] from line 220 on: what follows the quarantine pass. *)
Definition main_after_quarantine (dir : list (string * option string)) : M unit :=
  print "Renamed all interfaces to temporary device names." ;;
  interfaces <- get_interface_dict ;;
  print "Loading configuration files in /etc/sysconfig/network-scripts/" ;;
  configs <- get_config dir ;;
  print "Applying names from HWADDR flags in configuration files" ;;
  bound <- match_pass interfaces configs ;;
  success <- match bound with
             | Some success => ret success
             | None => raise (UnboundLocalError "success")
             end ;;
  let unnamed := (Z.of_nat (List.length (keys interfaces)) - success)%Z in
  print (summary success unnamed) ;;
  interfaces <- get_interface_dict ;;
  (if negb (unnamed =? 0)%Z then
     print "Renaming the devices not found in the ifcfg-ethN files to an arbitrary ethN designation" ;;
     fallback_pass interfaces ;;
     ret tt
   else ret tt) ;;
  print "Final naming scheme" ;;
  _ <- get_interface_dict ;;
  ret tt.

Definition main (dir : list (string * option string)) : M unit :=
  print "Gathering previous name association" ;;
  interfaces <- get_interface_dict ;;
  quarantine_pass interfaces ;;
  main_after_quarantine dir.

(** ** Reading a trace *)

Fixpoint commands (tr : list event) : list ip_cmd :=
  match tr with
  | [] => []
  | Ip c _ :: r => c :: commands r
  | Print _ :: r => commands r
  end.

(** The table reached by running commands one after the other. *)
Definition replay (cs : list ip_cmd) (t : list link) : list link :=
  fold_left (fun t c => fst (ip_link_set c t)) cs t.

(** A rename that was directed at a name another device held. *)
Definition collides (e : event) : bool :=
  match e with
  | Ip (SetName _ _) NameInUse => true
  | _ => false
  end.

Definition newline : string := String "010" EmptyString.

(** The line [HWADDR="aa:bb:cc:dd:ee:ff"], in double quotes. *)
Definition double_quoted_line : string :=
  ("HWADDR=" ++ quotes ++ "aa:bb:cc:dd:ee:ff" ++ quotes)%string.

(** The target of a record: DEVICE if present, else NAME. *)
Definition target_of (config : dict string) : option string :=
  match Dict.get "DEVICE" config with
  | Some device => Some (Str.strip_chars quotes (Str.lower device))
  | None =>
      match Dict.get "NAME" config with
      | Some nm => Some (Str.strip_chars quotes (Str.lower nm))
      | None => None
      end
  end.

(** No character of [s] satisfies [p]. *)
Fixpoint free_of (p : ascii -> bool) (s : string) : bool :=
  match s with
  | EmptyString => true
  | String a r => negb (p a) && free_of p r
  end.

(** Renaming [dev] to [new] in a list of names. *)
Definition subst (dev new x : string) : string :=
  if String.eqb x dev then new else x.

(** The table after a quarantine pass in which every rename went
    through: position [i] holds [temp<i>] and is up. *)
Fixpoint requeue (i : nat) (t : list link) : list link :=
  match t with
  | [] => []
  | l :: r => Link (temp_name i) (address l) true :: requeue (S i) r
  end.

(** No interface holds the temporary name of one enumerated before it. *)
Fixpoint quarantine_ready (i : nat) (ns : list string) : bool :=
  match ns with
  | [] => true
  | _ :: r => negb (existsb (String.eqb (temp_name i)) r) && quarantine_ready (S i) r
  end.

(** The names after the fallback pass, from the names before it. *)
Fixpoint fallback_names (taken : list string) (idx : nat) (ns : list string) : list string :=
  match ns with
  | [] => []
  | n :: r =>
      if Str.contains "eth" n then n :: fallback_names taken idx r
      else
        let idx' := next_free (List.length taken) taken idx in
        eth_name idx' :: fallback_names taken (S idx') r
  end.

(** [eth<M>] was given by the fallback pass to an interface enumerated
    before position [i]: [before] and [after] are the names at the start
    and at the end of the pass. *)
Definition assigned_earlier (before after : list string) (i M : nat) : Prop :=
  exists j n, j < i /\ nth_error before j = Some n /\ Str.contains "eth" n = false /\
              nth_error after j = Some (eth_name M).

(** The table is the one its own commands lead to. *)
Definition sound {A} (m : M A) : Prop :=
  forall t, table (m t) = replay (commands (trace (m t))) t.

(** The entry of the interface dict for one device of the report. *)
Definition item_of (l : link) : string * iface :=
  (name l, Iface (Str.upper (address l)) (up l) (name l)).

(** ** The text of [ip link show]

    [get_interface_dict] reads the report line by line.  The functions
    below are its loop over the lines; [interface_dict] above is what the
    loop builds from a report that lists the devices of the table. *)

(** [line.split()]: the fields between runs of blanks. *)
Fixpoint split_ws (s : string) : list string :=
  match s with
  | EmptyString => []
  | String a r =>
      if Str.is_space a then split_ws r
      else match r with
           | EmptyString => [String a EmptyString]
           | String b _ =>
               if Str.is_space b then String a EmptyString :: split_ws r
               else match split_ws r with
                    | w :: ws => String a w :: ws
                    | [] => [String a EmptyString]
                    end
           end
  end.

(** [[entry.rstrip(':') for entry in line.split()]] *)
Definition fields (line : string) : list string :=
  map (Str.rstrip (fun a => Str.mem a ":")) (split_ws line).

Inductive scan_exn : Type := IndexError | UnboundInterface.

Inductive scanned (A : Type) : Type :=
| Scanned (a : A)
| ScanRaise (e : scan_exn).
Arguments Scanned {A} a.
Arguments ScanRaise {A} e.

(** The locals of the loop: the dict, and [interface] with [connection]
    once a device line was read. *)
Definition scan_state : Type := (dict iface * option (string * bool))%type.

(** The body of the loop of [get_interface_dict], lines 133-141. *)
Definition scan_line (idx : nat) (line : string) (st : scan_state) : scanned scan_state :=
  if Nat.ltb 1 idx then                       (* Omits loopback entries *)
    let split_line := fields line in
    if Nat.even idx then                      (* a device identifier *)
      match nth_error split_line 1 with
      | None => ScanRaise IndexError
      | Some tok =>
          Scanned (fst st, Some (Str.strip tok, Str.contains "LOWER_UP" line))
      end
    else
      match nth_error split_line 1 with
      | None => ScanRaise IndexError
      | Some tok =>
          match snd st with
          | None => ScanRaise UnboundInterface
          | Some (interface, connection) =>
              Scanned (Dict.set interface
                         (Iface (Str.strip (Str.upper tok)) connection interface)
                         (fst st),
                       snd st)
          end
      end
  else Scanned st.

Fixpoint scan_from (idx : nat) (lines : list string) (st : scan_state)
  : scanned (dict iface) :=
  match lines with
  | [] => Scanned (fst st)
  | line :: rest =>
      match scan_line idx line st with
      | Scanned st' => scan_from (S idx) rest st'
      | ScanRaise e => ScanRaise e
      end
  end.

Definition scan_report (lines : list string) : scanned (dict iface) :=
  scan_from 0 lines ([], None).

(** The lines of a report: two lines for the loopback device, then a
    device line and an address line for every device. *)
Definition report_of (lo0 lo1 : string) (dev_line addr_line : link -> string)
           (t : list link) : list string :=
  lo0 :: lo1 :: flat_map (fun l => [dev_line l; addr_line l]) t.

(** ** Installation as a systemd unit *)

Definition INSTALL : string :=
  String.concat newline
    [EmptyString;
     "[Unit]";
     "Description=Persistently name interfaces to the ethN naming convention";
     "Before=network.target";
     EmptyString;
     "[Service]";
     "Type=oneshot";
     "ExecStart=/usr/sbin/systemd_persistent_eth.py";
     EmptyString;
     "[Install]";
     "WantedBy=network.target";
     ";Alias=ethN.service";
     EmptyString].

Definition unit_install_path : string :=
  "/etc/systemd/system/systemd_persistent_eth.service".

Definition script_install_path : string := "/usr/sbin/systemd_persistent_eth.py".

(** What the system answers to the steps of [install]: whether the copy,
    the [open] and the write with its [close] go through, and the return
    codes of the two [systemctl] calls. *)
Record install_env : Type :=
  InstallEnv { copy_ok : bool; open_ok : bool; write_ok : bool;
               reload_rc : Z; enable_rc : Z }.

Inductive sys_event : Type :=
| Stdout (line : string)
| Copy (src dst : string)
| OpenW (path : string)
| Write (path text : string)
| Close (path : string)
| Systemctl (args : list string).

Definition dashes : string := String.concat EmptyString (repeat "-" 50).

(** [install()]: the result is [true] for [True] and [false] for [None]. *)
Definition install (file : string) (env : install_env) : bool * list sys_event :=
  let ev1 :=
    [Stdout ("Copying the script from " ++ file ++ " to " ++ script_install_path)%string;
     Copy file script_install_path] in
  if negb (copy_ok env) then
    (true, ev1 ++ [Stdout ("Failed to copy " ++ file ++ " to " ++ script_install_path)%string])
  else
  let ev2 := ev1 ++ [Stdout ("Installing to " ++ unit_install_path)%string;
                     OpenW unit_install_path] in
  if negb (open_ok env) then
    (true, ev2 ++ [Stdout ("Failed to open " ++ unit_install_path
                            ++ " - Is the script running as root?")%string])
  else
  let ev3 := ev2 ++ [Write unit_install_path INSTALL] in
  if negb (write_ok env) then
    (true, ev3 ++ [Stdout ("Failed to write to " ++ unit_install_path
                            ++ " - No space left?")%string;
                   Close unit_install_path])
  else
  let ev4 := ev3 ++ [Stdout ("Wrote the following to " ++ unit_install_path)%string;
                     Stdout dashes; Stdout INSTALL; Stdout dashes;
                     Stdout ("Issuing a " ++ quotes ++ "daemon-reload" ++ quotes
                              ++ " to systemd")%string;
                     Systemctl ["systemctl"; "daemon-reload"]] in
  if negb (reload_rc env =? 0)%Z then
    (true, ev4 ++ [Stdout ("Failed to issue " ++ quotes ++ "systemctl daemon-reload" ++ quotes
                            ++ " - Will requires manual intervention - Exiting.")%string])
  else
  let ev5 := ev4 ++ [Stdout ("Issuing a " ++ quotes ++ "enable systemd_persistent_eth"
                              ++ quotes ++ " to systemd")%string;
                     Systemctl ["systemctl"; "enable"; "systemd_persistent_eth"]] in
  if negb (enable_rc env =? 0)%Z then
    (true, ev5 ++ [Stdout ("Failed to issue " ++ quotes
                            ++ "systemctl enable systemd_persistent_eth" ++ quotes
                            ++ " - Will requires manual intervention - Exiting.")%string])
  else (false, ev5).

(** The [__main__] block: [args_install] is the [-i] flag.  The second
    component is the run of [main], when it is reached. *)
Definition script (args_install : bool) (file : string) (env : install_env)
           (dir : list (string * option string)) (t : list link)
  : list sys_event * option (run unit) :=
  let version := [Stdout "version: 0.1"] in
  let (ret, evs) := if args_install then install file env else (false, []) in
  if ret
  then (version ++ evs ++ [Stdout "Failed to install. Exiting..."], None)
  else (version ++ evs, Some (main dir t)).

(** The steps of [install] that act on the system. *)
Definition acts (e : sys_event) : bool :=
  match e with
  | Stdout _ => false
  | _ => true
  end.

(** ** Records and interfaces *)

(** A record that passes the test of line 203 and names a target. *)
Definition applies (interface : iface) (config : dict string) : bool :=
  match Dict.get "HWADDR" config with
  | Some value =>
      hwaddr_in value interface &&
      match target_of config with Some _ => true | None => false end
  | None => false
  end.

(** The commands that a record that applies brings about. *)
Definition renames_of (interface : iface) (config : dict string) : list ip_cmd :=
  [SetDown (ifname interface);
   SetName (ifname interface) (target 0 (target_of config));
   SetUp (temp_name 0)].

(** The key under which a line is stored, if it is stored. *)
Definition line_key (line : string) : option string :=
  let split_line := Str.split "=" line in
  if Nat.ltb 1 (List.length split_line)
  then Some (Str.strip (Str.upper (nth 0 split_line EmptyString)))
  else None.

Definition line_value (line : string) : string :=
  Str.strip (Str.upper (nth 1 (Str.split "=" line) EmptyString)).


(** Lines of the shape that [ip link show] prints for a device. *)
Definition sample_dev_line (l : link) : string :=
  ("2: " ++ name l ++ ": <BROADCAST,MULTICAST"
   ++ (if up l then ",UP,LOWER_UP" else EmptyString) ++ "> mtu 1500 qdisc noop")%string.

Definition sample_addr_line (l : link) : string :=
  ("    link/ether " ++ address l ++ " brd ff:ff:ff:ff:ff:ff")%string.

Definition colon (a : ascii) : bool := Str.mem a ":".

(** The table in which every interface bears the name that [dest] gives
    it, keeps its address, and is down. *)
Definition named_table (dest : link -> string) (t : list link) : list link :=
  map (fun l => Link (dest l) (address l) false) t.

(** The targets of the records of the catalog that apply to an
    interface, in the order of the catalog. *)
Definition targets_for (interface : iface) (configs : dict (dict string))
  : list (option string) :=
  map (fun f => target_of (snd f))
      (filter (fun f => applies interface (snd f)) configs).

(** ** The script on the reports it reads *)

(** [main] above takes the dict of [get_interface_dict] from the link
    table.  The script takes it from the text that [ip link show] prints,
    and the loop over that text raises [IndexError] at a line with fewer
    than two fields.  Below, [report] is what [ip link show] prints for a
    link table, and a run ends with a value, with an exception of the
    renaming core, or with one of the loop over the report. *)
Inductive fault : Type :=
| CoreFault (e : exn)
| ScanFault (e : scan_exn).

Inductive ending (A : Type) : Type :=
| Returns (a : A)
| Faults (f : fault).
Arguments Returns {A} a.
Arguments Faults {A} f.

Record reading (A : Type) : Type :=
  Reading { ending_of : ending A; links_of : list link; events_of : list event }.
Arguments Reading {A} ending_of links_of events_of.
Arguments ending_of {A} r.
Arguments links_of {A} r.
Arguments events_of {A} r.

Definition R (A : Type) : Type := list link -> reading A.

Definition rret {A} (a : A) : R A := fun t => Reading (Returns a) t [].

Definition rbind {A B} (m : R A) (f : A -> R B) : R B := fun t =>
  let r1 := m t in
  match ending_of r1 with
  | Returns a =>
      let r2 := f a (links_of r1) in
      Reading (ending_of r2) (links_of r2) (events_of r1 ++ events_of r2)
  | Faults e => Reading (Faults e) (links_of r1) (events_of r1)
  end.

Notation "x <~ m ;; k" := (rbind m (fun x => k))
  (at level 61, m at next level, right associativity).

(** A step of the renaming core, within a run on reports. *)
Definition lift {A} (m : M A) : R A := fun t =>
  let r := m t in
  Reading (match res r with
           | Ok a => Returns a
           | Raise e => Faults (CoreFault e)
           end)
          (table r) (trace r).

(** [get_interface_dict], lines 126-143, on the report of the table. *)
Definition read_interface_dict (report : list link -> list string) : R (dict iface) :=
  fun t =>
    match scan_report (report t) with
    | Scanned interfaces => Reading (Returns interfaces) t []
    | ScanRaise e => Reading (Faults (ScanFault e)) t []
    end.

(** [main], lines 213-248, with [get_interface_dict] reading reports. *)
Definition main_reading (report : list link -> list string)
           (dir : list (string * option string)) : R unit :=
  _ <~ lift (print "Gathering previous name association") ;;
  interfaces <~ read_interface_dict report ;;
  _ <~ lift (quarantine_pass interfaces) ;;
  _ <~ lift (print "Renamed all interfaces to temporary device names.") ;;
  interfaces <~ read_interface_dict report ;;
  _ <~ lift (print "Loading configuration files in /etc/sysconfig/network-scripts/") ;;
  configs <~ lift (get_config dir) ;;
  _ <~ lift (print "Applying names from HWADDR flags in configuration files") ;;
  bound <~ lift (match_pass interfaces configs) ;;
  success <~ lift (match bound with
                   | Some success => ret success
                   | None => raise (UnboundLocalError "success")
                   end) ;;
  let unnamed := (Z.of_nat (List.length (keys interfaces)) - success)%Z in
  _ <~ lift (print (summary success unnamed)) ;;
  interfaces <~ read_interface_dict report ;;
  _ <~ lift (if negb (unnamed =? 0)%Z then
               print "Renaming the devices not found in the ifcfg-ethN files to an arbitrary ethN designation" ;;
               fallback_pass interfaces ;;
               ret tt
             else ret tt) ;;
  _ <~ lift (print "Final naming scheme") ;;
  _ <~ read_interface_dict report ;;
  rret tt.

(** A step [rm] of a run on reports does what the step [m] of the core
    does, wherever the run of commands [cs] from [t0] can pass through
    [m]: at a table reached by a part of [cs] that the commands of [m]
    continue. *)
Definition agrees {A} (cs : list ip_cmd) (t0 : list link) (rm : R A) (m : M A) : Prop :=
  forall (done rest : list ip_cmd) (t : list link),
    t = replay done t0 ->
    cs = done ++ commands (trace (m t)) ++ rest ->
    rm t = lift m t.

(** ** Basic facts *)

Section Dicts.

Context {V : Type}.

Lemma get_set_same (k : string) (v : V) (d : dict V) :
  Dict.get k (Dict.set k v d) = Some v.
Proof.
  induction d as [|[k' v'] d IH]; simpl.
  - now rewrite String.eqb_refl.
  - destruct (String.eqb k' k) eqn:E; simpl.
    + now rewrite String.eqb_refl.
    + now rewrite E.
Qed.

Lemma in_set (k : string) (v : V) (d : dict V) (x : string * V) :
  In x (Dict.set k v d) -> x = (k, v) \/ In x d.
Proof.
  induction d as [|[k' v'] d IH]; simpl.
  - intros [H|[]]; auto.
  - destruct (String.eqb k' k); simpl; intros [H|H]; auto.
    destruct (IH H); auto.
Qed.

End Dicts.

Lemma commands_app (a b : list event) : commands (a ++ b) = commands a ++ commands b.
Proof.
  induction a as [|[c s|l] a IH]; simpl; auto. now rewrite IH.
Qed.

Lemma res_bind_ok {A B} (m : M A) (f : A -> M B) (t : list link) (a : A) :
  res (m t) = Ok a -> res (bind m f t) = res (f a (table (m t))).
Proof. intros H. unfold bind. now rewrite H. Qed.

Lemma table_bind_ok {A B} (m : M A) (f : A -> M B) (t : list link) (a : A) :
  res (m t) = Ok a -> table (bind m f t) = table (f a (table (m t))).
Proof. intros H. unfold bind. now rewrite H. Qed.

Lemma trace_bind_ok {A B} (m : M A) (f : A -> M B) (t : list link) (a : A) :
  res (m t) = Ok a -> trace (bind m f t) = trace (m t) ++ trace (f a (table (m t))).
Proof. intros H. unfold bind. now rewrite H. Qed.

Lemma bind_raise {A B} (m : M A) (f : A -> M B) (t : list link) (e : exn) :
  res (m t) = Raise e -> bind m f t = Run (Raise e) (table (m t)) (trace (m t)).
Proof. intros H. unfold bind. now rewrite H. Qed.

Lemma run_eta {A} (r : run A) : r = Run (res r) (table r) (trace r).
Proof. now destruct r. Qed.

Lemma contains_empty (s : string) : Str.contains EmptyString s = true.
Proof. destruct s; reflexivity. Qed.

(** [link_name_change] runs three commands and never raises. *)
Lemma link_name_change_commands (idx : nat) (entry : string) (dest : option string)
      (t : list link) :
  res (link_name_change idx entry dest t) = Ok tt /\
  commands (trace (link_name_change idx entry dest t)) =
    [SetDown entry;
     SetName entry (target idx dest);
     SetUp (temp_name idx)].
Proof.
  unfold link_name_change, bind, ip, target.
  destruct (ip_link_set (SetDown entry) t) as [t1 s1]; cbn [res table trace].
  destruct (not_dest dest).
  - destruct (ip_link_set (SetName entry (temp_name idx)) t1) as [t2 s2];
      cbn [res table trace].
    destruct (ip_link_set (SetUp (temp_name idx)) t2) as [t3 s3]; cbn [res table trace].
    split; reflexivity.
  - destruct (ip_link_set (SetName entry _) t1) as [t2 s2]; cbn [res table trace].
    destruct (ip_link_set (SetUp (temp_name idx)) t2) as [t3 s3]; cbn [res table trace].
    split; reflexivity.
Qed.

Lemma for_each_ok {A} (body : A -> M unit) (l : list A) :
  (forall x t, res (body x t) = Ok tt) ->
  forall t, res (for_each l body t) = Ok tt.
Proof.
  intros Hb. induction l as [|x l IH]; intros t; simpl.
  - reflexivity.
  - unfold bind. rewrite Hb. cbn [res]. apply IH.
Qed.

Lemma quarantine_pass_ok (interfaces : dict iface) (t : list link) :
  res (quarantine_pass interfaces t) = Ok tt.
Proof.
  apply for_each_ok. intros x t'. apply link_name_change_commands.
Qed.


(** ** The command sequence of a rename *)

(** C1 (the code departs from it): with an explicit destination,
    [link_name_change] brings the device down and renames it to the
    destination, but the closing [up] is directed at [temp<idx>] and not
    at the destination.  In the match and fallback passes [idx] is 0, so
    the renamed device is left down: here [temp1] becomes [eth0] and stays
    down, while the command that should raise it goes to [temp0]. *)
Theorem link_name_change_raises_temp_not_dest :
  (forall (idx : nat) (entry : string) (a : ascii) (d : string) (t : list link),
      commands (trace (link_name_change idx entry (Some (String a d)) t)) =
        [SetDown entry; SetName entry (String a d); SetUp (temp_name idx)]) /\
  link_name_change 0 "temp1" (Some "eth0")
    [Link "temp0" "aa:bb:cc:dd:ee:01" true; Link "temp1" "aa:bb:cc:dd:ee:02" true] =
  Run (Ok tt)
    [Link "temp0" "aa:bb:cc:dd:ee:01" true; Link "eth0" "aa:bb:cc:dd:ee:02" false]
    [Ip (SetDown "temp1") Done; Ip (SetName "temp1" "eth0") Done; Ip (SetUp "temp0") Done].
Proof.
  split.
  - intros idx entry a d t.
    exact (proj2 (link_name_change_commands idx entry (Some (String a d)) t)).
  - vm_compute. reflexivity.
Qed.

(** ** The summary after the match pass *)

(** C2 (the code departs from it): [success] is overwritten by every
    round of the loop over the interfaces, so the summary subtracts the
    matches of the last interface only.  With two interfaces that are
    both matched, one match each, the script reports one assigned and one
    unnamed and enters the fallback pass.  With one interface matched by
    two records the unnamed count is -1, and the fallback pass is entered
    as well. *)
Theorem summary_counts_last_interface_only :
  let dir2 :=
    [("ifcfg-eth0", Some ("DEVICE=eth0" ++ newline ++ "HWADDR=AA:BB:CC:DD:EE:01" ++ newline)%string);
     ("ifcfg-eth1", Some ("DEVICE=eth1" ++ newline ++ "HWADDR=AA:BB:CC:DD:EE:02" ++ newline)%string)] in
  let t2 := [Link "ens3" "aa:bb:cc:dd:ee:01" true; Link "ens4" "aa:bb:cc:dd:ee:02" true] in
  let dir1 :=
    [("ifcfg-eth0", Some ("DEVICE=eth0" ++ newline ++ "HWADDR=AA:BB:CC:DD:EE:01" ++ newline)%string);
     ("ifcfg-eth0.bak", Some ("DEVICE=eth0" ++ newline ++ "HWADDR=AA:BB:CC:DD:EE:01" ++ newline)%string)] in
  let t1 := [Link "ens3" "aa:bb:cc:dd:ee:01" true] in
  main dir2 t2 =
    Run (Ok tt)
      [Link "eth0" "aa:bb:cc:dd:ee:01" false; Link "eth1" "aa:bb:cc:dd:ee:02" false]
      [Print "Gathering previous name association";
       Ip (SetDown "ens3") Done; Ip (SetName "ens3" "temp0") Done; Ip (SetUp "temp0") Done;
       Ip (SetDown "ens4") Done; Ip (SetName "ens4" "temp1") Done; Ip (SetUp "temp1") Done;
       Print "Renamed all interfaces to temporary device names.";
       Print "Loading configuration files in /etc/sysconfig/network-scripts/";
       Print "Applying names from HWADDR flags in configuration files";
       Ip (SetDown "temp0") Done; Ip (SetName "temp0" "eth0") Done;
       Ip (SetUp "temp0") NoSuchDevice;
       Ip (SetDown "temp1") Done; Ip (SetName "temp1" "eth1") Done;
       Ip (SetUp "temp0") NoSuchDevice;
       Print "1 Assigned, 1 Unnamed:";
       Print "Renaming the devices not found in the ifcfg-ethN files to an arbitrary ethN designation";
       Print "Final naming scheme"] /\
  In (Print "2 Assigned, -1 Unnamed:") (trace (main dir1 t1)) /\
  In (Print "Renaming the devices not found in the ifcfg-ethN files to an arbitrary ethN designation")
     (trace (main dir1 t1)).
Proof.
  cbv zeta. split; [vm_compute; reflexivity|].
  split; vm_compute; tauto.
Qed.

(** ** Records without a hardware address *)

(** C4 (the code departs from it): the HWADDR value of a record is looked
    up without a test for the key, unlike DEVICE and NAME a few lines
    below.  A record without HWADDR raises [KeyError] in the match pass;
    the error is caught nowhere, so [main] ends there, with every
    interface still under its temporary name. *)
Theorem record_without_hwaddr_raises :
  let text := ("DEVICE=eth0" ++ newline ++ "ONBOOT=yes" ++ newline)%string in
  let t := [Link "ens3" "aa:bb:cc:dd:ee:01" true; Link "ens4" "aa:bb:cc:dd:ee:02" true] in
  let temp := [Link "temp0" "aa:bb:cc:dd:ee:01" true; Link "temp1" "aa:bb:cc:dd:ee:02" true] in
  Dict.get "HWADDR" (parse_config text) = None /\
  assign_interface (Iface "AA:BB:CC:DD:EE:01" true "temp0")
    [("/etc/sysconfig/network-scripts/ifcfg-eth0", parse_config text)] temp =
    Run (Raise (KeyError "HWADDR")) temp [] /\
  res (main [("ifcfg-eth0", Some text)] t) = Raise (KeyError "HWADDR") /\
  table (main [("ifcfg-eth0", Some text)] t) = temp.
Proof.
  cbv zeta. repeat split; vm_compute; reflexivity.
Qed.

(** ** Files that cannot be opened *)




(** ** Quotes and case of the hardware address *)

(** C6, as stated, fails: only double quotes are stripped from the HWADDR
    value, so the single-quoted lowercase address is compared with its
    quotes on and does not match the interface; the record renames
    nothing. *)
Lemma single_quoted_hwaddr_does_not_match :
  let config := parse_config ("HWADDR='aa:bb:cc:dd:ee:ff'" ++ newline ++ "DEVICE=eth0")%string in
  let interface := Iface "AA:BB:CC:DD:EE:FF" true "temp0" in
  let t := [Link "temp0" "aa:bb:cc:dd:ee:ff" true] in
  Dict.get "HWADDR" config = Some "'AA:BB:CC:DD:EE:FF'" /\
  hwaddr_in "'AA:BB:CC:DD:EE:FF'" interface = false /\
  assign_interface interface [("/etc/sysconfig/network-scripts/ifcfg-eth0", config)] t =
    Run (Ok 0%Z) t [].
Proof.
  cbv zeta. repeat split; vm_compute; reflexivity.
Qed.

(** C6, amended: a record whose HWADDR line carries the lowercase address
    in double quotes matches every interface that reports
    AA:BB:CC:DD:EE:FF: the value is stored upper-cased and the double
    quotes around it are stripped before the test. *)
Theorem double_quoted_lowercase_hwaddr_matches (config_dict : dict string) (interface : iface) :
  hwaddr interface = "AA:BB:CC:DD:EE:FF" ->
  exists value,
    Dict.get "HWADDR" (parse_line config_dict double_quoted_line) = Some value /\
    Str.strip_chars quotes value = "AA:BB:CC:DD:EE:FF" /\
    hwaddr_in value interface = true.
Proof.
  intros Hmac.
  exists (Str.strip (Str.upper (quotes ++ "aa:bb:cc:dd:ee:ff" ++ quotes)%string)).
  split.
  - change (parse_line config_dict double_quoted_line)
      with (Dict.set "HWADDR"
              (Str.strip (Str.upper (quotes ++ "aa:bb:cc:dd:ee:ff" ++ quotes)%string))
              config_dict).
    apply get_set_same.
  - unfold hwaddr_in. rewrite Hmac. split; vm_compute; reflexivity.
Qed.

Lemma double_quoted_lowercase_hwaddr_matches_witness :
  exists value,
    Dict.get "HWADDR" (parse_line [("DEVICE", "ETH0")] double_quoted_line) = Some value /\
    Str.strip_chars quotes value = "AA:BB:CC:DD:EE:FF" /\
    hwaddr_in value (Iface "AA:BB:CC:DD:EE:FF" true "temp0") = true.
Proof.
  apply (double_quoted_lowercase_hwaddr_matches [("DEVICE", "ETH0")]
           (Iface "AA:BB:CC:DD:EE:FF" true "temp0")).
  reflexivity.
Defined.

(** ** Records with an empty hardware address *)

(** C9, as stated, fails: the empty HWADDR value passes the test against
    every interface, but a rename follows only when the record names a
    target.  The record of the bare line [HWADDR=] has neither DEVICE nor
    NAME and renames nothing. *)
Lemma empty_hwaddr_without_target_renames_nothing :
  let config := parse_config "HWADDR=" in
  let interface := Iface "AA:BB:CC:DD:EE:FF" true "temp0" in
  let t := [Link "temp0" "aa:bb:cc:dd:ee:ff" true] in
  config = [("HWADDR", EmptyString)] /\
  hwaddr_in EmptyString interface = true /\
  assign_entry interface 0%Z config t = Run (Ok 0%Z) t [].
Proof.
  cbv zeta. repeat split; vm_compute; reflexivity.
Qed.

(** C9, amended: a record whose HWADDR value is empty once the quotes are
    stripped passes the test against every interface, and when it has a
    DEVICE or NAME key, processing any interface against it runs the
    down, rename, up sequence on that interface and counts a match. *)
Theorem empty_hwaddr_matches_every_interface
        (interface : iface) (named : Z) (config : dict string)
        (value dest : string) (t : list link) :
  Dict.get "HWADDR" config = Some value ->
  Str.strip_chars quotes value = EmptyString ->
  target_of config = Some dest ->
  hwaddr_in value interface = true /\
  res (assign_entry interface named config t) = Ok (named + 1)%Z /\
  commands (trace (assign_entry interface named config t)) =
    [SetDown (ifname interface);
     SetName (ifname interface) (target 0 (Some dest));
     SetUp (temp_name 0)].
Proof.
  intros Hget Hempty Htarget.
  assert (Hin : hwaddr_in value interface = true).
  { unfold hwaddr_in. rewrite Hempty. apply contains_empty. }
  split; [exact Hin|].
  unfold assign_entry. rewrite Hget, Hin.
  unfold target_of in Htarget.
  destruct (Dict.get "DEVICE" config) as [device|].
  - inversion Htarget; subst dest.
    destruct (link_name_change_commands 0 (ifname interface)
                (Some (Str.strip_chars quotes (Str.lower device))) t) as [Hr Hc].
    unfold bind. rewrite Hr. cbn [ret res table trace].
    split; [reflexivity|]. rewrite app_nil_r. exact Hc.
  - destruct (Dict.get "NAME" config) as [nm|]; [|discriminate].
    inversion Htarget; subst dest.
    destruct (link_name_change_commands 0 (ifname interface)
                (Some (Str.strip_chars quotes (Str.lower nm))) t) as [Hr Hc].
    unfold bind. rewrite Hr. cbn [ret res table trace].
    split; [reflexivity|]. rewrite app_nil_r. exact Hc.
Qed.

Lemma empty_hwaddr_matches_every_interface_witness :
  hwaddr_in EmptyString (Iface "AA:BB:CC:DD:EE:01" true "temp0") = true /\
  res (assign_entry (Iface "AA:BB:CC:DD:EE:01" true "temp0") 0%Z
         [("HWADDR", EmptyString); ("DEVICE", "ETH0")]
         [Link "temp0" "aa:bb:cc:dd:ee:01" true]) = Ok (0 + 1)%Z /\
  commands (trace (assign_entry (Iface "AA:BB:CC:DD:EE:01" true "temp0") 0%Z
                     [("HWADDR", EmptyString); ("DEVICE", "ETH0")]
                     [Link "temp0" "aa:bb:cc:dd:ee:01" true])) =
    [SetDown "temp0"; SetName "temp0" (target 0 (Some "eth0"));
     SetUp (temp_name 0)].
Proof.
  apply (empty_hwaddr_matches_every_interface
           (Iface "AA:BB:CC:DD:EE:01" true "temp0") 0%Z
           [("HWADDR", EmptyString); ("DEVICE", "ETH0")] EmptyString "eth0"
           [Link "temp0" "aa:bb:cc:dd:ee:01" true]); reflexivity.
Defined.

(** ** Parsing a configuration file *)

Lemma split_without_sep (sep : ascii) (s : string) :
  free_of (Ascii.eqb sep) s = true -> Str.split sep s = [s].
Proof.
  induction s as [|a s IH]; simpl; [reflexivity|].
  rewrite Ascii.eqb_sym. destruct (Ascii.eqb a sep); simpl; [discriminate|].
  intros H. now rewrite (IH H).
Qed.

Lemma split_at_sep (sep : ascii) (a b : string) :
  free_of (Ascii.eqb sep) a = true ->
  Str.split sep (a ++ String sep b)%string = a :: Str.split sep b.
Proof.
  induction a as [|c a IH]; simpl.
  - now rewrite Ascii.eqb_refl.
  - rewrite Ascii.eqb_sym. destruct (Ascii.eqb c sep); simpl; [discriminate|].
    intros H. now rewrite (IH H).
Qed.

Lemma split_cons (sep : ascii) (s : string) :
  exists x xs, Str.split sep s = x :: xs.
Proof.
  induction s as [|a s (x & xs & IH)]; simpl; eauto.
  destruct (Ascii.eqb a sep); eauto. rewrite IH. eauto.
Qed.

Lemma upper_ascii_not_lower (a : ascii) : Str.is_lower (Str.upper_ascii a) = false.
Proof.
  destruct a as [[] [] [] [] [] [] [] []]; reflexivity.
Qed.

Lemma upper_free_of_lower (s : string) : free_of Str.is_lower (Str.upper s) = true.
Proof.
  induction s as [|a s IH]; simpl; [reflexivity|].
  rewrite upper_ascii_not_lower. exact IH.
Qed.

Lemma lstrip_free_of (p q : ascii -> bool) (s : string) :
  free_of q s = true -> free_of q (Str.lstrip p s) = true.
Proof.
  induction s as [|a s IH]; simpl; [reflexivity|].
  intros H. apply andb_prop in H as [Ha Hs].
  destruct (p a); simpl; [auto|]. now rewrite Ha, Hs.
Qed.

Lemma rstrip_free_of (p q : ascii -> bool) (s : string) :
  free_of q s = true -> free_of q (Str.rstrip p s) = true.
Proof.
  induction s as [|a s IH]; simpl; [reflexivity|].
  intros H. apply andb_prop in H as [Ha Hs]. specialize (IH Hs).
  destruct (Str.rstrip p s) as [|b r].
  - destruct (p a); simpl; [reflexivity|]. now rewrite Ha.
  - change (free_of q (String a (String b r)) = true).
    simpl in *. now rewrite Ha, IH.
Qed.

Lemma strip_upper_free_of_lower (s : string) :
  free_of Str.is_lower (Str.strip (Str.upper s)) = true.
Proof.
  unfold Str.strip. apply rstrip_free_of, lstrip_free_of, upper_free_of_lower.
Qed.

Lemma parse_line_upper (d : dict string) (line : string) :
  (forall k v, In (k, v) d ->
               free_of Str.is_lower k = true /\ free_of Str.is_lower v = true) ->
  forall k v, In (k, v) (parse_line d line) ->
              free_of Str.is_lower k = true /\ free_of Str.is_lower v = true.
Proof.
  intros Hd k v. unfold parse_line.
  destruct (Nat.ltb 1 (List.length (Str.split "=" line))); [|apply Hd].
  intros H. apply in_set in H as [H|H]; [|now apply Hd].
  inversion H; subst. split; apply strip_upper_free_of_lower.
Qed.

Lemma parse_lines_upper (lines : list string) (d : dict string) :
  (forall k v, In (k, v) d ->
               free_of Str.is_lower k = true /\ free_of Str.is_lower v = true) ->
  forall k v, In (k, v) (fold_left parse_line lines d) ->
              free_of Str.is_lower k = true /\ free_of Str.is_lower v = true.
Proof.
  revert d. induction lines as [|line lines IH]; intros d Hd; simpl; [exact Hd|].
  apply IH. now apply parse_line_upper.
Qed.

(** C10: [parse_config] goes through the lines of the text; a line
    without [=] leaves the record as it is; a line with one or more [=]
    stores, under the upper-cased text before the first [=], the
    upper-cased text between the first and the second [=] (or the end of
    the line), both without the blanks around them, and drops what
    follows a second [=]; no key and no value of the record holds a
    lowercase letter. *)
Theorem parse_config_fields :
  (forall text, parse_config text = fold_left parse_line (Str.split "010" text) []) /\
  (forall d line,
      free_of (Ascii.eqb "=") line = true -> parse_line d line = d) /\
  (forall d key value,
      free_of (Ascii.eqb "=") key = true ->
      free_of (Ascii.eqb "=") value = true ->
      (parse_line d (key ++ String "=" value)%string =
         Dict.set (Str.strip (Str.upper key)) (Str.strip (Str.upper value)) d) /\
      (forall rest,
          parse_line d (key ++ String "=" (value ++ String "=" rest))%string =
            Dict.set (Str.strip (Str.upper key)) (Str.strip (Str.upper value)) d)) /\
  (forall text k v,
      In (k, v) (parse_config text) ->
      free_of Str.is_lower k = true /\ free_of Str.is_lower v = true).
Proof.
  split; [reflexivity|]. split; [|split].
  - intros d line H. unfold parse_line. now rewrite (split_without_sep _ _ H).
  - intros d key value Hk Hv. split.
    + unfold parse_line.
      rewrite (split_at_sep _ _ _ Hk), (split_without_sep _ _ Hv). reflexivity.
    + intros rest. unfold parse_line.
      rewrite (split_at_sep _ _ _ Hk), (split_at_sep _ _ _ Hv).
      destruct (split_cons "=" rest) as (x & xs & ->). reflexivity.
  - intros text. unfold parse_config. apply parse_lines_upper. intros k v [].
Qed.

Lemma parse_config_fields_witness :
  parse_line [("HWADDR", "AA:BB:CC:DD:EE:01")] "# a comment" =
    [("HWADDR", "AA:BB:CC:DD:EE:01")] /\
  (parse_line [] ("device" ++ String "=" "eth0")%string =
     Dict.set (Str.strip (Str.upper "device")) (Str.strip (Str.upper "eth0")) [] /\
   forall rest,
     parse_line [] ("device" ++ String "=" ("eth0" ++ String "=" rest))%string =
       Dict.set (Str.strip (Str.upper "device")) (Str.strip (Str.upper "eth0")) []).
Proof.
  destruct parse_config_fields as (_ & Hnone & Hfield & _). split.
  - apply (Hnone [("HWADDR", "AA:BB:CC:DD:EE:01")] "# a comment"). reflexivity.
  - apply (Hfield [] "device" "eth0"); reflexivity.
Defined.

(** ** The link table under [ip link set] *)

Lemma map_fix {A} (f : A -> A) (l : list A) :
  (forall x, In x l -> f x = x) -> map f l = l.
Proof.
  intros H. rewrite <- (map_id l) at 2. apply map_ext_in. exact H.
Qed.

Lemma has_dev_in (dev : string) (t : list link) :
  has_dev dev t = true <-> In dev (names t).
Proof.
  unfold has_dev, names. rewrite existsb_exists, in_map_iff.
  split; intros (l & H1 & H2).
  - exists l. apply String.eqb_eq in H2. now split.
  - exists l. split; [exact H2|]. now apply String.eqb_eq.
Qed.

Lemma has_dev_not_in (dev : string) (t : list link) :
  has_dev dev t = false <-> ~ In dev (names t).
Proof.
  rewrite <- has_dev_in. destruct (has_dev dev t); split; congruence.
Qed.

Lemma names_set_up (dev : string) (b : bool) (t : list link) :
  names (map (set_up dev b) t) = names t.
Proof.
  unfold names. rewrite map_map. apply map_ext. intros l. unfold set_up.
  destruct (String.eqb (name l) dev); reflexivity.
Qed.

Lemma names_set_name (dev new : string) (t : list link) :
  names (map (set_name dev new) t) = map (subst dev new) (names t).
Proof.
  unfold names. rewrite !map_map. apply map_ext. intros l. unfold set_name, subst.
  destruct (String.eqb (name l) dev); reflexivity.
Qed.

Lemma addresses_set_up (dev : string) (b : bool) (t : list link) :
  addresses (map (set_up dev b) t) = addresses t.
Proof.
  unfold addresses. rewrite map_map. apply map_ext. intros l. unfold set_up.
  destruct (String.eqb (name l) dev); reflexivity.
Qed.

Lemma addresses_set_name (dev new : string) (t : list link) :
  addresses (map (set_name dev new) t) = addresses t.
Proof.
  unfold addresses. rewrite map_map. apply map_ext. intros l. unfold set_name.
  destruct (String.eqb (name l) dev); reflexivity.
Qed.

Lemma subst_nodup (dev new : string) (ns : list string) :
  NoDup ns -> ~ In new ns -> NoDup (map (subst dev new) ns).
Proof.
  induction 1 as [|x r Hx Hr IH]; intros Hnew; simpl; constructor.
  - intros Hin. apply in_map_iff in Hin as (y & Hy & Hin).
    unfold subst in Hy.
    destruct (String.eqb x dev) eqn:Ex; destruct (String.eqb y dev) eqn:Ey.
    + apply String.eqb_eq in Ex, Ey. subst. contradiction.
    + subst y. apply Hnew. now right.
    + subst x. apply Hnew. now left.
    + subst y. contradiction.
  - apply IH. intros Hin. apply Hnew. now right.
Qed.

(** Whatever the command, the names of the table stay pairwise distinct. *)
Lemma ip_link_set_nodup (c : ip_cmd) (t : list link) :
  NoDup (names t) -> NoDup (names (fst (ip_link_set c t))).
Proof.
  intros H. destruct c as [dev|dev new|dev]; simpl.
  - destruct (has_dev dev t); simpl; [now rewrite names_set_up|exact H].
  - destruct (has_dev dev t); simpl; [|exact H].
    destruct (existsb _ t); simpl; [exact H|].
    destruct (String.eqb dev new); simpl; [exact H|].
    destruct (has_dev new t) eqn:E; simpl; [exact H|].
    rewrite names_set_name. apply subst_nodup; [exact H|].
    now apply has_dev_not_in.
  - destruct (has_dev dev t); simpl; [now rewrite names_set_up|exact H].
Qed.

Lemma ip_link_set_addresses (c : ip_cmd) (t : list link) :
  addresses (fst (ip_link_set c t)) = addresses t.
Proof.
  destruct c as [dev|dev new|dev]; simpl.
  - destruct (has_dev dev t); simpl; [apply addresses_set_up|reflexivity].
  - destruct (has_dev dev t); simpl; [|reflexivity].
    destruct (existsb _ t); simpl; [reflexivity|].
    destruct (String.eqb dev new); simpl; [reflexivity|].
    destruct (has_dev new t); simpl; [reflexivity|apply addresses_set_name].
  - destruct (has_dev dev t); simpl; [apply addresses_set_up|reflexivity].
Qed.

Lemma replay_nodup (cs : list ip_cmd) (t : list link) :
  NoDup (names t) -> NoDup (names (replay cs t)).
Proof.
  revert t. induction cs as [|c cs IH]; intros t H; simpl; [exact H|].
  apply IH. now apply ip_link_set_nodup.
Qed.

Lemma replay_addresses (cs : list ip_cmd) (t : list link) :
  addresses (replay cs t) = addresses t.
Proof.
  revert t. induction cs as [|c cs IH]; intros t; simpl; [reflexivity|].
  unfold replay in IH. rewrite IH. apply ip_link_set_addresses.
Qed.

Lemma replay_app (a b : list ip_cmd) (t : list link) :
  replay (a ++ b) t = replay b (replay a t).
Proof. unfold replay. apply fold_left_app. Qed.

(** The effect of [link_name_change] on a device that exists, when the
    name asked for is free or is the one the device has. *)
Lemma link_name_change_table (idx : nat) (entry : string) (dest : option string)
      (t : list link) :
  In entry (names t) ->
  target idx dest = entry \/ ~ In (target idx dest) (names t) ->
  let t2 := map (set_name entry (target idx dest)) (map (set_up entry false) t) in
  link_name_change idx entry dest t =
    Run (Ok tt) (map (set_up (temp_name idx) true) t2)
        [Ip (SetDown entry) Done; Ip (SetName entry (target idx dest)) Done;
         Ip (SetUp (temp_name idx))
            (if has_dev (temp_name idx) t2 then Done else NoSuchDevice)].
Proof.
  intros Hin Hfree t2.
  assert (Hstep : link_name_change idx entry dest =
                  (ip (SetDown entry) ;; ip (SetName entry (target idx dest)) ;;
                   ip (SetUp (temp_name idx)))).
  { unfold link_name_change, target. destruct (not_dest dest); reflexivity. }
  rewrite Hstep. clear Hstep.
  set (d := target idx dest) in *.
  set (t1 := map (set_up entry false) t).
  assert (H1 : ip_link_set (SetDown entry) t = (t1, Done)).
  { simpl. apply has_dev_in in Hin. now rewrite Hin. }
  assert (Hin1 : has_dev entry t1 = true).
  { apply has_dev_in. unfold t1. now rewrite names_set_up. }
  assert (Hdown : existsb (fun l => String.eqb (name l) entry && up l) t1 = false).
  { destruct (existsb _ t1) eqn:E; [|reflexivity].
    apply existsb_exists in E as (l & Hl & Hc). unfold t1 in Hl.
    apply in_map_iff in Hl as (l0 & <- & _). unfold set_up in Hc.
    destruct (String.eqb (name l0) entry) eqn:E0; simpl in Hc.
    - rewrite E0 in Hc. discriminate.
    - rewrite E0 in Hc. discriminate. }
  assert (H2 : ip_link_set (SetName entry d) t1 = (t2, Done)).
  { simpl. rewrite Hin1, Hdown. simpl.
    destruct (String.eqb entry d) eqn:E.
    - apply String.eqb_eq in E. unfold t2. fold d. rewrite <- E.
      f_equal. symmetry. apply map_fix. intros [n a u] _. unfold set_name. simpl.
      destruct (String.eqb n entry) eqn:En; [|reflexivity].
      apply String.eqb_eq in En. now subst.
    - destruct Hfree as [Hd|Hd].
      + apply String.eqb_neq in E. congruence.
      + assert (Hn : has_dev d t1 = false).
        { apply has_dev_not_in. unfold t1. now rewrite names_set_up. }
        rewrite Hn. reflexivity. }
  assert (H3 : ip_link_set (SetUp (temp_name idx)) t2 =
               (map (set_up (temp_name idx) true) t2,
                if has_dev (temp_name idx) t2 then Done else NoSuchDevice)).
  { simpl. destruct (has_dev (temp_name idx) t2) eqn:E; [reflexivity|].
    f_equal. symmetry. apply map_fix. intros l Hl. unfold set_up.
    destruct (String.eqb (name l) (temp_name idx)) eqn:En; [|reflexivity].
    apply String.eqb_eq in En. apply has_dev_not_in in E. exfalso. apply E.
    rewrite <- En. now apply in_map. }
  unfold bind, ip. rewrite H1. cbn [res table trace]. rewrite H2. cbn [res table trace].
  rewrite H3. reflexivity.
Qed.

(** ** Generated names *)

Lemma fmt_nat_inj (a b : nat) : Str.fmt_nat a = Str.fmt_nat b -> a = b.
Proof.
  unfold Str.fmt_nat. intros H.
  apply DecimalNat.Unsigned.to_uint_inj.
  assert (E : Some (Nat.to_uint a) = Some (Nat.to_uint b)).
  { rewrite <- (NilEmpty.usu (Nat.to_uint a)), <- (NilEmpty.usu (Nat.to_uint b)).
    now rewrite H. }
  now inversion E.
Qed.

Lemma temp_name_inj (a b : nat) : temp_name a = temp_name b -> a = b.
Proof.
  unfold temp_name. cbn [append]. intros H. injection H. apply fmt_nat_inj.
Qed.

Lemma eth_name_inj (a b : nat) : eth_name a = eth_name b -> a = b.
Proof.
  unfold eth_name. cbn [append]. intros H. injection H. apply fmt_nat_inj.
Qed.

Lemma eth_name_contains (n : nat) : Str.contains "eth" (eth_name n) = true.
Proof. unfold eth_name. cbn. now destruct (Str.fmt_nat n). Qed.

Lemma eth_name_not_dest (n : nat) : target 0 (Some (eth_name n)) = eth_name n.
Proof. reflexivity. Qed.

Lemma in_existsb_eqb (x : string) (l : list string) :
  existsb (String.eqb x) l = true <-> In x l.
Proof.
  rewrite existsb_exists. split.
  - intros (y & Hy & E). apply String.eqb_eq in E. now subst.
  - intros H. exists x. split; [exact H|apply String.eqb_refl].
Qed.

Lemma nodup_map_inj {A B} (f : A -> B) (l : list A) :
  (forall x y, f x = f y -> x = y) -> NoDup l -> NoDup (map f l).
Proof.
  intros Hf. induction 1 as [|x l Hx Hl IH]; simpl; constructor; [|exact IH].
  rewrite in_map_iff. intros (y & E & Hy). apply Hf in E. now subst.
Qed.

(** ** The search for a free [eth] name *)

Lemma next_free_ge (fuel : nat) (taken : list string) (idx : nat) :
  idx <= next_free fuel taken idx.
Proof.
  revert idx. induction fuel as [|fuel IH]; intros idx; cbn [next_free]; [lia|].
  destruct (existsb _ taken); [|lia]. specialize (IH (S idx)). lia.
Qed.

Lemma next_free_skipped (fuel : nat) (taken : list string) (idx M : nat) :
  idx <= M < next_free fuel taken idx -> In (eth_name M) taken.
Proof.
  revert idx. induction fuel as [|fuel IH]; intros idx; cbn [next_free]; [lia|].
  destruct (existsb _ taken) eqn:E; [|lia].
  intros H. destruct (Nat.eq_dec M idx) as [->|Hne].
  - now apply in_existsb_eqb.
  - apply (IH (S idx)). lia.
Qed.

Lemma next_free_bound (fuel : nat) (taken : list string) (idx : nat) :
  ~ In (eth_name (next_free fuel taken idx)) taken \/
  next_free fuel taken idx = idx + fuel.
Proof.
  revert idx. induction fuel as [|fuel IH]; intros idx; cbn [next_free].
  - right. lia.
  - destruct (existsb _ taken) eqn:E.
    + destruct (IH (S idx)) as [H|H]; [now left|right; lia].
    + left. intros H. apply in_existsb_eqb in H. congruence.
Qed.

(** The [while] loop of the fallback pass ends within as many rounds as
    there are keys, on an index whose name is not a key. *)
Lemma next_free_not_taken (taken : list string) (idx : nat) :
  ~ In (eth_name (next_free (List.length taken) taken idx)) taken.
Proof.
  destruct (next_free_bound (List.length taken) taken idx) as [H|H]; [exact H|].
  intros Hin.
  assert (Hincl : incl (map eth_name (seq idx (S (List.length taken)))) taken).
  { intros x Hx. apply in_map_iff in Hx as (M & <- & HM). apply in_seq in HM.
    destruct (Nat.eq_dec M (idx + List.length taken)) as [->|Hne].
    - now rewrite <- H.
    - apply (next_free_skipped (List.length taken) taken idx). lia. }
  apply NoDup_incl_length in Hincl.
  - rewrite length_map, length_seq in Hincl. lia.
  - apply nodup_map_inj; [exact eth_name_inj|apply seq_NoDup].
Qed.

(** ** The interface dict of a table with distinct names *)

Lemma set_fresh {V} (k : string) (v : V) (d : dict V) :
  ~ In k (keys d) -> Dict.set k v d = d ++ [(k, v)].
Proof.
  induction d as [|[k' v'] d IH]; intros H; simpl; [reflexivity|].
  destruct (String.eqb k' k) eqn:E.
  - apply String.eqb_eq in E. subst. exfalso. apply H. now left.
  - rewrite IH; [reflexivity|]. intros Hin. apply H. now right.
Qed.

Lemma interface_dict_from (t : list link) (acc : dict iface) :
  NoDup (keys acc ++ names t) ->
  fold_left
    (fun interfaces l =>
       Dict.set (name l) (Iface (Str.upper (address l)) (up l) (name l)) interfaces)
    t acc = acc ++ map item_of t.
Proof.
  revert acc. induction t as [|l t IH]; intros acc H; simpl.
  - now rewrite app_nil_r.
  - simpl in H. rewrite set_fresh.
    + rewrite IH.
      * rewrite <- app_assoc. reflexivity.
      * unfold keys in *. rewrite map_app, <- app_assoc. exact H.
    + apply NoDup_remove_2 in H. intros Hin. apply H. apply in_or_app. now left.
Qed.

Lemma interface_dict_items (t : list link) :
  NoDup (names t) -> interface_dict t = map item_of t.
Proof.
  intros H. unfold interface_dict. now rewrite interface_dict_from.
Qed.

Lemma keys_items (t : list link) : keys (map item_of t) = names t.
Proof.
  unfold keys, names. rewrite map_map. reflexivity.
Qed.

(** ** Every operation changes the table through [ip] only *)

Lemma sound_ret {A} (a : A) : sound (ret a).
Proof. intros t. reflexivity. Qed.

Lemma sound_raise {A} (e : exn) : sound (@raise A e).
Proof. intros t. reflexivity. Qed.

Lemma sound_print (s : string) : sound (print s).
Proof. intros t. reflexivity. Qed.

Lemma sound_get_interface_dict : sound get_interface_dict.
Proof. intros t. reflexivity. Qed.

Lemma sound_ip (c : ip_cmd) : sound (ip c).
Proof.
  intros t. unfold ip. destruct (ip_link_set c t) as [t' s] eqn:E.
  cbn. now rewrite E.
Qed.

Lemma sound_bind {A B} (m : M A) (f : A -> M B) :
  sound m -> (forall a, sound (f a)) -> sound (bind m f).
Proof.
  intros Hm Hf t. unfold bind. destruct (res (m t)) as [a|e]; cbn [table trace].
  - rewrite commands_app, replay_app, <- Hm, <- Hf. reflexivity.
  - apply Hm.
Qed.

Lemma sound_for_each {A} (body : A -> M unit) (l : list A) :
  (forall x, sound (body x)) -> sound (for_each l body).
Proof.
  intros Hb. induction l as [|x l IH]; simpl.
  - apply sound_ret.
  - apply sound_bind; auto.
Qed.

Lemma sound_for_fold {A S} (body : S -> A -> M S) (l : list A) :
  (forall s x, sound (body s x)) -> forall s, sound (for_fold l s body).
Proof.
  intros Hb. induction l as [|x l IH]; intros s; simpl.
  - apply sound_ret.
  - apply sound_bind; auto.
Qed.

Create HintDb sound.
#[local] Hint Resolve sound_ret sound_raise sound_print sound_get_interface_dict
  sound_ip sound_bind sound_for_each sound_for_fold : sound.

Lemma sound_link_name_change (idx : nat) (entry : string) (dest : option string) :
  sound (link_name_change idx entry dest).
Proof.
  unfold link_name_change. destruct (not_dest dest); auto 10 with sound.
Qed.
#[local] Hint Resolve sound_link_name_change : sound.

Lemma sound_assign_entry (interface : iface) (named : Z) (config : dict string) :
  sound (assign_entry interface named config).
Proof.
  unfold assign_entry.
  destruct (Dict.get "HWADDR" config); [|auto with sound].
  destruct (hwaddr_in _ _); [|auto with sound].
  destruct (Dict.get "DEVICE" config); [auto with sound|].
  destruct (Dict.get "NAME" config); auto with sound.
Qed.
#[local] Hint Resolve sound_assign_entry : sound.

Lemma sound_assign_interface (interface : iface) (configs : dict (dict string)) :
  sound (assign_interface interface configs).
Proof. unfold assign_interface. auto with sound. Qed.
#[local] Hint Resolve sound_assign_interface : sound.

Lemma sound_match_pass (interfaces : dict iface) (configs : dict (dict string)) :
  sound (match_pass interfaces configs).
Proof. unfold match_pass. auto with sound. Qed.

Lemma sound_fallback_entry (interfaces : dict iface) (idx : nat) (f : string * iface) :
  sound (fallback_entry interfaces idx f).
Proof.
  unfold fallback_entry. destruct (negb _); auto with sound.
Qed.
#[local] Hint Resolve sound_fallback_entry : sound.

Lemma sound_fallback_pass (interfaces : dict iface) : sound (fallback_pass interfaces).
Proof. unfold fallback_pass. auto with sound. Qed.

Lemma sound_quarantine_pass (interfaces : dict iface) : sound (quarantine_pass interfaces).
Proof. unfold quarantine_pass. auto with sound. Qed.

Lemma sound_get_config (dir : list (string * option string)) : sound (get_config dir).
Proof.
  unfold get_config, get_config_files.
  apply sound_bind; [|auto with sound].
  apply sound_for_fold. intros files [entry content].
  destruct (Str.contains ":" entry); [auto with sound|].
  destruct content; auto with sound.
Qed.
#[local] Hint Resolve sound_match_pass sound_fallback_pass sound_quarantine_pass
  sound_get_config : sound.

Lemma sound_main_after_quarantine (dir : list (string * option string)) :
  sound (main_after_quarantine dir).
Proof.
  unfold main_after_quarantine.
  repeat first
    [ solve [auto with sound]
    | match goal with |- sound (match ?x with _ => _ end) => destruct x end
    | apply sound_bind; [|intros] ].
Qed.

Lemma sound_main (dir : list (string * option string)) : sound (main dir).
Proof.
  unfold main. pose proof (sound_main_after_quarantine dir). auto 10 with sound.
Qed.

Lemma sound_nodup {A} (m : M A) (t : list link) :
  sound m -> NoDup (names t) -> NoDup (names (table (m t))).
Proof. intros Hm H. rewrite Hm. now apply replay_nodup. Qed.

Lemma sound_addresses {A} (m : M A) (t : list link) :
  sound m -> addresses (table (m t)) = addresses t.
Proof. intros Hm. rewrite Hm. apply replay_addresses. Qed.

(** ** The quarantine pass *)

Lemma rename_other (entry d tmp : string) (x : link) :
  name x <> entry -> name x <> tmp ->
  set_up tmp true (set_name entry d (set_up entry false x)) = x.
Proof.
  intros H1 H2. apply String.eqb_neq in H1, H2.
  unfold set_up at 2. rewrite H1. unfold set_name. rewrite H1.
  unfold set_up. now rewrite H2.
Qed.

Lemma rename_self_up (entry d : string) (l : link) :
  name l = entry ->
  set_up d true (set_name entry d (set_up entry false l)) = Link d (address l) true.
Proof.
  intros H. apply String.eqb_eq in H.
  unfold set_up at 2. rewrite H. unfold set_name. cbn [name address up]. rewrite H.
  unfold set_up. cbn [name address up]. now rewrite String.eqb_refl.
Qed.

Lemma names_app (a b : list link) : names (a ++ b) = names a ++ names b.
Proof. apply map_app. Qed.

Lemma nodup_middle (a b : list string) (x y : string) :
  NoDup (a ++ x :: b) -> In y a \/ In y b -> y <> x.
Proof.
  intros H Hy ->. apply NoDup_remove_2 in H. apply H. apply in_or_app. exact Hy.
Qed.

(** One round of the quarantine pass, on the first device that was not
    yet renamed. *)
Lemma quarantine_step (i : nat) (done todo : list link) (l : link) :
  NoDup (names (done ++ l :: todo)) ->
  ~ In (temp_name i) (names done) ->
  ~ In (temp_name i) (names todo) ->
  table (link_name_change i (name l) None (done ++ l :: todo)) =
    done ++ Link (temp_name i) (address l) true :: todo.
Proof.
  intros Hnd Hd Ht.
  assert (Hnames : names (done ++ l :: todo) = names done ++ name l :: names todo).
  { now rewrite names_app. }
  rewrite Hnames in Hnd.
  rewrite link_name_change_table.
  - cbn [table]. change (target i None) with (temp_name i).
    rewrite !map_map, map_app. cbn [map]. rewrite rename_self_up by reflexivity.
    f_equal; [|f_equal]; apply map_fix; intros x Hx; apply rename_other.
    + apply (nodup_middle _ _ _ _ Hnd). left. now apply in_map.
    + intros E. apply Hd. rewrite <- E. now apply in_map.
    + apply (nodup_middle _ _ _ _ Hnd). right. now apply in_map.
    + intros E. apply Ht. rewrite <- E. now apply in_map.
  - rewrite Hnames. apply in_or_app. right. now left.
  - change (target i None) with (temp_name i).
    destruct (string_dec (temp_name i) (name l)) as [E|E]; [now left|right].
    rewrite Hnames. intros Hin. apply in_app_or in Hin as [Hin|[Hin|Hin]]; auto.
Qed.

Lemma quarantine_loop (todo : list link) :
  forall (done : list link) (i : nat),
    NoDup (names (done ++ todo)) ->
    quarantine_ready i (names todo) = true ->
    (forall k, i <= k -> ~ In (temp_name k) (names done)) ->
    table (for_each (enumerate_from i (names todo))
             (fun ie => link_name_change (fst ie) (snd ie) None) (done ++ todo)) =
      done ++ requeue i todo.
Proof.
  induction todo as [|l todo IH]; intros done i Hnd Hready Hdone.
  - reflexivity.
  - cbn [names map enumerate_from for_each requeue].
    cbn [names map quarantine_ready] in Hready.
    apply andb_prop in Hready as [Hfree Hready].
    assert (Ht : ~ In (temp_name i) (names todo)).
    { intros Hin. apply in_existsb_eqb in Hin. unfold names in Hin.
      rewrite Hin in Hfree. discriminate. }
    rewrite (table_bind_ok _ _ _ tt) by apply link_name_change_commands.
    cbn [fst snd].
    pose proof (quarantine_step i done todo l Hnd (Hdone i (le_n i)) Ht) as Hstep.
    pose proof (sound_nodup (link_name_change i (name l) None) _
                  (sound_link_name_change _ _ _) Hnd) as Hnd'.
    rewrite Hstep in Hnd'. rewrite Hstep.
    change (done ++ Link (temp_name i) (address l) true :: todo)
      with (done ++ [Link (temp_name i) (address l) true] ++ todo).
    rewrite app_assoc.
    change (for_each (enumerate_from (S i) (map name todo)))
      with (for_each (enumerate_from (S i) (names todo))).
    rewrite IH.
    + rewrite <- app_assoc. reflexivity.
    + rewrite <- app_assoc. exact Hnd'.
    + exact Hready.
    + intros k Hk. rewrite names_app. cbn [names map]. intros Hin.
      apply in_app_or in Hin as [Hin|[Hin|[]]].
      * apply (Hdone k); [lia|exact Hin].
      * apply temp_name_inj in Hin. lia.
Qed.

(** When no interface holds the temporary name of one enumerated before
    it, the quarantine pass renames every interface: position [i] ends as
    [temp<i>], up. *)
Lemma quarantine_pass_requeues (t : list link) :
  NoDup (names t) ->
  quarantine_ready 0 (names t) = true ->
  table (quarantine_pass (interface_dict t) t) = requeue 0 t.
Proof.
  intros Hnd Hready. unfold quarantine_pass, enumerate.
  rewrite (interface_dict_items t Hnd), keys_items.
  apply (quarantine_loop t [] 0 Hnd Hready). intros k _ [].
Qed.

(** ** The fallback pass *)

Lemma bind_run_ok {A B} (m : M A) (f : A -> M B) (t t' : list link) (a : A)
      (tr : list event) :
  m t = Run (Ok a) t' tr ->
  bind m f t = Run (res (f a t')) (table (f a t')) (tr ++ trace (f a t')).
Proof. intros H. unfold bind. now rewrite H. Qed.

Lemma rename_self_down (entry d tmp : string) (l : link) :
  name l = entry -> d <> tmp ->
  set_up tmp true (set_name entry d (set_up entry false l)) = Link d (address l) false.
Proof.
  intros H Hd. apply String.eqb_eq in H. apply String.eqb_neq in Hd.
  unfold set_up at 2. rewrite H. unfold set_name. cbn [name address up]. rewrite H.
  unfold set_up. cbn [name address up]. now rewrite Hd.
Qed.

Lemma rename_elsewhere (entry d tmp : string) (x : link) :
  name x <> entry ->
  set_up tmp true (set_name entry d (set_up entry false x)) = set_up tmp true x.
Proof.
  intros H1. apply String.eqb_neq in H1.
  unfold set_up at 2. rewrite H1. unfold set_name. now rewrite H1.
Qed.

Lemma temp0_without_eth : Str.contains "eth" (temp_name 0) = false.
Proof. reflexivity. Qed.

Lemma named_eth_not_temp0 (x : link) :
  Str.contains "eth" (name x) = true -> name x <> temp_name 0.
Proof.
  intros H E. rewrite E, temp0_without_eth in H. discriminate.
Qed.

(** One rename of the fallback pass, to a name that nobody holds. *)
Lemma fallback_step (k : nat) (done todo : list link) (l : link) :
  NoDup (names (done ++ l :: todo)) ->
  ~ In (eth_name k) (names (done ++ l :: todo)) ->
  (forall x, In x done -> Str.contains "eth" (name x) = true) ->
  exists s,
    link_name_change 0 (name l) (Some (eth_name k)) (done ++ l :: todo) =
      Run (Ok tt)
          (done ++ Link (eth_name k) (address l) false
                :: map (set_up (temp_name 0) true) todo)
          [Ip (SetDown (name l)) Done; Ip (SetName (name l) (eth_name k)) Done;
           Ip (SetUp (temp_name 0)) s].
Proof.
  intros Hnd Hfree Hdone.
  assert (Hnames : names (done ++ l :: todo) = names done ++ name l :: names todo).
  { now rewrite names_app. }
  rewrite Hnames in Hnd.
  eexists. rewrite link_name_change_table.
  - rewrite eth_name_not_dest. f_equal.
    rewrite !map_map, map_app. cbn [map].
    rewrite rename_self_down; [|reflexivity|].
    + f_equal; [|f_equal].
      * apply map_fix. intros x Hx. apply rename_other.
        -- apply (nodup_middle _ _ _ _ Hnd). left. now apply in_map.
        -- apply named_eth_not_temp0. now apply Hdone.
      * apply map_ext_in. intros x Hx. apply rename_elsewhere.
        apply (nodup_middle _ _ _ _ Hnd). right. now apply in_map.
    + intros E. pose proof (eth_name_contains k) as Hc.
      rewrite E, temp0_without_eth in Hc. discriminate.
  - rewrite Hnames. apply in_or_app. right. now left.
  - right. rewrite eth_name_not_dest. exact Hfree.
Qed.

Lemma untouched_through_map (g : link -> link) (l l' : list link) :
  (forall y, Str.contains "eth" (name y) = true -> g y = y) ->
  (forall y, name (g y) = name y) ->
  Forall2 (fun x x' => Str.contains "eth" (name x) = true -> x' = x) (map g l) l' ->
  Forall2 (fun x x' => Str.contains "eth" (name x) = true -> x' = x) l l'.
Proof.
  intros Hg Hn. revert l'. induction l as [|y l IH]; intros l' H; simpl in H.
  - inversion H. constructor.
  - inversion H as [|a b la lb Hab Hrest]; subst. constructor.
    + intros Hy. assert (E : b = g y) by (apply Hab; now rewrite Hn).
      now rewrite E, Hg.
    + now apply IH.
Qed.

Lemma name_set_up (dev : string) (b : bool) (y : link) : name (set_up dev b y) = name y.
Proof. unfold set_up. now destruct (String.eqb (name y) dev). Qed.

Lemma set_up_temp0_keeps_eth (y : link) :
  Str.contains "eth" (name y) = true -> set_up (temp_name 0) true y = y.
Proof.
  intros H. unfold set_up.
  destruct (String.eqb (name y) (temp_name 0)) eqn:E; [|reflexivity].
  apply String.eqb_eq in E. now apply named_eth_not_temp0 in H.
Qed.

Lemma fallback_loop (interfaces : dict iface) (its : list (string * iface)) :
  forall (todo done : list link) (idx : nat),
    Forall2 (fun f x => fst f = name x /\ ifname (snd f) = name x) its todo ->
    NoDup (names (done ++ todo)) ->
    incl (names todo) (keys interfaces) ->
    (forall x, In x done -> Str.contains "eth" (name x) = true) ->
    (forall x, In x done ->
               In (name x) (keys interfaces) \/ exists j, j < idx /\ name x = eth_name j) ->
    exists todo',
      table (for_fold its idx (fallback_entry interfaces) (done ++ todo)) = done ++ todo' /\
      names todo' = fallback_names (keys interfaces) idx (names todo) /\
      Forall2 (fun x x' => Str.contains "eth" (name x) = true -> x' = x) todo todo' /\
      (exists idx', res (for_fold its idx (fallback_entry interfaces) (done ++ todo)) = Ok idx') /\
      forallb (fun e => negb (collides e))
              (trace (for_fold its idx (fallback_entry interfaces) (done ++ todo))) = true.
Proof.
  induction its as [|f its IH]; intros todo done idx Hits Hnd Hincl Hdone Hold.
  - inversion Hits; subst. exists []. cbn. repeat split; eauto.
  - inversion Hits as [|f0 x its0 todo1 [Hfst Hif] Hrest]; subst.
    cbn [for_fold]. unfold fallback_entry at 1 3 5. rewrite Hif, Hfst.
    destruct (Str.contains "eth" (name x)) eqn:Hx; cbn [negb].
    + (* the name holds "eth": nothing is done *)
      rewrite (bind_run_ok _ _ (done ++ x :: todo1) (done ++ x :: todo1) idx [])
        by reflexivity.
      cbn [res table trace app].
      destruct (IH todo1 (done ++ [x]) idx) as (todo' & Ht & Hn & Hu & Hr & Hc).
      * exact Hrest.
      * now rewrite <- app_assoc.
      * intros y Hy. apply Hincl. now right.
      * intros y Hy. apply in_app_or in Hy as [Hy|[<-|[]]]; auto.
      * intros y Hy. apply in_app_or in Hy as [Hy|[<-|[]]]; auto.
        left. apply Hincl. now left.
      * rewrite <- app_assoc in Ht, Hr, Hc.
        change ([x] ++ todo1) with (x :: todo1) in Ht, Hr, Hc.
        exists (x :: todo'). rewrite Ht, <- app_assoc. cbn [app].
        split; [reflexivity|]. split.
        { cbn [names map fallback_names]. rewrite Hx. f_equal. exact Hn. }
        split; [constructor; auto|]. split; [exact Hr|exact Hc].
    + (* the name is replaced by the next free eth name *)
      set (k := next_free (List.length (keys interfaces)) (keys interfaces) idx).
      assert (Hk : idx <= k) by apply next_free_ge.
      assert (Hfree : ~ In (eth_name k) (names (done ++ x :: todo1))).
      { rewrite names_app. intros Hin. apply in_app_or in Hin as [Hin|Hin].
        - apply in_map_iff in Hin as (y & Hy & Hin).
          destruct (Hold y Hin) as [HK|(j & Hj & Hej)].
          + rewrite Hy in HK. now apply next_free_not_taken in HK.
          + rewrite Hy in Hej. apply eth_name_inj in Hej. lia.
        - apply Hincl in Hin. now apply next_free_not_taken in Hin. }
      destruct (fallback_step k done todo1 x Hnd Hfree Hdone) as (s & Hstep).
      pose proof (sound_nodup (link_name_change 0 (name x) (Some (eth_name k))) _
                    (sound_link_name_change _ _ _) Hnd) as Hnd'.
      rewrite Hstep in Hnd'. cbn [table] in Hnd'.
      set (x' := Link (eth_name k) (address x) false) in *.
      set (todo2 := map (set_up (temp_name 0) true) todo1) in *.
      assert (Hentry : (link_name_change 0 (name x) (Some (eth_name k));; ret (S k))
                         (done ++ x :: todo1) =
                       Run (Ok (S k)) (done ++ x' :: todo2)
                           [Ip (SetDown (name x)) Done;
                            Ip (SetName (name x) (eth_name k)) Done;
                            Ip (SetUp (temp_name 0)) s]).
      { rewrite (bind_run_ok _ _ _ _ _ _ Hstep). reflexivity. }
      rewrite (bind_run_ok _ _ _ _ _ _ Hentry).
      cbn [res table trace].
      destruct (IH todo2 (done ++ [x']) (S k)) as (todo' & Ht & Hn & Hu & Hr & Hc).
      * unfold todo2. clear - Hrest. induction Hrest as [|a b la lb [H1 H2] _ IHr].
        -- constructor.
        -- cbn [map]. constructor; [|exact IHr]. now rewrite name_set_up.
      * now rewrite <- app_assoc.
      * unfold todo2. rewrite names_set_up. intros y Hy. apply Hincl. now right.
      * intros y Hy. apply in_app_or in Hy as [Hy|[<-|[]]]; auto.
        apply eth_name_contains.
      * intros y Hy. apply in_app_or in Hy as [Hy|[<-|[]]].
        -- destruct (Hold y Hy) as [HK|(j & Hj & Hej)]; [now left|right].
           exists j. split; [lia|exact Hej].
        -- right. exists k. split; [lia|reflexivity].
      * rewrite <- app_assoc in Ht, Hr, Hc.
        change ([x'] ++ todo2) with (x' :: todo2) in Ht, Hr, Hc.
        exists (x' :: todo'). rewrite Ht, <- app_assoc. cbn [app].
        split; [reflexivity|]. split.
        { cbn [names map fallback_names]. rewrite Hx. fold k. f_equal.
          etransitivity; [exact Hn|]. unfold todo2. now rewrite names_set_up. }
        split.
        { constructor; [intros; congruence|].
          apply (untouched_through_map (set_up (temp_name 0) true)).
          - apply set_up_temp0_keeps_eth.
          - apply name_set_up.
          - exact Hu. }
        split; [exact Hr|]. cbn [app forallb collides negb andb]. exact Hc.
Qed.

Lemma assigned_earlier_kept (a b : string) (ns fs : list string) (i M : nat) :
  Str.contains "eth" a = true ->
  assigned_earlier (a :: ns) (b :: fs) (S i) M <-> assigned_earlier ns fs i M.
Proof.
  intros Ha. unfold assigned_earlier. split.
  - intros (j & n & Hj & Hn & Hc & Hf). destruct j as [|j]; simpl in *.
    + inversion Hn; subst. congruence.
    + exists j, n. repeat split; auto. lia.
  - intros (j & n & Hj & Hn & Hc & Hf). exists (S j), n. repeat split; auto. lia.
Qed.

Lemma assigned_earlier_new (a : string) (k : nat) (ns fs : list string) (i M : nat) :
  Str.contains "eth" a = false ->
  assigned_earlier (a :: ns) (eth_name k :: fs) (S i) M <->
  M = k \/ assigned_earlier ns fs i M.
Proof.
  intros Ha. unfold assigned_earlier. split.
  - intros (j & n & Hj & Hn & Hc & Hf). destruct j as [|j]; cbn [nth_error] in *.
    + left. assert (E : eth_name k = eth_name M) by congruence.
      apply eth_name_inj in E. now symmetry.
    + right. exists j, n. repeat split; auto. lia.
  - intros [ -> |(j & n & Hj & Hn & Hc & Hf)].
    + exists 0, a. repeat split; auto. lia.
    + exists (S j), n. repeat split; auto. lia.
Qed.

(** The names given by the fallback pass: a name with "eth" is kept; any
    other is replaced by the lowest [eth<N>] that is neither a key of the
    snapshot nor given to an interface earlier in the pass. *)
Lemma fallback_names_lowest (K ns : list string) :
  forall (idx : nat) (prior : nat -> Prop),
    (forall M, M < idx -> In (eth_name M) K \/ prior M) ->
    (forall M, prior M -> M < idx) ->
    forall i n, nth_error ns i = Some n ->
      (Str.contains "eth" n = true -> nth_error (fallback_names K idx ns) i = Some n) /\
      (Str.contains "eth" n = false ->
       exists N,
         nth_error (fallback_names K idx ns) i = Some (eth_name N) /\
         ~ In (eth_name N) K /\
         ~ (prior N \/ assigned_earlier ns (fallback_names K idx ns) i N) /\
         forall M, M < N ->
                   In (eth_name M) K \/ prior M \/
                   assigned_earlier ns (fallback_names K idx ns) i M).
Proof.
  induction ns as [|a ns IH]; intros idx prior Hlow Hprior i n Hi.
  - destruct i; discriminate.
  - cbn [fallback_names].
    set (k := next_free (List.length K) K idx).
    assert (Hk : idx <= k) by apply next_free_ge.
    assert (Hbelow : forall M, M < k -> In (eth_name M) K \/ prior M).
    { intros M HM. destruct (Nat.lt_ge_cases M idx) as [Hlt|Hge]; [now apply Hlow|].
      left. apply (next_free_skipped (List.length K) K idx). fold k. lia. }
    destruct i as [|i]; cbn [nth_error] in Hi.
    + inversion Hi; subst a. destruct (Str.contains "eth" n) eqn:Hn.
      * split; [reflexivity|discriminate].
      * split; [discriminate|]. intros _. exists k. split; [reflexivity|].
        split; [apply next_free_not_taken|]. split.
        -- intros [Hp|(j & _ & Hj & _)]; [apply Hprior in Hp|]; lia.
        -- intros M HM. destruct (Hbelow M HM); auto.
    + destruct (Str.contains "eth" a) eqn:Ha.
      * destruct (IH idx prior Hlow Hprior i n Hi) as [Hkeep Hnew]. split.
        -- exact Hkeep.
        -- intros Hn. destruct (Hnew Hn) as (N & HN & HK & Hnot & Hmin).
           exists N. split; [exact HN|]. split; [exact HK|]. split.
           ++ rewrite assigned_earlier_kept by exact Ha. exact Hnot.
           ++ intros M HM. rewrite assigned_earlier_kept by exact Ha. now apply Hmin.
      * destruct (IH (S k) (fun M => prior M \/ M = k)) with (i := i) (n := n)
          as [Hkeep Hnew].
        -- intros M HM. destruct (Nat.eq_dec M k) as [->|Hne]; [auto|].
           destruct (Hbelow M); auto. lia.
        -- intros M [Hp| ->]; [apply Hprior in Hp|]; lia.
        -- exact Hi.
        -- split; [exact Hkeep|].
           intros Hn. destruct (Hnew Hn) as (N & HN & HK & Hnot & Hmin).
           exists N. split; [exact HN|]. split; [exact HK|]. split.
           ++ rewrite assigned_earlier_new by exact Ha. tauto.
           ++ intros M HM. rewrite assigned_earlier_new by exact Ha.
              destruct (Hmin M HM) as [H|[[H|H]|H]]; auto.
Qed.

Lemma forall2_nth_error {A B} (R : A -> B -> Prop) (l : list A) (l' : list B) :
  Forall2 R l l' ->
  forall i x, nth_error l i = Some x -> exists x', nth_error l' i = Some x' /\ R x x'.
Proof.
  induction 1 as [|a b l l' Hab _ IH]; intros i x Hi.
  - destruct i; discriminate.
  - destruct i as [|i]; simpl in *.
    + inversion Hi; subst. eauto.
    + now apply IH.
Qed.

Lemma items_match (t : list link) :
  Forall2 (fun f x => fst f = name x /\ ifname (snd f) = name x) (map item_of t) t.
Proof.
  induction t as [|l t IH]; simpl; constructor; auto.
Qed.

(** The fallback pass on a fresh enumeration of a table with distinct
    names. *)
Lemma fallback_pass_effect (t : list link) :
  NoDup (names t) ->
  exists t',
    table (fallback_pass (interface_dict t) t) = t' /\
    names t' = fallback_names (names t) 0 (names t) /\
    addresses t' = addresses t /\
    Forall2 (fun x x' => Str.contains "eth" (name x) = true -> x' = x) t t' /\
    (exists idx, res (fallback_pass (interface_dict t) t) = Ok idx) /\
    forallb (fun e => negb (collides e))
            (trace (fallback_pass (interface_dict t) t)) = true.
Proof.
  intros Hnd. unfold fallback_pass.
  rewrite (interface_dict_items t Hnd).
  destruct (fallback_loop (map item_of t) (map item_of t) t [] 0)
    as (t' & Ht & Hn & Hu & Hr & Hc).
  - apply items_match.
  - exact Hnd.
  - rewrite keys_items. apply incl_refl.
  - intros x [].
  - intros x [].
  - change ([] ++ t) with t in *. change ([] ++ t') with t' in *.
    exists t'. rewrite keys_items in Hn.
    repeat split; auto.
    rewrite <- Ht. apply sound_addresses.
    apply sound_for_fold. intros. apply sound_fallback_entry.
Qed.

(** C7: in the fallback pass, run on a fresh enumeration of a table with
    distinct names, an interface whose name holds "eth" is left as it is,
    and every other interface ends the pass named [eth<N>], with its
    address, where [N] is the lowest number whose name is neither held by
    an interface of the enumeration nor given to an interface earlier in
    the pass. *)
Theorem fallback_pass_assigns_lowest_free (t : list link) :
  NoDup (names t) ->
  (exists idx, res (fallback_pass (interface_dict t) t) = Ok idx) /\
  forall i l,
    nth_error t i = Some l ->
    (Str.contains "eth" (name l) = true ->
     nth_error (table (fallback_pass (interface_dict t) t)) i = Some l) /\
    (Str.contains "eth" (name l) = false ->
     exists N l',
       nth_error (table (fallback_pass (interface_dict t) t)) i = Some l' /\
       name l' = eth_name N /\
       address l' = address l /\
       ~ In (eth_name N) (names t) /\
       ~ assigned_earlier (names t)
           (names (table (fallback_pass (interface_dict t) t))) i N /\
       forall M, M < N ->
                 In (eth_name M) (names t) \/
                 assigned_earlier (names t)
                   (names (table (fallback_pass (interface_dict t) t))) i M).
Proof.
  intros Hnd.
  destruct (fallback_pass_effect t Hnd) as (t' & Ht & Hn & Ha & Hu & Hr & _).
  split; [exact Hr|]. intros i l Hi. rewrite Ht.
  destruct (forall2_nth_error _ _ _ Hu i l Hi) as (l' & Hi' & Hkeep).
  assert (Hni : nth_error (names t) i = Some (name l)) by now apply map_nth_error.
  destruct (fallback_names_lowest (names t) (names t) 0 (fun _ => False))
    with (i := i) (n := name l) as [_ Hnew]; [lia|tauto|exact Hni|].
  split.
  - intros Hc. rewrite Hi'. f_equal. now apply Hkeep.
  - intros Hc. destruct (Hnew Hc) as (N & HN & HK & Hnot & Hmin).
    rewrite <- Hn in HN, Hnot, Hmin.
    exists N, l'. split; [exact Hi'|]. split.
    + apply (map_nth_error name) in Hi'. fold (names t') in Hi'. congruence.
    + split.
      * apply (map_nth_error address) in Hi'. apply (map_nth_error address) in Hi.
        fold (addresses t') in Hi'. fold (addresses t) in Hi. congruence.
      * split; [exact HK|]. split; [tauto|].
        intros M HM. destruct (Hmin M HM) as [H|[[]|H]]; auto.
Qed.

Lemma fallback_pass_assigns_lowest_free_witness :
  exists N l',
    nth_error
      (table (fallback_pass
                (interface_dict [Link "eth0" "aa:bb:cc:dd:ee:01" false;
                                 Link "temp1" "aa:bb:cc:dd:ee:02" true])
                [Link "eth0" "aa:bb:cc:dd:ee:01" false;
                 Link "temp1" "aa:bb:cc:dd:ee:02" true])) 1 = Some l' /\
    name l' = eth_name N /\
    address l' = "aa:bb:cc:dd:ee:02" /\
    ~ In (eth_name N) ["eth0"; "temp1"] /\
    ~ assigned_earlier ["eth0"; "temp1"]
        (names (table (fallback_pass
                         (interface_dict [Link "eth0" "aa:bb:cc:dd:ee:01" false;
                                          Link "temp1" "aa:bb:cc:dd:ee:02" true])
                         [Link "eth0" "aa:bb:cc:dd:ee:01" false;
                          Link "temp1" "aa:bb:cc:dd:ee:02" true]))) 1 N /\
    forall M, M < N ->
              In (eth_name M) ["eth0"; "temp1"] \/
              assigned_earlier ["eth0"; "temp1"]
                (names (table (fallback_pass
                                 (interface_dict [Link "eth0" "aa:bb:cc:dd:ee:01" false;
                                                  Link "temp1" "aa:bb:cc:dd:ee:02" true])
                                 [Link "eth0" "aa:bb:cc:dd:ee:01" false;
                                  Link "temp1" "aa:bb:cc:dd:ee:02" true]))) 1 M.
Proof.
  assert (Hnd : NoDup (names [Link "eth0" "aa:bb:cc:dd:ee:01" false;
                              Link "temp1" "aa:bb:cc:dd:ee:02" true])).
  { repeat constructor; simpl; intuition discriminate. }
  exact (proj2 (proj2 (fallback_pass_assigns_lowest_free _ Hnd) 1
                  (Link "temp1" "aa:bb:cc:dd:ee:02" true) eq_refl) eq_refl).
Defined.

(** ** Names stay distinct *)

(** C3, as stated, fails: the match pass does direct a rename at a name
    that another interface holds.  With two records that carry the same
    DEVICE for two interfaces, the second rename asks for [eth0] while the
    first interface has it; the link facility refuses it. *)
Lemma match_pass_renames_to_a_held_name :
  let dir :=
    [("ifcfg-eth0", Some ("DEVICE=eth0" ++ newline ++ "HWADDR=AA:BB:CC:DD:EE:01")%string);
     ("ifcfg-eth1", Some ("DEVICE=eth0" ++ newline ++ "HWADDR=AA:BB:CC:DD:EE:02")%string)] in
  let t := [Link "temp0" "aa:bb:cc:dd:ee:01" true; Link "temp1" "aa:bb:cc:dd:ee:02" true] in
  exists configs,
    res (get_config dir t) = Ok configs /\
    trace (match_pass (interface_dict t) configs t) =
      [Ip (SetDown "temp0") Done; Ip (SetName "temp0" "eth0") Done;
       Ip (SetUp "temp0") NoSuchDevice;
       Ip (SetDown "temp1") Done; Ip (SetName "temp1" "eth0") NameInUse;
       Ip (SetUp "temp0") NoSuchDevice] /\
    existsb collides (trace (main dir t)) = true.
Proof.
  cbv zeta. eexists. split; [vm_compute; reflexivity|].
  split; vm_compute; reflexivity.
Qed.

(** C3, amended: from a table with distinct names, every table that a run
    of [main] goes through, command after command, has distinct names
    (the link facility refuses a name that is held), and no rename of a
    fallback pass that starts from such a table is directed at a name
    that an interface holds. *)
Theorem names_stay_distinct (dir : list (string * option string)) (t : list link) :
  NoDup (names t) ->
  table (main dir t) = replay (commands (trace (main dir t))) t /\
  (forall n, NoDup (names (replay (firstn n (commands (trace (main dir t)))) t))) /\
  forallb (fun e => negb (collides e)) (trace (fallback_pass (interface_dict t) t)) = true.
Proof.
  intros Hnd. split; [apply sound_main|]. split.
  - intros n. now apply replay_nodup.
  - now destruct (fallback_pass_effect t Hnd) as (t' & _ & _ & _ & _ & _ & Hc).
Qed.

Lemma names_stay_distinct_witness :
  table (main [] [Link "ens3" "aa:bb:cc:dd:ee:01" true; Link "ens4" "aa:bb:cc:dd:ee:02" true]) =
    replay (commands (trace (main [] [Link "ens3" "aa:bb:cc:dd:ee:01" true;
                                      Link "ens4" "aa:bb:cc:dd:ee:02" true])))
           [Link "ens3" "aa:bb:cc:dd:ee:01" true; Link "ens4" "aa:bb:cc:dd:ee:02" true] /\
  (forall n,
      NoDup (names (replay
                      (firstn n (commands (trace (main [] [Link "ens3" "aa:bb:cc:dd:ee:01" true;
                                                          Link "ens4" "aa:bb:cc:dd:ee:02" true]))))
                      [Link "ens3" "aa:bb:cc:dd:ee:01" true;
                       Link "ens4" "aa:bb:cc:dd:ee:02" true]))) /\
  forallb (fun e => negb (collides e))
          (trace (fallback_pass
                    (interface_dict [Link "ens3" "aa:bb:cc:dd:ee:01" true;
                                     Link "ens4" "aa:bb:cc:dd:ee:02" true])
                    [Link "ens3" "aa:bb:cc:dd:ee:01" true;
                     Link "ens4" "aa:bb:cc:dd:ee:02" true])) = true.
Proof.
  apply (names_stay_distinct []
           [Link "ens3" "aa:bb:cc:dd:ee:01" true; Link "ens4" "aa:bb:cc:dd:ee:02" true]).
  repeat constructor; simpl; intuition discriminate.
Defined.

(** ** Running the script twice *)

Lemma main_table (dir : list (string * option string)) (t : list link) :
  table (main dir t) =
    table (main_after_quarantine dir (table (quarantine_pass (interface_dict t) t))).
Proof.
  unfold main.
  rewrite (table_bind_ok _ _ t tt) by reflexivity. cbn [print table].
  rewrite (table_bind_ok _ _ t (interface_dict t)) by reflexivity.
  cbn [get_interface_dict table].
  rewrite (table_bind_ok _ _ t tt) by apply quarantine_pass_ok. reflexivity.
Qed.

(** C8 (the code departs from it): the quarantine pass asks for
    [temp<idx>] without a look at the names in use, unlike the fallback
    pass, which steps over the names that are held (line 240).  When an
    interface holds the temporary name of one enumerated before it, the
    rename of the earlier interface is refused and it keeps its name,
    although [main] goes on to print that all interfaces were renamed.
    Here [eth7] survives the first run and is renamed by the second, so
    the second run ends with other names than the first. *)
Theorem second_run_differs :
  let t := [Link "eth7" "aa:bb:cc:dd:ee:01" true; Link "temp0" "aa:bb:cc:dd:ee:02" true] in
  quarantine_pass (interface_dict t) t =
    Run (Ok tt)
      [Link "eth7" "aa:bb:cc:dd:ee:01" false; Link "temp1" "aa:bb:cc:dd:ee:02" true]
      [Ip (SetDown "eth7") Done; Ip (SetName "eth7" "temp0") NameInUse;
       Ip (SetUp "temp0") Done;
       Ip (SetDown "temp0") Done; Ip (SetName "temp0" "temp1") Done;
       Ip (SetUp "temp1") Done] /\
  In (Print "Renamed all interfaces to temporary device names.") (trace (main [] t)) /\
  table (main [] t) =
    [Link "eth7" "aa:bb:cc:dd:ee:01" false; Link "eth0" "aa:bb:cc:dd:ee:02" false] /\
  ~ In "eth7" (names (table (main [] (table (main [] t))))) /\
  table (main [] (table (main [] t))) <> table (main [] t).
Proof.
  cbv zeta. split; [vm_compute; reflexivity|]. split.
  - vm_compute. do 7 right. left. reflexivity.
  - split; [vm_compute; reflexivity|]. split.
    + vm_compute. intros [H|[H|[]]]; discriminate.
    + vm_compute. discriminate.
Qed.

(** * Further properties of the script *)

(** ** Reading the report of [ip link show] *)

Lemma second_field_none {A} (l : list A) : nth_error l 1 = None <-> List.length l < 2.
Proof.
  rewrite nth_error_None. lia.
Qed.

Lemma fields_length (line : string) : List.length (fields line) = List.length (split_ws line).
Proof. unfold fields. apply length_map. Qed.

Lemma scan_line_skipped (idx : nat) (line : string) (st : scan_state) :
  idx < 2 -> scan_line idx line st = Scanned st.
Proof.
  intros H. unfold scan_line.
  destruct (Nat.ltb 1 idx) eqn:E; [|reflexivity].
  apply Nat.ltb_lt in E. lia.
Qed.

Lemma even_succ_false (idx : nat) : Nat.even idx = true -> Nat.even (S idx) = false.
Proof.
  intros H. rewrite Nat.even_succ, <- Nat.negb_even, H. reflexivity.
Qed.

Lemma even_succ_true (idx : nat) : Nat.even idx = false -> Nat.even (S idx) = true.
Proof.
  intros H. rewrite Nat.even_succ, <- Nat.negb_even, H. reflexivity.
Qed.

(** Past the loopback lines, and with [interface] bound before every
    address line, the loop ends well exactly when every line has a second
    field. *)
Lemma scan_from_outcome (lines : list string) :
  forall (idx : nat) (st : scan_state),
    1 < idx ->
    (Nat.even idx = false -> snd st <> None) ->
    (Forall (fun line => 2 <= List.length (split_ws line)) lines ->
     exists d, scan_from idx lines st = Scanned d) /\
    (Exists (fun line => List.length (split_ws line) < 2) lines ->
     scan_from idx lines st = ScanRaise IndexError).
Proof.
  induction lines as [|line lines IH]; intros idx st Hidx Hcur.
  - split; [intros _; simpl; eauto|intros H; inversion H].
  - cbn [scan_from]. unfold scan_line.
    assert (E1 : Nat.ltb 1 idx = true) by now apply Nat.ltb_lt.
    rewrite E1.
    destruct (nth_error (fields line) 1) as [tok|] eqn:Etok.
    + assert (Hlen : 2 <= List.length (split_ws line)).
      { rewrite <- fields_length.
        destruct (Nat.lt_ge_cases (List.length (fields line)) 2) as [H|H]; [|exact H].
        apply second_field_none in H. congruence. }
      destruct (Nat.even idx) eqn:Ev.
      * destruct (IH (S idx) (fst st, Some (Str.strip tok, Str.contains "LOWER_UP" line)))
          as [Hok Hbad]; [lia|intros _; discriminate|].
        split.
        -- intros HF. inversion HF; subst. now apply Hok.
        -- intros HE. inversion HE; subst; [lia|now apply Hbad].
      * destruct (snd st) as [[interface connection]|] eqn:Es;
          [|now exfalso; apply (Hcur eq_refl)].
        destruct (IH (S idx)
                    (Dict.set interface
                       (Iface (Str.strip (Str.upper tok)) connection interface) (fst st),
                     Some (interface, connection)))
          as [Hok Hbad]; [lia|intros H; rewrite (even_succ_true idx Ev) in H; discriminate|].
        split.
        -- intros HF. inversion HF; subst. now apply Hok.
        -- intros HE. inversion HE; subst; [lia|now apply Hbad].
    + assert (Hlen : List.length (split_ws line) < 2).
      { rewrite <- fields_length. now apply second_field_none. }
      split.
      * intros HF. inversion HF; subst. lia.
      * intros _. now destruct (Nat.even idx).
Qed.

(** X1: [get_interface_dict] never looks at the first two lines of the
    report; it builds a dict exactly when every later line has at least
    two fields, and raises [IndexError] as soon as one has fewer. *)
Theorem scan_report_outcome (lines : list string) :
  (Forall (fun line => 2 <= List.length (split_ws line)) (skipn 2 lines) ->
   exists d, scan_report lines = Scanned d) /\
  (Exists (fun line => List.length (split_ws line) < 2) (skipn 2 lines) ->
   scan_report lines = ScanRaise IndexError).
Proof.
  unfold scan_report.
  destruct lines as [|lo0 [|lo1 rest]].
  - split; [simpl; eauto|intros H; inversion H].
  - split; [simpl; eauto|intros H; inversion H].
  - cbn [skipn scan_from]. rewrite !scan_line_skipped by lia.
    apply scan_from_outcome; [lia|intros H; discriminate].
Qed.

Lemma scan_report_outcome_witness :
  (exists d,
      scan_report ["1: lo: <LOOPBACK,UP,LOWER_UP> mtu 65536";
                   "    link/loopback 00:00:00:00:00:00 brd 00:00:00:00:00:00";
                   "2: ens3: <BROADCAST,MULTICAST,UP,LOWER_UP> mtu 1500";
                   "    link/ether 52:54:00:ab:cd:01 brd ff:ff:ff:ff:ff:ff"] = Scanned d) /\
  scan_report ["1: lo: <LOOPBACK,UP,LOWER_UP> mtu 65536";
               "    link/loopback 00:00:00:00:00:00 brd 00:00:00:00:00:00";
               "2: ens3: <BROADCAST,MULTICAST,UP,LOWER_UP> mtu 1500";
               EmptyString] = ScanRaise IndexError.
Proof.
  split.
  - apply (proj1 (scan_report_outcome _)). cbn [skipn].
    repeat (apply Forall_cons; [apply Nat.leb_le; vm_compute; reflexivity|]).
    apply Forall_nil.
  - apply (proj2 (scan_report_outcome _)). cbn [skipn].
    apply Exists_cons_tl, Exists_cons_hd. apply Nat.ltb_lt. vm_compute. reflexivity.
Defined.

Lemma scan_pairs (dev_line addr_line : link -> string) (t : list link) :
  (forall l, In l t ->
             (exists tok, nth_error (fields (dev_line l)) 1 = Some tok /\
                          Str.strip tok = name l) /\
             Str.contains "LOWER_UP" (dev_line l) = up l /\
             (exists tok, nth_error (fields (addr_line l)) 1 = Some tok /\
                          Str.strip (Str.upper tok) = Str.upper (address l))) ->
  forall (idx : nat) (st : scan_state),
    1 < idx -> Nat.even idx = true ->
    scan_from idx (flat_map (fun l => [dev_line l; addr_line l]) t) st =
      Scanned
        (fold_left
           (fun interfaces l =>
              Dict.set (name l) (Iface (Str.upper (address l)) (up l) (name l)) interfaces)
           t (fst st)).
Proof.
  induction t as [|l t IH]; intros Hl idx st Hidx Hev.
  - reflexivity.
  - destruct (Hl l (or_introl eq_refl)) as ((tok & Htok & Hname) & Hup & (tok' & Htok' & Haddr)).
    cbn [flat_map Datatypes.app scan_from fold_left].
    assert (E1 : Nat.ltb 1 idx = true) by now apply Nat.ltb_lt.
    assert (E2 : Nat.ltb 1 (S idx) = true) by (apply Nat.ltb_lt; lia).
    unfold scan_line at 1. rewrite E1, Hev, Htok.
    unfold scan_line at 1. rewrite E2, (even_succ_false idx Hev), Htok'.
    cbn [fst snd]. rewrite Hname, Hup, Haddr.
    rewrite IH; [reflexivity| |lia|].
    + intros l' Hl'. apply Hl. now right.
    + cbn [Nat.even]. exact Hev.
Qed.

(** X2: on a report made of two loopback lines and, for every device of
    the table, a device line whose second field is the name (followed by
    colons) and an address line whose second field is the address,
    [get_interface_dict] builds the dict that has one entry per device:
    the address upper-cased, [connection] set when the device line holds
    LOWER_UP, a later device replacing an earlier one of the same name. *)
Theorem scan_report_of_table (lo0 lo1 : string) (dev_line addr_line : link -> string)
        (t : list link) :
  (forall l, In l t ->
             (exists tok, nth_error (fields (dev_line l)) 1 = Some tok /\
                          Str.strip tok = name l) /\
             Str.contains "LOWER_UP" (dev_line l) = up l /\
             (exists tok, nth_error (fields (addr_line l)) 1 = Some tok /\
                          Str.strip (Str.upper tok) = Str.upper (address l))) ->
  scan_report (report_of lo0 lo1 dev_line addr_line t) = Scanned (interface_dict t).
Proof.
  intros H. unfold scan_report, report_of. cbn [scan_from].
  rewrite !scan_line_skipped by lia.
  now rewrite (scan_pairs dev_line addr_line t H 2 ([], None)) by (reflexivity || lia).
Qed.

Lemma scan_report_of_table_witness :
  scan_report
    (report_of "1: lo: <LOOPBACK,UP,LOWER_UP> mtu 65536 qdisc noqueue"
               "    link/loopback 00:00:00:00:00:00 brd 00:00:00:00:00:00"
               sample_dev_line sample_addr_line
               [Link "ens3" "52:54:00:ab:cd:01" true; Link "ens4" "52:54:00:ab:cd:02" false]) =
  Scanned (interface_dict
             [Link "ens3" "52:54:00:ab:cd:01" true; Link "ens4" "52:54:00:ab:cd:02" false]).
Proof.
  apply (scan_report_of_table _ _ sample_dev_line sample_addr_line
           [Link "ens3" "52:54:00:ab:cd:01" true; Link "ens4" "52:54:00:ab:cd:02" false]).
  intros l [<-|[<-|[]]].
  - split; [exists "ens3"; split; vm_compute; reflexivity|].
    split; [vm_compute; reflexivity|].
    exists "52:54:00:ab:cd:01". split; vm_compute; reflexivity.
  - split; [exists "ens4"; split; vm_compute; reflexivity|].
    split; [vm_compute; reflexivity|].
    exists "52:54:00:ab:cd:02". split; vm_compute; reflexivity.
Defined.

(** *** Fields of a line *)

Lemma split_ws_blank (c : ascii) (rest : string) :
  Str.is_space c = true -> split_ws (String c rest) = split_ws rest.
Proof. intros H. cbn [split_ws]. now rewrite H. Qed.

Lemma split_ws_token (tok : string) (c : ascii) (rest : string) :
  tok <> EmptyString ->
  free_of Str.is_space tok = true ->
  Str.is_space c = true ->
  split_ws (tok ++ String c rest)%string = tok :: split_ws rest.
Proof.
  intros Hne Hfree Hc. induction tok as [|a r IH]; [congruence|].
  cbn [free_of] in Hfree. apply andb_prop in Hfree as [Ha Hr].
  apply negb_true_iff in Ha.
  cbn [append split_ws]. rewrite Ha.
  destruct r as [|b r'].
  - cbn [append]. rewrite Hc. now rewrite split_ws_blank.
  - cbn [append]. cbn [free_of] in Hr. apply andb_prop in Hr as [Hb Hr'].
    apply negb_true_iff in Hb. rewrite Hb.
    change (String b (r' ++ String c rest)%string)
      with (String b r' ++ String c rest)%string.
    rewrite IH; [reflexivity|discriminate|].
    cbn [free_of]. now rewrite Hb, Hr'.
Qed.

Lemma rstrip_trailing (p : ascii -> bool) (n : string) (c : ascii) :
  free_of p n = true -> p c = true ->
  Str.rstrip p (n ++ String c EmptyString)%string = n.
Proof.
  intros Hfree Hc. induction n as [|a r IH].
  - cbn. now rewrite Hc.
  - cbn [free_of] in Hfree. apply andb_prop in Hfree as [Ha Hr].
    apply negb_true_iff in Ha.
    cbn [append Str.rstrip]. rewrite (IH Hr).
    destruct r; [now rewrite Ha|reflexivity].
Qed.

Lemma rstrip_free (p : ascii -> bool) (n : string) :
  free_of p n = true -> Str.rstrip p n = n.
Proof.
  induction n as [|a r IH]; [reflexivity|].
  cbn [free_of]. intros H. apply andb_prop in H as [Ha Hr].
  apply negb_true_iff in Ha.
  cbn [Str.rstrip]. rewrite (IH Hr). destruct r; [now rewrite Ha|reflexivity].
Qed.

Lemma lstrip_free (p : ascii -> bool) (n : string) :
  free_of p n = true -> Str.lstrip p n = n.
Proof.
  destruct n as [|a r]; [reflexivity|].
  cbn [free_of]. intros H. apply andb_prop in H as [Ha _].
  apply negb_true_iff in Ha. cbn [Str.lstrip]. now rewrite Ha.
Qed.

Lemma strip_free (n : string) : free_of Str.is_space n = true -> Str.strip n = n.
Proof.
  intros H. unfold Str.strip. rewrite (lstrip_free _ _ H). now apply rstrip_free.
Qed.

Lemma upper_ascii_space (a : ascii) : Str.is_space (Str.upper_ascii a) = Str.is_space a.
Proof.
  destruct a as [[] [] [] [] [] [] [] []]; reflexivity.
Qed.

Lemma upper_free_of_space (s : string) :
  free_of Str.is_space s = true -> free_of Str.is_space (Str.upper s) = true.
Proof.
  induction s as [|a r IH]; [reflexivity|].
  cbn [free_of]. intros H. apply andb_prop in H as [Ha Hr].
  change (Str.upper (String a r)) with (String (Str.upper_ascii a) (Str.upper r)).
  cbn [free_of]. now rewrite upper_ascii_space, Ha, IH.
Qed.

(** X3: the fields that [get_interface_dict] takes from the report.  On a
    device line [<index> <name>: <rest>] the interface is the name,
    without the colon, and on an address line [<kind> <address> <rest>],
    indented or not, the stored address is the address upper-cased;
    index, name, kind and address being non-empty and free of blanks, the
    name free of colons and the address not ending in one. *)
Theorem report_fields (index nm kind addr rest rest' indent : string) :
  index <> EmptyString -> free_of Str.is_space index = true ->
  nm <> EmptyString -> free_of Str.is_space nm = true -> free_of colon nm = true ->
  kind <> EmptyString -> free_of Str.is_space kind = true ->
  addr <> EmptyString -> free_of Str.is_space addr = true ->
  Str.rstrip colon addr = addr ->
  free_of (fun a => negb (Str.is_space a)) indent = true ->
  option_map Str.strip
    (nth_error (fields (index ++ String " " ((nm ++ ":") ++ String " " rest))%string) 1)
    = Some nm /\
  option_map (fun tok => Str.strip (Str.upper tok))
    (nth_error (fields (indent ++ kind ++ String " " (addr ++ String " " rest'))%string) 1)
    = Some (Str.upper addr).
Proof.
  intros Hi Hif Hn Hnf Hnc Hk Hkf Ha Haf Har Hind.
  split.
  - unfold fields. rewrite split_ws_token by (auto; reflexivity).
    rewrite split_ws_token; [| | |reflexivity].
    + cbn [map nth_error option_map]. fold colon.
      rewrite (rstrip_trailing colon nm ":" Hnc eq_refl). now rewrite strip_free.
    + intros E. destruct nm; [congruence|discriminate].
    + clear - Hnf. induction nm as [|a r IH]; [reflexivity|].
      cbn [free_of] in Hnf. apply andb_prop in Hnf as [H1 H2].
      cbn [append free_of]. now rewrite H1, IH.
  - assert (Hskip : forall s, split_ws (indent ++ s)%string = split_ws s).
    { clear - Hind. induction indent as [|c r IH]; intros s; [reflexivity|].
      cbn [free_of] in Hind. apply andb_prop in Hind as [Hc Hr].
      rewrite negb_involutive in Hc.
      cbn [append]. rewrite split_ws_blank by exact Hc. now apply IH. }
    unfold fields. rewrite Hskip.
    rewrite split_ws_token by (auto; reflexivity).
    rewrite split_ws_token by (auto; reflexivity).
    cbn [map nth_error option_map]. fold colon. rewrite Har.
    f_equal. apply strip_free. now apply upper_free_of_space.
Qed.

Lemma report_fields_witness :
  option_map Str.strip
    (nth_error (fields ("2:" ++ String " " (("ens3" ++ ":") ++ String " " "<UP> mtu 1500"))%string) 1)
    = Some "ens3" /\
  option_map (fun tok => Str.strip (Str.upper tok))
    (nth_error (fields ("    " ++ "link/ether" ++ String " "
                          ("52:54:00:ab:cd:01" ++ String " " "brd ff:ff:ff:ff:ff:ff"))%string) 1)
    = Some (Str.upper "52:54:00:ab:cd:01").
Proof.
  apply (report_fields "2:" "ens3" "link/ether" "52:54:00:ab:cd:01"
           "<UP> mtu 1500" "brd ff:ff:ff:ff:ff:ff" "    "); try discriminate; reflexivity.
Defined.

(** ** Installation *)

Ltac install_cases env :=
  destruct env as [c o w r e]; unfold install; cbn [copy_ok open_ok write_ok reload_rc enable_rc];
  destruct c; cbn [negb];
  [destruct o; cbn [negb];
   [destruct w; cbn [negb];
    [destruct (Z.eqb r 0) eqn:Er; cbn [negb];
     [destruct (Z.eqb e 0) eqn:Ee; cbn [negb]| ]| ]| ]| ].

Lemma install_returns (file : string) (env : install_env) :
  fst (install file env) = false <->
  copy_ok env = true /\ open_ok env = true /\ write_ok env = true /\
  reload_rc env = 0%Z /\ enable_rc env = 0%Z.
Proof.
  install_cases env; cbn [fst];
    repeat match goal with
           | H : Z.eqb _ _ = true |- _ => apply Z.eqb_eq in H
           | H : Z.eqb _ _ = false |- _ => apply Z.eqb_neq in H
           end;
    (split;
     [intros H; try discriminate H; repeat split; assumption || reflexivity
     |intros (H1 & H2 & H3 & H4 & H5); try discriminate; try congruence; reflexivity]).
Qed.

(** X4: [install] reports success (returns [None]) exactly when the copy
    of the script, the opening and the writing of the unit file go
    through and both [systemctl] calls return 0. *)
Theorem install_succeeds_iff (file : string) (env : install_env) :
  fst (install file env) = false <->
  copy_ok env = true /\ open_ok env = true /\ write_ok env = true /\
  reload_rc env = 0%Z /\ enable_rc env = 0%Z.
Proof. apply install_returns. Qed.

(** X5: [install] goes step by step and stops at the first failure: the
    unit file is opened only after the script was copied, written only
    after it was opened, [systemctl] is called only after the unit was
    written, and [enable] only after [daemon-reload] returned 0.  The unit
    that is written starts the script from the path it was copied to. *)
Theorem install_steps_in_order (file : string) (env : install_env) :
  let evs := snd (install file env) in
  In (Copy file script_install_path) evs /\
  (forall p, In (OpenW p) evs -> copy_ok env = true /\ p = unit_install_path) /\
  (forall p text,
      In (Write p text) evs ->
      copy_ok env = true /\ open_ok env = true /\
      p = unit_install_path /\ text = INSTALL /\
      Str.contains ("ExecStart=" ++ script_install_path) text = true) /\
  (forall args,
      In (Systemctl args) evs ->
      copy_ok env = true /\ open_ok env = true /\ write_ok env = true) /\
  (In (Systemctl ["systemctl"; "enable"; "systemd_persistent_eth"]) evs ->
   reload_rc env = 0%Z).
Proof.
  assert (Hunit : Str.contains ("ExecStart=" ++ script_install_path) INSTALL = true)
    by (vm_compute; reflexivity).
  assert (Hacts : forall e l, In e l -> acts e = true -> In e (filter acts l)).
  { intros e l H1 H2. apply filter_In. now split. }
  install_cases env; cbn [snd];
    (split; [cbn [Datatypes.app In]; right; left; reflexivity|]);
    (split; [intros p H; apply Hacts in H; [|reflexivity];
             cbn [Datatypes.app filter acts In] in H;
             repeat (destruct H as [H|H]; try discriminate H);
             try contradiction; inversion H; auto|]);
    (split; [intros p text H; apply Hacts in H; [|reflexivity];
             cbn [Datatypes.app filter acts In] in H;
             repeat (destruct H as [H|H]; try discriminate H);
             try contradiction; injection H as <- <-; auto|]);
    (split; [intros args H; apply Hacts in H; [|reflexivity];
             cbn [Datatypes.app filter acts In] in H;
             repeat (destruct H as [H|H]; try discriminate H);
             try contradiction; auto|]);
    intros H; apply Hacts in H; try reflexivity;
    cbn [Datatypes.app filter acts In] in H;
    repeat (destruct H as [H|H]; try discriminate H); try contradiction;
    try (apply Z.eqb_eq; assumption).
Qed.

(** X6: the renaming core is run when [-i] is not given, or when it is
    given and the installation succeeded; a failed installation ends the
    script before [main], with no [ip] command at all. *)
Theorem script_runs_main_iff (args_install : bool) (file : string) (env : install_env)
        (dir : list (string * option string)) (t : list link) :
  (snd (script args_install file env dir t) = Some (main dir t) <->
   args_install = false \/
   (copy_ok env = true /\ open_ok env = true /\ write_ok env = true /\
    reload_rc env = 0%Z /\ enable_rc env = 0%Z)) /\
  (snd (script args_install file env dir t) = None <->
   args_install = true /\ fst (install file env) = true) /\
  (args_install = false -> fst (script args_install file env dir t) = [Stdout "version: 0.1"]).
Proof.
  pose proof (install_returns file env) as Hok.
  unfold script. destruct args_install.
  - destruct (install file env) as [ret evs]. cbn [fst] in Hok.
    destruct ret; cbn [snd fst].
    + split; [|split]; [split| |discriminate].
      * discriminate.
      * intros [H|H]; [discriminate|]. apply Hok in H. discriminate.
      * tauto.
    + split; [|split]; [split| |discriminate].
      * intros _. right. now apply Hok.
      * reflexivity.
      * split; [discriminate|]. intros [_ H]. discriminate.
  - cbn [snd fst]. split; [|split].
    + split; auto.
    + split; [discriminate|]. intros [H _]. discriminate.
    + reflexivity.
Qed.

Lemma install_succeeds_iff_witness :
  fst (install "./systemd_persistent_eth.py" (InstallEnv true true true 0 0)) = false.
Proof.
  apply (proj2 (install_succeeds_iff "./systemd_persistent_eth.py"
                  (InstallEnv true true true 0 0))).
  repeat split.
Defined.

Lemma install_steps_in_order_witness :
  reload_rc (InstallEnv true true true 0 1) = 0%Z.
Proof.
  apply (proj2 (proj2 (proj2 (proj2
           (install_steps_in_order "./systemd_persistent_eth.py"
              (InstallEnv true true true 0 1)))))).
  vm_compute. tauto.
Defined.

Lemma script_runs_main_iff_witness :
  snd (script true "./systemd_persistent_eth.py" (InstallEnv true true true 0 0) []
         [Link "ens3" "52:54:00:ab:cd:01" true]) =
    Some (main [] [Link "ens3" "52:54:00:ab:cd:01" true]) /\
  fst (script false "./systemd_persistent_eth.py" (InstallEnv false false false 1 1) []
         [Link "ens3" "52:54:00:ab:cd:01" true]) = [Stdout "version: 0.1"].
Proof.
  split.
  - apply (proj2 (proj1 (script_runs_main_iff true "./systemd_persistent_eth.py"
                           (InstallEnv true true true 0 0) []
                           [Link "ens3" "52:54:00:ab:cd:01" true]))).
    right. repeat split.
  - apply (proj2 (proj2 (script_runs_main_iff false "./systemd_persistent_eth.py"
                           (InstallEnv false false false 1 1) []
                           [Link "ens3" "52:54:00:ab:cd:01" true]))).
    reflexivity.
Defined.

(** ** The test of the hardware address *)

Lemma prefix_append (v post : string) : prefix v (v ++ post)%string = true.
Proof.
  induction v as [|a v IH]; cbn [append prefix].
  - now destruct post.
  - destruct (ascii_dec a a) as [_|H]; [exact IH|congruence].
Qed.

Lemma prefix_split (v s : string) :
  prefix v s = true -> exists post, s = (v ++ post)%string.
Proof.
  revert s. induction v as [|a v IH]; intros s H.
  - exists s. reflexivity.
  - destruct s as [|b s]; [discriminate|]. cbn [prefix] in H.
    destruct (ascii_dec a b) as [->|_]; [|discriminate].
    destruct (IH s H) as (post & ->). exists post. reflexivity.
Qed.

Lemma contains_iff (v s : string) :
  Str.contains v s = true <-> exists pre post, s = (pre ++ v ++ post)%string.
Proof.
  split.
  - induction s as [|a s IH]; cbn [Str.contains]; intros H.
    + apply orb_prop in H as [H|H]; [|discriminate].
      apply prefix_split in H as (post & ->). exists EmptyString, post. reflexivity.
    + apply orb_prop in H as [H|H].
      * apply prefix_split in H as (post & ->). exists EmptyString, post. reflexivity.
      * destruct (IH H) as (pre & post & ->). exists (String a pre), post. reflexivity.
  - intros (pre & post & ->). induction pre as [|a pre IH].
    + cbn [append]. destruct (v ++ post)%string eqn:E.
      * cbn [Str.contains]. rewrite <- E, prefix_append. reflexivity.
      * cbn [Str.contains]. rewrite <- E, prefix_append. reflexivity.
    + cbn [append Str.contains]. rewrite IH. apply orb_true_r.
Qed.

(** X7: a record passes the test of [assign_interface] exactly when its
    HWADDR value, without the double quotes around it, occurs somewhere
    in the address of the interface; the whole address, a part of it and
    the empty string all pass. *)
Theorem hwaddr_in_iff_fragment (value : string) (interface : iface) :
  hwaddr_in value interface = true <->
  exists pre post,
    hwaddr interface = (pre ++ Str.strip_chars quotes value ++ post)%string.
Proof.
  unfold hwaddr_in. apply contains_iff.
Qed.

Lemma hwaddr_in_iff_fragment_witness :
  hwaddr_in "CC:DD" (Iface "AA:BB:CC:DD:EE:FF" true "temp0") = true.
Proof.
  apply (proj2 (hwaddr_in_iff_fragment "CC:DD" (Iface "AA:BB:CC:DD:EE:FF" true "temp0"))).
  exists "AA:BB:", ":EE:FF". reflexivity.
Defined.

(** ** The match pass, record by record *)

Lemma assign_entry_run (interface : iface) (named : Z) (config : dict string)
      (value : string) (t : list link) :
  Dict.get "HWADDR" config = Some value ->
  res (assign_entry interface named config t) =
    Ok (named + (if applies interface config then 1 else 0))%Z /\
  commands (trace (assign_entry interface named config t)) =
    (if applies interface config then renames_of interface config else []) /\
  (applies interface config = false ->
   assign_entry interface named config t = Run (Ok named) t []).
Proof.
  intros Hget. unfold assign_entry, applies, renames_of, target_of. rewrite Hget.
  destruct (hwaddr_in value interface); cbn [andb].
  - destruct (Dict.get "DEVICE" config) as [device|].
    + destruct (link_name_change_commands 0 (ifname interface)
                  (Some (Str.strip_chars quotes (Str.lower device))) t) as [Hr Hc].
      rewrite (res_bind_ok _ _ t tt Hr), (trace_bind_ok _ _ t tt Hr).
      cbn [ret res trace]. rewrite app_nil_r.
      split; [reflexivity|]. split; [exact Hc|discriminate].
    + destruct (Dict.get "NAME" config) as [nm|].
      * destruct (link_name_change_commands 0 (ifname interface)
                    (Some (Str.strip_chars quotes (Str.lower nm))) t) as [Hr Hc].
        rewrite (res_bind_ok _ _ t tt Hr), (trace_bind_ok _ _ t tt Hr).
        cbn [ret res trace]. rewrite app_nil_r.
        split; [reflexivity|]. split; [exact Hc|discriminate].
      * cbn [ret res trace]. rewrite Z.add_0_r. repeat split.
  - cbn [ret res trace]. rewrite Z.add_0_r. repeat split.
Qed.

Lemma assign_from (interface : iface) (configs : dict (dict string)) :
  (forall f, In f configs -> Dict.get "HWADDR" (snd f) <> None) ->
  forall (named : Z) (t : list link),
    res (for_fold configs named
           (fun named f => assign_entry interface named (snd f)) t) =
      Ok (named + Z.of_nat (List.length
                              (filter (fun f => applies interface (snd f)) configs)))%Z /\
    commands (trace (for_fold configs named
                       (fun named f => assign_entry interface named (snd f)) t)) =
      flat_map (fun f => renames_of interface (snd f))
               (filter (fun f => applies interface (snd f)) configs).
Proof.
  induction configs as [|f configs IH]; intros Hall named t.
  - cbn. rewrite Z.add_0_r. split; reflexivity.
  - assert (Hf : Dict.get "HWADDR" (snd f) <> None) by (apply Hall; now left).
    destruct (Dict.get "HWADDR" (snd f)) as [value|] eqn:Hv; [|congruence].
    destruct (assign_entry_run interface named (snd f) value t Hv) as (Hr & Hc & _).
    cbn [for_fold filter].
    rewrite (res_bind_ok _ _ t _ Hr), (trace_bind_ok _ _ t _ Hr), commands_app, Hc.
    destruct (IH (fun g Hg => Hall g (or_intror Hg))
                (named + (if applies interface (snd f) then 1 else 0))%Z
                (table (assign_entry interface named (snd f) t))) as [IHr IHc].
    rewrite IHr, IHc.
    destruct (applies interface (snd f)); cbn [List.length flat_map Datatypes.app].
    + split; [f_equal; lia|reflexivity].
    + split; [f_equal; lia|reflexivity].
Qed.

(** X8: when every record has an HWADDR value, [assign_interface] never
    raises; it returns the number of records that pass the test and name
    a target, and runs, record after record, the down, rename, up
    commands of these records and no other command, always on the name
    under which the interface was enumerated. *)
Theorem assign_interface_counts (interface : iface) (configs : dict (dict string))
        (t : list link) :
  (forall f, In f configs -> Dict.get "HWADDR" (snd f) <> None) ->
  res (assign_interface interface configs t) =
    Ok (Z.of_nat (List.length (filter (fun f => applies interface (snd f)) configs))) /\
  commands (trace (assign_interface interface configs t)) =
    flat_map (fun f => renames_of interface (snd f))
             (filter (fun f => applies interface (snd f)) configs).
Proof.
  intros Hall. unfold assign_interface.
  destruct (assign_from interface configs Hall 0%Z t) as [Hr Hc].
  rewrite Hr, Hc. split; reflexivity.
Qed.

Lemma assign_interface_counts_witness :
  res (assign_interface (Iface "AA:BB:CC:DD:EE:01" true "temp0")
         [("a", [("HWADDR", "AA:BB:CC:DD:EE:01"); ("DEVICE", "ETH0")]);
          ("b", [("HWADDR", "AA:BB:CC:DD:EE:02"); ("DEVICE", "ETH1")])]
         [Link "temp0" "aa:bb:cc:dd:ee:01" true]) =
    Ok (Z.of_nat (List.length
                    (filter (fun f => applies (Iface "AA:BB:CC:DD:EE:01" true "temp0") (snd f))
                       [("a", [("HWADDR", "AA:BB:CC:DD:EE:01"); ("DEVICE", "ETH0")]);
                        ("b", [("HWADDR", "AA:BB:CC:DD:EE:02"); ("DEVICE", "ETH1")])]))).
Proof.
  apply (assign_interface_counts (Iface "AA:BB:CC:DD:EE:01" true "temp0")
           [("a", [("HWADDR", "AA:BB:CC:DD:EE:01"); ("DEVICE", "ETH0")]);
            ("b", [("HWADDR", "AA:BB:CC:DD:EE:02"); ("DEVICE", "ETH1")])]
           [Link "temp0" "aa:bb:cc:dd:ee:01" true]).
  intros f [<-|[<-|[]]]; discriminate.
Defined.

Lemma assign_stops_at (interface : iface) (pre : dict (dict string))
      (f : string * dict string) (post : dict (dict string)) :
  (forall g, In g pre -> Dict.get "HWADDR" (snd g) <> None) ->
  Dict.get "HWADDR" (snd f) = None ->
  forall (named : Z) (t : list link),
    res (for_fold (pre ++ f :: post) named
           (fun named g => assign_entry interface named (snd g)) t) =
      Raise (KeyError "HWADDR") /\
    commands (trace (for_fold (pre ++ f :: post) named
                       (fun named g => assign_entry interface named (snd g)) t)) =
      flat_map (fun g => renames_of interface (snd g))
               (filter (fun g => applies interface (snd g)) pre).
Proof.
  intros Hpre Hnone. induction pre as [|g pre IH]; intros named t.
  - cbn [Datatypes.app for_fold filter flat_map].
    assert (Hraise : res (assign_entry interface named (snd f) t) = Raise (KeyError "HWADDR")).
    { unfold assign_entry. now rewrite Hnone. }
    rewrite (bind_raise _ _ t _ Hraise). cbn [res trace].
    unfold assign_entry. rewrite Hnone. split; reflexivity.
  - assert (Hg : Dict.get "HWADDR" (snd g) <> None) by (apply Hpre; now left).
    destruct (Dict.get "HWADDR" (snd g)) as [value|] eqn:Hv; [|congruence].
    destruct (assign_entry_run interface named (snd g) value t Hv) as (Hr & Hc & _).
    cbn [Datatypes.app for_fold filter].
    rewrite (res_bind_ok _ _ t _ Hr), (trace_bind_ok _ _ t _ Hr), commands_app, Hc.
    destruct (IH (fun h Hh => Hpre h (or_intror Hh))
                (named + (if applies interface (snd g) then 1 else 0))%Z
                (table (assign_entry interface named (snd g) t))) as [IHr IHc].
    rewrite IHr, IHc.
    destruct (applies interface (snd g)); cbn [flat_map Datatypes.app]; split; reflexivity.
Qed.

(** X9: when a record of the catalog has no HWADDR value, every call of
    [assign_interface] raises [KeyError] at the first such record; the
    records before it have been applied by then (their commands are
    run), those after it are not looked at. *)
Theorem assign_interface_stops_at_missing_hwaddr
        (interface : iface) (pre : dict (dict string))
        (f : string * dict string) (post : dict (dict string)) (t : list link) :
  (forall g, In g pre -> Dict.get "HWADDR" (snd g) <> None) ->
  Dict.get "HWADDR" (snd f) = None ->
  res (assign_interface interface (pre ++ f :: post) t) = Raise (KeyError "HWADDR") /\
  commands (trace (assign_interface interface (pre ++ f :: post) t)) =
    flat_map (fun g => renames_of interface (snd g))
             (filter (fun g => applies interface (snd g)) pre).
Proof.
  intros Hpre Hnone. unfold assign_interface.
  apply (assign_stops_at interface pre f post Hpre Hnone).
Qed.

Lemma assign_interface_stops_at_missing_hwaddr_witness :
  res (assign_interface (Iface "AA:BB:CC:DD:EE:01" true "temp0")
         ([("a", [("HWADDR", "AA:BB:CC:DD:EE:01"); ("DEVICE", "ETH0")])]
            ++ ("b", [("DEVICE", "ETH1")]) :: [])
         [Link "temp0" "aa:bb:cc:dd:ee:01" true]) = Raise (KeyError "HWADDR") /\
  commands (trace (assign_interface (Iface "AA:BB:CC:DD:EE:01" true "temp0")
                     ([("a", [("HWADDR", "AA:BB:CC:DD:EE:01"); ("DEVICE", "ETH0")])]
                        ++ ("b", [("DEVICE", "ETH1")]) :: [])
                     [Link "temp0" "aa:bb:cc:dd:ee:01" true])) =
    flat_map (fun g => renames_of (Iface "AA:BB:CC:DD:EE:01" true "temp0") (snd g))
             (filter (fun g => applies (Iface "AA:BB:CC:DD:EE:01" true "temp0") (snd g))
                     [("a", [("HWADDR", "AA:BB:CC:DD:EE:01"); ("DEVICE", "ETH0")])]).
Proof.
  apply (assign_interface_stops_at_missing_hwaddr
           (Iface "AA:BB:CC:DD:EE:01" true "temp0")
           [("a", [("HWADDR", "AA:BB:CC:DD:EE:01"); ("DEVICE", "ETH0")])]
           ("b", [("DEVICE", "ETH1")]) []
           [Link "temp0" "aa:bb:cc:dd:ee:01" true]).
  - intros g [<-|[]]. discriminate.
  - reflexivity.
Defined.

Lemma match_round (configs : dict (dict string)) (f : string * iface)
      (bound : option Z) (t : list link) :
  (forall g, In g configs -> Dict.get "HWADDR" (snd g) <> None) ->
  res ((success <- assign_interface (snd f) configs ;; ret (Some success)) t) =
    Ok (Some (Z.of_nat (List.length
                          (filter (fun g => applies (snd f) (snd g)) configs)))).
Proof.
  intros Hall. unfold assign_interface.
  destruct (assign_from (snd f) configs Hall 0%Z t) as [Hr _].
  rewrite (res_bind_ok _ _ t _ Hr). reflexivity.
Qed.

Lemma match_pass_from (configs : dict (dict string)) (f : string * iface)
      (its : dict iface) :
  (forall g, In g configs -> Dict.get "HWADDR" (snd g) <> None) ->
  forall (bound : option Z) (t : list link),
    res (for_fold (its ++ [f]) bound
           (fun _ h => success <- assign_interface (snd h) configs ;; ret (Some success)) t) =
      Ok (Some (Z.of_nat (List.length
                            (filter (fun g => applies (snd f) (snd g)) configs)))).
Proof.
  intros Hall. induction its as [|h its IH]; intros bound t.
  - cbn [Datatypes.app for_fold].
    rewrite (res_bind_ok _ _ t _ (match_round configs f bound t Hall)). reflexivity.
  - cbn [Datatypes.app for_fold].
    rewrite (res_bind_ok _ _ t _ (match_round configs h bound t Hall)). apply IH.
Qed.

(** X10: the value left in [success] by the loop over the interfaces is
    the count of the interface enumerated last, whatever the earlier
    interfaces matched; with no interface at all nothing is bound.  (All
    records having an HWADDR value.) *)
Theorem match_pass_keeps_last_count (configs : dict (dict string))
        (its : dict iface) (f : string * iface) (t : list link) :
  (forall g, In g configs -> Dict.get "HWADDR" (snd g) <> None) ->
  res (match_pass (its ++ [f]) configs t) =
    Ok (Some (Z.of_nat (List.length
                          (filter (fun g => applies (snd f) (snd g)) configs)))) /\
  res (match_pass [] configs t) = Ok None.
Proof.
  intros Hall. split; [|reflexivity].
  unfold match_pass. now apply match_pass_from.
Qed.

Lemma match_pass_keeps_last_count_witness :
  res (match_pass
         ([("temp0", Iface "AA:BB:CC:DD:EE:01" true "temp0")]
            ++ [("temp1", Iface "AA:BB:CC:DD:EE:02" true "temp1")])
         [("a", [("HWADDR", "AA:BB:CC:DD:EE:01"); ("DEVICE", "ETH0")])]
         [Link "temp0" "aa:bb:cc:dd:ee:01" true; Link "temp1" "aa:bb:cc:dd:ee:02" true]) =
    Ok (Some (Z.of_nat
                (List.length
                   (filter (fun g => applies (Iface "AA:BB:CC:DD:EE:02" true "temp1") (snd g))
                           [("a", [("HWADDR", "AA:BB:CC:DD:EE:01"); ("DEVICE", "ETH0")])])))) /\
  res (match_pass [] [("a", [("HWADDR", "AA:BB:CC:DD:EE:01"); ("DEVICE", "ETH0")])]
         [Link "temp0" "aa:bb:cc:dd:ee:01" true; Link "temp1" "aa:bb:cc:dd:ee:02" true]) =
    Ok None.
Proof.
  apply (match_pass_keeps_last_count
           [("a", [("HWADDR", "AA:BB:CC:DD:EE:01"); ("DEVICE", "ETH0")])]
           [("temp0", Iface "AA:BB:CC:DD:EE:01" true "temp0")]
           ("temp1", Iface "AA:BB:CC:DD:EE:02" true "temp1")
           [Link "temp0" "aa:bb:cc:dd:ee:01" true; Link "temp1" "aa:bb:cc:dd:ee:02" true]).
  intros g [<-|[]]. discriminate.
Defined.

Lemma link_name_change_renames (idx : nat) (entry : string) (dest : option string)
      (t : list link) :
  In entry (names t) ->
  target idx dest = entry \/ ~ In (target idx dest) (names t) ->
  names (table (link_name_change idx entry dest t)) =
    map (subst entry (target idx dest)) (names t).
Proof.
  intros Hin Hfree. rewrite (link_name_change_table idx entry dest t Hin Hfree).
  cbn [table]. now rewrite names_set_up, names_set_name, names_set_up.
Qed.

Lemma assign_inert (interface : iface) (configs : dict (dict string)) :
  (forall g, In g configs ->
             Dict.get "HWADDR" (snd g) <> None /\ applies interface (snd g) = false) ->
  forall (named : Z) (t : list link),
    for_fold configs named (fun named g => assign_entry interface named (snd g)) t =
      Run (Ok named) t [].
Proof.
  induction configs as [|g configs IH]; intros Hall named t; [reflexivity|].
  destruct (Hall g (or_introl eq_refl)) as [Hg Ha].
  destruct (Dict.get "HWADDR" (snd g)) as [value|] eqn:Hv; [|congruence].
  destruct (assign_entry_run interface named (snd g) value t Hv) as (_ & _ & Hrun).
  cbn [for_fold]. rewrite (bind_run_ok _ _ t t named [] (Hrun Ha)).
  rewrite IH by (intros h Hh; apply Hall; now right). reflexivity.
Qed.

Lemma assign_entry_applies_table (interface : iface) (named : Z) (config : dict string)
      (t : list link) :
  applies interface config = true ->
  res (assign_entry interface named config t) = Ok (named + 1)%Z /\
  table (assign_entry interface named config t) =
    table (link_name_change 0 (ifname interface) (target_of config) t).
Proof.
  unfold applies, assign_entry, target_of.
  destruct (Dict.get "HWADDR" config) as [value|]; [|discriminate].
  destruct (hwaddr_in value interface); [|discriminate]. cbn [andb].
  destruct (Dict.get "DEVICE" config) as [device|].
  - intros _.
    pose proof (proj1 (link_name_change_commands 0 (ifname interface)
                         (Some (Str.strip_chars quotes (Str.lower device))) t)) as Hr.
    rewrite (res_bind_ok _ _ t tt Hr), (table_bind_ok _ _ t tt Hr). split; reflexivity.
  - destruct (Dict.get "NAME" config) as [nm|]; [|discriminate]. intros _.
    pose proof (proj1 (link_name_change_commands 0 (ifname interface)
                         (Some (Str.strip_chars quotes (Str.lower nm))) t)) as Hr.
    rewrite (res_bind_ok _ _ t tt Hr), (table_bind_ok _ _ t tt Hr). split; reflexivity.
Qed.

(** X11: when exactly one record of the catalog applies to an interface
    (it passes the test and names a target) and the name it asks for is
    held by no other interface, [assign_interface] returns 1 and leaves
    the table with that interface under the new name and every other
    name and every address as before.  The name asked for is the target
    of the record, or [temp0] when the target is the empty string. *)
Theorem assign_interface_renames_match
        (interface : iface) (pre : dict (dict string))
        (f : string * dict string) (post : dict (dict string)) (t : list link) :
  (forall g, In g (pre ++ post) ->
             Dict.get "HWADDR" (snd g) <> None /\ applies interface (snd g) = false) ->
  applies interface (snd f) = true ->
  In (ifname interface) (names t) ->
  target 0 (target_of (snd f)) = ifname interface \/
  ~ In (target 0 (target_of (snd f))) (names t) ->
  res (assign_interface interface (pre ++ f :: post) t) = Ok 1%Z /\
  names (table (assign_interface interface (pre ++ f :: post) t)) =
    map (subst (ifname interface) (target 0 (target_of (snd f)))) (names t) /\
  addresses (table (assign_interface interface (pre ++ f :: post) t)) = addresses t.
Proof.
  intros Hinert Happ Hin Hfree.
  assert (Hpre : forall g, In g pre ->
                           Dict.get "HWADDR" (snd g) <> None /\
                           applies interface (snd g) = false).
  { intros g Hg. apply Hinert. apply in_or_app. now left. }
  assert (Hpost : forall g, In g post ->
                            Dict.get "HWADDR" (snd g) <> None /\
                            applies interface (snd g) = false).
  { intros g Hg. apply Hinert. apply in_or_app. now right. }
  assert (Hgen : forall named,
             for_fold (pre ++ f :: post) named
               (fun named g => assign_entry interface named (snd g)) t =
             Run (Ok (named + 1)%Z)
                 (table (link_name_change 0 (ifname interface) (target_of (snd f)) t))
                 (trace (assign_entry interface named (snd f) t))).
  { revert Hpre. clear Hinert. induction pre as [|g pre IH]; intros Hpre named.
    - destruct (assign_entry_applies_table interface named (snd f) t Happ) as [Hr Ht].
      cbn [Datatypes.app for_fold].
      rewrite (run_eta (bind _ _ t)).
      rewrite (res_bind_ok _ _ t _ Hr), (table_bind_ok _ _ t _ Hr),
        (trace_bind_ok _ _ t _ Hr).
      rewrite (assign_inert interface post Hpost). cbn [res table trace].
      now rewrite Ht, app_nil_r.
    - destruct (Hpre g (or_introl eq_refl)) as [Hg Ha].
      destruct (Dict.get "HWADDR" (snd g)) as [value|] eqn:Hv; [|congruence].
      destruct (assign_entry_run interface named (snd g) value t Hv) as (_ & _ & Hstay).
      cbn [Datatypes.app for_fold].
      rewrite (bind_run_ok _ _ t t named [] (Hstay Ha)).
      cbn [Datatypes.app]. rewrite <- run_eta.
      apply IH. intros h Hh. apply Hpre. now right. }
  assert (Hrun : assign_interface interface (pre ++ f :: post) t =
                 Run (Ok 1%Z)
                     (table (link_name_change 0 (ifname interface) (target_of (snd f)) t))
                     (trace (assign_entry interface 0%Z (snd f) t))).
  { unfold assign_interface. apply Hgen. }
  rewrite Hrun. cbn [res table]. split; [reflexivity|]. split.
  - now apply link_name_change_renames.
  - apply sound_addresses, sound_link_name_change.
Qed.

Lemma assign_interface_renames_match_witness :
  res (assign_interface (Iface "AA:BB:CC:DD:EE:01" true "temp0")
         ([("a", [("HWADDR", "AA:BB:CC:DD:EE:02"); ("DEVICE", "ETH1")])]
            ++ ("b", [("HWADDR", "AA:BB:CC:DD:EE:01"); ("DEVICE", "ETH0")]) :: [])
         [Link "temp0" "aa:bb:cc:dd:ee:01" true; Link "temp1" "aa:bb:cc:dd:ee:02" true]) =
    Ok 1%Z /\
  names (table (assign_interface (Iface "AA:BB:CC:DD:EE:01" true "temp0")
                  ([("a", [("HWADDR", "AA:BB:CC:DD:EE:02"); ("DEVICE", "ETH1")])]
                     ++ ("b", [("HWADDR", "AA:BB:CC:DD:EE:01"); ("DEVICE", "ETH0")]) :: [])
                  [Link "temp0" "aa:bb:cc:dd:ee:01" true;
                   Link "temp1" "aa:bb:cc:dd:ee:02" true])) =
    map (subst "temp0"
           (target 0 (target_of [("HWADDR", "AA:BB:CC:DD:EE:01"); ("DEVICE", "ETH0")])))
        ["temp0"; "temp1"] /\
  addresses (table (assign_interface (Iface "AA:BB:CC:DD:EE:01" true "temp0")
                      ([("a", [("HWADDR", "AA:BB:CC:DD:EE:02"); ("DEVICE", "ETH1")])]
                         ++ ("b", [("HWADDR", "AA:BB:CC:DD:EE:01"); ("DEVICE", "ETH0")]) :: [])
                      [Link "temp0" "aa:bb:cc:dd:ee:01" true;
                       Link "temp1" "aa:bb:cc:dd:ee:02" true])) =
    ["aa:bb:cc:dd:ee:01"; "aa:bb:cc:dd:ee:02"].
Proof.
  apply (assign_interface_renames_match
           (Iface "AA:BB:CC:DD:EE:01" true "temp0")
           [("a", [("HWADDR", "AA:BB:CC:DD:EE:02"); ("DEVICE", "ETH1")])]
           ("b", [("HWADDR", "AA:BB:CC:DD:EE:01"); ("DEVICE", "ETH0")]) []
           [Link "temp0" "aa:bb:cc:dd:ee:01" true; Link "temp1" "aa:bb:cc:dd:ee:02" true]).
  - intros g [<-|[]]. split; [discriminate|reflexivity].
  - reflexivity.
  - left. reflexivity.
  - right. vm_compute. intuition discriminate.
Defined.

(** ** Loading the configuration files *)

Lemma get_set (V : Type) (k k' : string) (v : V) (d : dict V) :
  Dict.get k (Dict.set k' v d) = if String.eqb k' k then Some v else Dict.get k d.
Proof.
  induction d as [|[k0 v0] d IH]; cbn [Dict.set Dict.get].
  - reflexivity.
  - destruct (String.eqb k0 k') eqn:E0.
    + apply String.eqb_eq in E0. subst k0. cbn [Dict.get].
      now destruct (String.eqb k' k).
    + cbn [Dict.get]. destruct (String.eqb k0 k) eqn:E1; [|exact IH].
      destruct (String.eqb k' k) eqn:E2; [|reflexivity].
      apply String.eqb_eq in E1, E2. subst. rewrite String.eqb_refl in E0. discriminate.
Qed.

Lemma read_all_ok (l : list (string * option string)) :
  (forall f, In f l -> Str.contains ":" (fst f) = false -> snd f <> None) ->
  forall (files : dict string) (t : list link),
  exists files',
    for_fold l files
      (fun files f =>
         let (entry, content) := (f : string * option string) in
         if Str.contains ":" entry then ret files
         else match content with
              | None => raise (IOError entry)
              | Some text => ret (Dict.set entry text files)
              end) t = Run (Ok files') t [] /\
    (forall k text, Dict.get k files' = Some text ->
                    Dict.get k files = Some text \/
                    (In (k, Some text) l /\ Str.contains ":" k = false)) /\
    (forall k, Dict.get k files <> None -> Dict.get k files' <> None) /\
    (forall k text, In (k, Some text) l -> Str.contains ":" k = false ->
                    Dict.get k files' <> None).
Proof.
  induction l as [|[entry content] l IH]; intros Hall files t.
  - exists files. cbn. repeat split; auto.
  - assert (Hrest : forall f, In f l -> Str.contains ":" (fst f) = false -> snd f <> None).
    { intros f Hf. apply Hall. now right. }
    cbn [for_fold]. destruct (Str.contains ":" entry) eqn:Ec.
    + destruct (IH Hrest files t) as (files' & Hrun & Hfrom & Hkeep & Hall').
      exists files'. rewrite (bind_run_ok _ _ t t files [] eq_refl), Hrun.
      split; [reflexivity|]. split; [|split].
      * intros k text Hk. destruct (Hfrom k text Hk) as [H|[H1 H2]]; auto.
        right. split; [now right|exact H2].
      * exact Hkeep.
      * intros k text [Hin|Hin] Hc; [|now apply (Hall' k text)].
        inversion Hin; subst. congruence.
    + destruct content as [text0|];
        [|exfalso; now apply (Hall (entry, None) (or_introl eq_refl) Ec)].
      destruct (IH Hrest (Dict.set entry text0 files) t)
        as (files' & Hrun & Hfrom & Hkeep & Hall').
      exists files'. rewrite (bind_run_ok _ _ t t (Dict.set entry text0 files) [] eq_refl), Hrun.
      split; [reflexivity|]. split; [|split].
      * intros k text Hk. destruct (Hfrom k text Hk) as [H|[H1 H2]].
        -- rewrite get_set in H. destruct (String.eqb entry k) eqn:E; [|now left].
           apply String.eqb_eq in E. subst k. inversion H; subst.
           right. split; [now left|exact Ec].
        -- right. split; [now right|exact H2].
      * intros k Hk. apply Hkeep. rewrite get_set.
        now destruct (String.eqb entry k).
      * intros k text [Hin|Hin] Hc; [|now apply (Hall' k text)].
        inversion Hin; subst. apply Hkeep. rewrite get_set, String.eqb_refl. discriminate.
Qed.

Lemma in_glob (dir : list (string * option string)) (k : string) (content : option string) :
  In (k, content) (glob_ifcfg_eth dir) <->
  exists nm, k = (conf_dir ++ nm)%string /\ In (nm, content) dir /\
             prefix "ifcfg-eth" nm = true.
Proof.
  unfold glob_ifcfg_eth. rewrite in_map_iff. split.
  - intros ([nm c] & Heq & Hin). apply filter_In in Hin as [Hin Hp].
    cbn [fst snd] in *. inversion Heq; subst. exists nm. auto.
  - intros (nm & -> & Hin & Hp). exists (nm, content). split; [reflexivity|].
    apply filter_In. auto.
Qed.

(** X12: [get_config_files] opens the files of the directory whose name
    starts with [ifcfg-eth] and whose path holds no colon, and no other
    file.  When each of these can be opened it returns a dict that has a
    text for exactly these paths, each text being that of a file of the
    directory; whether the other files can be opened does not matter. *)
Theorem get_config_files_loads (dir : list (string * option string)) (t : list link) :
  (forall nm, In (nm, None) dir -> prefix "ifcfg-eth" nm = true ->
              Str.contains ":" (conf_dir ++ nm) = true) ->
  exists files,
    get_config_files dir t = Run (Ok files) t [] /\
    (forall k text,
        Dict.get k files = Some text ->
        exists nm, k = (conf_dir ++ nm)%string /\ In (nm, Some text) dir /\
                   prefix "ifcfg-eth" nm = true /\ Str.contains ":" k = false) /\
    (forall nm text,
        In (nm, Some text) dir -> prefix "ifcfg-eth" nm = true ->
        Str.contains ":" (conf_dir ++ nm) = false ->
        Dict.get (conf_dir ++ nm) files <> None).
Proof.
  intros Hdir.
  destruct (read_all_ok (glob_ifcfg_eth dir)) with (files := @nil (string * string)) (t := t)
    as (files & Hrun & Hfrom & _ & Hall).
  - intros [k content] Hin Hc. cbn [fst snd] in *.
    destruct content; [discriminate|].
    apply in_glob in Hin as (nm & -> & Hin & Hp).
    rewrite (Hdir nm Hin Hp) in Hc. discriminate.
  - exists files. split; [exact Hrun|]. split.
    + intros k text Hk. destruct (Hfrom k text Hk) as [H|[H1 H2]]; [discriminate|].
      apply in_glob in H1 as (nm & -> & Hin & Hp). exists nm. auto.
    + intros nm text Hin Hp Hc. apply (Hall _ text); [|exact Hc].
      apply in_glob. exists nm. auto.
Qed.

Lemma get_config_files_loads_witness :
  exists files,
    get_config_files [("ifcfg-eth0", Some "HWADDR=AA:BB:CC:DD:EE:01");
                      ("ifcfg-eth0:1", None); ("ifcfg-lo", None)]
      [Link "ens3" "aa:bb:cc:dd:ee:01" true] =
      Run (Ok files) [Link "ens3" "aa:bb:cc:dd:ee:01" true] [] /\
    (forall k text,
        Dict.get k files = Some text ->
        exists nm, k = (conf_dir ++ nm)%string /\
                   In (nm, Some text)
                      [("ifcfg-eth0", Some "HWADDR=AA:BB:CC:DD:EE:01");
                       ("ifcfg-eth0:1", None); ("ifcfg-lo", None)] /\
                   prefix "ifcfg-eth" nm = true /\ Str.contains ":" k = false) /\
    (forall nm text,
        In (nm, Some text)
           [("ifcfg-eth0", Some "HWADDR=AA:BB:CC:DD:EE:01");
            ("ifcfg-eth0:1", None); ("ifcfg-lo", None)] ->
        prefix "ifcfg-eth" nm = true ->
        Str.contains ":" (conf_dir ++ nm) = false ->
        Dict.get (conf_dir ++ nm) files <> None).
Proof.
  apply (get_config_files_loads
           [("ifcfg-eth0", Some "HWADDR=AA:BB:CC:DD:EE:01");
            ("ifcfg-eth0:1", None); ("ifcfg-lo", None)]
           [Link "ens3" "aa:bb:cc:dd:ee:01" true]).
  intros nm [H|[H|[H|[]]]] Hp; inversion H; subst; [reflexivity|discriminate].
Defined.

(** ** Lines of a configuration file that share a key *)

Lemma parse_line_stores (d : dict string) (line k : string) :
  line_key line = Some k ->
  Dict.get k (parse_line d line) = Some (line_value line).
Proof.
  unfold line_key, parse_line, line_value.
  destruct (Nat.ltb 1 (List.length (Str.split "=" line))); [|discriminate].
  intros H. inversion H. apply get_set_same.
Qed.

Lemma parse_line_keeps (d : dict string) (line k : string) :
  line_key line <> Some k ->
  Dict.get k (parse_line d line) = Dict.get k d.
Proof.
  unfold line_key, parse_line.
  destruct (Nat.ltb 1 (List.length (Str.split "=" line))); [|reflexivity].
  intros H. rewrite get_set.
  destruct (String.eqb _ k) eqn:E; [|reflexivity].
  apply String.eqb_eq in E. congruence.
Qed.

Lemma parse_lines_keep (lines : list string) (d : dict string) (k : string) :
  (forall l, In l lines -> line_key l <> Some k) ->
  Dict.get k (fold_left parse_line lines d) = Dict.get k d.
Proof.
  revert d. induction lines as [|l lines IH]; intros d H; [reflexivity|].
  cbn [fold_left]. rewrite IH by (intros l' Hl'; apply H; now right).
  apply parse_line_keeps. apply H. now left.
Qed.

(** X13: in the record that [parse_config] builds, the value of a key is
    the one of the last line that carries the key (the text before its
    first [=], upper-cased and without blanks around it); a key that no
    line carries is not in the record. *)
Theorem parse_config_last_line_wins (text : string) (k : string) :
  (forall before line after,
      Str.split "010" text = before ++ line :: after ->
      line_key line = Some k ->
      (forall l, In l after -> line_key l <> Some k) ->
      Dict.get k (parse_config text) = Some (line_value line)) /\
  ((forall l, In l (Str.split "010" text) -> line_key l <> Some k) ->
   Dict.get k (parse_config text) = None).
Proof.
  unfold parse_config. split.
  - intros before line after Hsplit Hkey Hafter.
    rewrite Hsplit, fold_left_app. cbn [fold_left].
    rewrite parse_lines_keep by exact Hafter.
    now apply parse_line_stores.
  - intros Hnone. now rewrite parse_lines_keep.
Qed.

Lemma parse_config_last_line_wins_witness :
  Dict.get "DEVICE"
    (parse_config ("DEVICE=eth0" ++ newline ++ "device = eth5" ++ newline ++ "ONBOOT=yes")%string)
    = Some (line_value "device = eth5") /\
  Dict.get "HWADDR"
    (parse_config ("DEVICE=eth0" ++ newline ++ "device = eth5" ++ newline ++ "ONBOOT=yes")%string)
    = None.
Proof.
  destruct (parse_config_last_line_wins
              ("DEVICE=eth0" ++ newline ++ "device = eth5" ++ newline ++ "ONBOOT=yes")%string
              "DEVICE") as [Hlast _].
  destruct (parse_config_last_line_wins
              ("DEVICE=eth0" ++ newline ++ "device = eth5" ++ newline ++ "ONBOOT=yes")%string
              "HWADDR") as [_ Hnone].
  split.
  - apply (Hlast ["DEVICE=eth0"] "device = eth5" ["ONBOOT=yes"]).
    + reflexivity.
    + reflexivity.
    + intros l [<-|[]]. discriminate.
  - apply Hnone. intros l [<-|[<-|[<-|[]]]]; discriminate.
Defined.

(** ** The quarantine pass on names outside the temporary ones *)

Lemma ready_without_temp (ns : list string) :
  forall i,
    (forall k, i <= k -> ~ In (temp_name k) ns) ->
    quarantine_ready i ns = true.
Proof.
  induction ns as [|n ns IH]; intros i H; [reflexivity|].
  cbn [quarantine_ready]. apply andb_true_intro. split.
  - apply negb_true_iff. destruct (existsb _ ns) eqn:E; [|reflexivity].
    apply in_existsb_eqb in E. exfalso. apply (H i (le_n i)). now right.
  - apply IH. intros k Hk Hin. apply (H k); [lia|now right].
Qed.

Lemma requeue_nth (t : list link) :
  forall i j l, nth_error t j = Some l ->
                nth_error (requeue i t) j = Some (Link (temp_name (i + j)) (address l) true).
Proof.
  induction t as [|x t IH]; intros i j l Hj.
  - destruct j; discriminate.
  - destruct j as [|j]; cbn [nth_error requeue] in *.
    + inversion Hj; subst. now rewrite Nat.add_0_r.
    + rewrite (IH (S i) j l Hj). do 3 f_equal. lia.
Qed.

(** X14: when the names are distinct and none of them is a [temp<k>]
    name, the quarantine pass never raises and leaves the device at
    position [i] of the enumeration named [temp<i>], with its address,
    and up. *)
Theorem quarantine_pass_renames_all (t : list link) :
  NoDup (names t) ->
  (forall k, ~ In (temp_name k) (names t)) ->
  res (quarantine_pass (interface_dict t) t) = Ok tt /\
  forall i l,
    nth_error t i = Some l ->
    nth_error (table (quarantine_pass (interface_dict t) t)) i =
      Some (Link (temp_name i) (address l) true).
Proof.
  intros Hnd Hfree. split; [apply quarantine_pass_ok|].
  intros i l Hi.
  rewrite (quarantine_pass_requeues t Hnd).
  - now rewrite (requeue_nth t 0 i l Hi).
  - apply ready_without_temp. intros k _. apply Hfree.
Qed.

Lemma quarantine_pass_renames_all_witness :
  res (quarantine_pass
         (interface_dict [Link "ens3" "aa:bb:cc:dd:ee:01" false;
                          Link "ens4" "aa:bb:cc:dd:ee:02" true])
         [Link "ens3" "aa:bb:cc:dd:ee:01" false; Link "ens4" "aa:bb:cc:dd:ee:02" true]) =
    Ok tt /\
  nth_error
    (table (quarantine_pass
              (interface_dict [Link "ens3" "aa:bb:cc:dd:ee:01" false;
                               Link "ens4" "aa:bb:cc:dd:ee:02" true])
              [Link "ens3" "aa:bb:cc:dd:ee:01" false; Link "ens4" "aa:bb:cc:dd:ee:02" true])) 1 =
    Some (Link (temp_name 1) "aa:bb:cc:dd:ee:02" true).
Proof.
  assert (Hnd : NoDup (names [Link "ens3" "aa:bb:cc:dd:ee:01" false;
                              Link "ens4" "aa:bb:cc:dd:ee:02" true])).
  { repeat constructor; simpl; intuition discriminate. }
  assert (Hfree : forall k, ~ In (temp_name k)
                              (names [Link "ens3" "aa:bb:cc:dd:ee:01" false;
                                      Link "ens4" "aa:bb:cc:dd:ee:02" true])).
  { intros k [H|[H|[]]]; unfold temp_name in H; cbn [append] in H; discriminate. }
  destruct (quarantine_pass_renames_all _ Hnd Hfree) as [Hres Hnth].
  split; [exact Hres|].
  exact (Hnth 1 (Link "ens4" "aa:bb:cc:dd:ee:02" true) eq_refl).
Defined.

(** ** How a run of [main] can end *)

Lemma assign_entry_outcome (interface : iface) (named : Z) (config : dict string)
      (t : list link) :
  (exists n, res (assign_entry interface named config t) = Ok n) \/
  res (assign_entry interface named config t) = Raise (KeyError "HWADDR").
Proof.
  destruct (Dict.get "HWADDR" config) as [value|] eqn:Hv.
  - left. destruct (assign_entry_run interface named config value t Hv) as [Hr _]. eauto.
  - right. unfold assign_entry. now rewrite Hv.
Qed.

Lemma assign_outcome (interface : iface) (configs : dict (dict string)) :
  forall (named : Z) (t : list link),
    (exists n, res (for_fold configs named
                      (fun named g => assign_entry interface named (snd g)) t) = Ok n) \/
    res (for_fold configs named
           (fun named g => assign_entry interface named (snd g)) t) =
      Raise (KeyError "HWADDR").
Proof.
  induction configs as [|g configs IH]; intros named t.
  - left. cbn. eauto.
  - cbn [for_fold].
    destruct (assign_entry_outcome interface named (snd g) t) as [(n & Hn)|Hn].
    + rewrite (res_bind_ok _ _ t n Hn). apply IH.
    + right. now rewrite (bind_raise _ _ t _ Hn).
Qed.

Lemma match_pass_outcome (configs : dict (dict string)) (its : dict iface) :
  forall (bound : option Z) (t : list link),
    (its = [] /\ res (match_pass its configs t) = Ok None) \/
    (its <> [] /\ exists n, res (match_pass its configs t) = Ok (Some n)) \/
    res (match_pass its configs t) = Raise (KeyError "HWADDR").
Proof.
  intros _ t. unfold match_pass.
  destruct its as [|f its]; [left; split; reflexivity|right].
  assert (Hgen : forall (l : dict iface) (bound : option Z) (t : list link),
             (exists b, res (for_fold l bound
                               (fun _ h => success <- assign_interface (snd h) configs ;;
                                           ret (Some success)) t) = Ok b /\
                        (l = [] -> b = bound) /\ (l <> [] -> exists n, b = Some n)) \/
             res (for_fold l bound
                    (fun _ h => success <- assign_interface (snd h) configs ;;
                                ret (Some success)) t) = Raise (KeyError "HWADDR")).
  { induction l as [|h l IH]; intros bound t'.
    - left. exists bound. cbn. repeat split; congruence.
    - cbn [for_fold].
      destruct (assign_outcome (snd h) configs 0%Z t') as [(n & Hn)|Hn].
      + assert (Hround : res ((success <- assign_interface (snd h) configs ;;
                               ret (Some success)) t') = Ok (Some n)).
        { unfold assign_interface. now rewrite (res_bind_ok _ _ t' n Hn). }
        rewrite (res_bind_ok _ _ t' _ Hround).
        destruct (IH (Some n)
                    (table ((success <- assign_interface (snd h) configs ;;
                             ret (Some success)) t')))
          as [(b & Hb & Hnil & Hcons)|Hb]; [left|now right].
        exists b. split; [exact Hb|]. split; [discriminate|]. intros _.
        destruct l as [|h' l']; [exists n; now apply Hnil|apply Hcons; discriminate].
      + right.
        assert (Hround : res ((success <- assign_interface (snd h) configs ;;
                               ret (Some success)) t') = Raise (KeyError "HWADDR")).
        { unfold assign_interface. now rewrite (bind_raise _ _ t' _ Hn). }
        now rewrite (bind_raise _ _ t' _ Hround). }
  destruct (Hgen (f :: its) None t) as [(b & Hb & _ & Hcons)|Hb]; [left|now right].
  split; [discriminate|]. destruct (Hcons ltac:(discriminate)) as (n & ->). eauto.
Qed.

Lemma get_config_outcome (dir : list (string * option string)) (t : list link) :
  (exists configs, res (get_config dir t) = Ok configs) \/
  (exists path, res (get_config dir t) = Raise (IOError path)).
Proof.
  unfold get_config, get_config_files.
  assert (Hgen : forall l (files : dict string),
             (exists files', res (for_fold l files
                 (fun files f =>
                    let (entry, content) := (f : string * option string) in
                    if Str.contains ":" entry then ret files
                    else match content with
                         | None => raise (IOError entry)
                         | Some text => ret (Dict.set entry text files)
                         end) t) = Ok files') \/
             (exists path, res (for_fold l files
                 (fun files f =>
                    let (entry, content) := (f : string * option string) in
                    if Str.contains ":" entry then ret files
                    else match content with
                         | None => raise (IOError entry)
                         | Some text => ret (Dict.set entry text files)
                         end) t) = Raise (IOError path))).
  { induction l as [|[entry content] l IH]; intros files.
    - left. cbn. eauto.
    - cbn [for_fold]. destruct (Str.contains ":" entry).
      + rewrite (res_bind_ok _ _ t files) by reflexivity. apply IH.
      + destruct content as [text|].
        * rewrite (res_bind_ok _ _ t (Dict.set entry text files)) by reflexivity. apply IH.
        * right. exists entry. now rewrite (bind_raise _ _ t (IOError entry)) by reflexivity. }
  destruct (Hgen (glob_ifcfg_eth dir) []) as [(files & Hf)|(path & Hf)].
  - left. eexists. rewrite (res_bind_ok _ _ t files Hf). reflexivity.
  - right. exists path. now rewrite (bind_raise _ _ t _ Hf).
Qed.

Lemma fallback_pass_ok (interfaces : dict iface) (t : list link) :
  exists idx, res (fallback_pass interfaces t) = Ok idx.
Proof.
  unfold fallback_pass. generalize 0 as idx. generalize interfaces at 1 as its.
  intros its. revert t. induction its as [|f its IH]; intros t idx.
  - cbn. eauto.
  - cbn [for_fold]. unfold fallback_entry at 1.
    destruct (negb (Str.contains "eth" (ifname (snd f)))).
    + set (k := next_free (List.length (keys interfaces)) (keys interfaces) idx).
      assert (Hr : res ((link_name_change 0 (fst f) (Some (eth_name k)) ;; ret (S k)) t) =
                   Ok (S k)).
      { now rewrite (res_bind_ok _ _ t tt (proj1 (link_name_change_commands _ _ _ _))). }
      rewrite (res_bind_ok _ _ t _ Hr). apply IH.
    + rewrite (res_bind_ok _ _ t idx) by reflexivity. apply IH.
Qed.


Lemma main_res (dir : list (string * option string)) (t : list link) :
  res (main dir t) =
    res (main_after_quarantine dir (table (quarantine_pass (interface_dict t) t))).
Proof.
  unfold main.
  rewrite (res_bind_ok _ _ t tt) by reflexivity. cbn [print table].
  rewrite (res_bind_ok _ _ t (interface_dict t)) by reflexivity.
  cbn [get_interface_dict table].
  rewrite (res_bind_ok _ _ t tt) by apply quarantine_pass_ok. reflexivity.
Qed.


(** ** How a run on reports ends *)

Lemma ending_rbind {A B} (m : R A) (f : A -> R B) (t : list link) (a : A) :
  ending_of (m t) = Returns a ->
  ending_of (rbind m f t) = ending_of (f a (links_of (m t))).
Proof. intros H. unfold rbind. now rewrite H. Qed.

Lemma ending_rbind_faults {A B} (m : R A) (f : A -> R B) (t : list link) (e : fault) :
  ending_of (m t) = Faults e -> ending_of (rbind m f t) = Faults e.
Proof. intros H. unfold rbind. now rewrite H. Qed.

Lemma ending_lift_ok {A} (m : M A) (t : list link) (a : A) :
  res (m t) = Ok a -> ending_of (lift m t) = Returns a.
Proof. intros H. unfold lift. cbn [ending_of]. now rewrite H. Qed.

Lemma ending_lift_raise {A} (m : M A) (t : list link) (e : exn) :
  res (m t) = Raise e -> ending_of (lift m t) = @Faults A (CoreFault e).
Proof. intros H. unfold lift. cbn [ending_of]. now rewrite H. Qed.

Lemma links_read (report : list link -> list string) (t : list link) :
  links_of (read_interface_dict report t) = t.
Proof. unfold read_interface_dict. now destruct (scan_report (report t)). Qed.

(** The loop over a report ends with a dict, or with [IndexError] at a
    line with fewer than two fields. *)
Lemma scan_report_cases (lines : list string) :
  (exists d, scan_report lines = Scanned d) \/
  (scan_report lines = ScanRaise IndexError /\
   Exists (fun line => List.length (split_ws line) < 2) (skipn 2 lines)).
Proof.
  assert (Hboth :
            (Forall (fun line => 2 <= List.length (split_ws line)) (skipn 2 lines) ->
             exists d, scan_report lines = Scanned d) /\
            (Exists (fun line => List.length (split_ws line) < 2) (skipn 2 lines) ->
             scan_report lines = ScanRaise IndexError)).
  { unfold scan_report. destruct lines as [|lo0 [|lo1 rest]].
    - split; [simpl; eauto|intros H; inversion H].
    - split; [simpl; eauto|intros H; inversion H].
    - cbn [skipn scan_from]. rewrite !scan_line_skipped by lia.
      apply scan_from_outcome; [lia|intros H; discriminate]. }
  destruct Hboth as [Hall Hsome].
  destruct (Forall_Exists_dec (fun line => 2 <= List.length (split_ws line))
              (fun line => le_dec 2 (List.length (split_ws line))) (skipn 2 lines))
    as [HF|HE].
  - left. now apply Hall.
  - right. assert (HE' : Exists (fun line => List.length (split_ws line) < 2)
                                (skipn 2 lines)).
    { apply Exists_exists in HE as (line & Hin & Hn).
      apply Exists_exists. exists line. split; [exact Hin|lia]. }
    split; [now apply Hsome|exact HE'].
Qed.

Lemma read_cases (report : list link -> list string) (t : list link) :
  (exists d, scan_report (report t) = Scanned d /\
             ending_of (read_interface_dict report t) = Returns d) \/
  (ending_of (read_interface_dict report t) = Faults (ScanFault IndexError) /\
   Exists (fun line => List.length (split_ws line) < 2) (skipn 2 (report t))).
Proof.
  unfold read_interface_dict.
  destruct (scan_report_cases (report t)) as [(d & H)|[H He]]; rewrite H.
  - left. exists d. split; reflexivity.
  - right. split; [reflexivity|exact He].
Qed.

Lemma main_reading_cases (report : list link -> list string)
      (dir : list (string * option string)) (t : list link) :
  ending_of (main_reading report dir t) = Returns tt \/
  (ending_of (main_reading report dir t) = Faults (ScanFault IndexError) /\
   exists t', Exists (fun line => List.length (split_ws line) < 2) (skipn 2 (report t'))) \/
  (exists path, ending_of (main_reading report dir t) = Faults (CoreFault (IOError path))) \/
  ending_of (main_reading report dir t) = Faults (CoreFault (KeyError "HWADDR")) \/
  (ending_of (main_reading report dir t) = Faults (CoreFault (UnboundLocalError "success")) /\
   exists t', scan_report (report t') = Scanned []).
Proof.
  unfold main_reading.
  rewrite (ending_rbind _ _ t tt) by reflexivity.
  cbn [lift links_of print table].
  destruct (read_cases report t) as [(d0 & _ & H0)|[H0 Hshort]];
    [|right; left; split; [now apply ending_rbind_faults|eauto]].
  rewrite (ending_rbind _ _ t d0 H0), links_read.
  rewrite (ending_rbind _ _ t tt) by (apply ending_lift_ok, quarantine_pass_ok).
  cbn [lift links_of].
  set (t1 := table (quarantine_pass d0 t)).
  rewrite (ending_rbind _ _ t1 tt) by reflexivity.
  cbn [lift links_of print table].
  destruct (read_cases report t1) as [(d1 & Hd1 & H1)|[H1 Hshort]];
    [|right; left; split; [now apply ending_rbind_faults|eauto]].
  rewrite (ending_rbind _ _ t1 d1 H1), links_read.
  rewrite (ending_rbind _ _ t1 tt) by reflexivity.
  cbn [lift links_of print table].
  destruct (get_config_outcome dir t1) as [(configs & Hc)|(path & Hc)];
    [|right; right; left; exists path;
      apply ending_rbind_faults; now apply ending_lift_raise].
  rewrite (ending_rbind _ _ t1 configs) by now apply ending_lift_ok.
  cbn [lift links_of].
  set (t2 := table (get_config dir t1)).
  rewrite (ending_rbind _ _ t2 tt) by reflexivity.
  cbn [lift links_of print table].
  destruct (match_pass_outcome configs d1 None t2)
    as [[Hnil Hm]|[[Hcons (n & Hm)]|Hm]].
  - right. right. right. right. split; [|exists t1; now rewrite Hd1, Hnil].
    rewrite (ending_rbind _ _ t2 None) by now apply ending_lift_ok.
    apply ending_rbind_faults. now apply ending_lift_raise.
  - rewrite (ending_rbind _ _ t2 (Some n)) by now apply ending_lift_ok.
    cbn [lift links_of].
    set (t3 := table (match_pass d1 configs t2)).
    rewrite (ending_rbind _ _ t3 n) by reflexivity.
    cbn [lift links_of ret table]. cbv zeta.
    rewrite (ending_rbind _ _ t3 tt) by reflexivity.
    cbn [lift links_of print table].
    destruct (read_cases report t3) as [(d3 & _ & H3)|[H3 Hshort]];
      [|right; left; split; [now apply ending_rbind_faults|eauto]].
    rewrite (ending_rbind _ _ t3 d3 H3), links_read.
    assert (Hblock : forall b : bool,
               res ((if b
                     then print "Renaming the devices not found in the ifcfg-ethN files to an arbitrary ethN designation";;
                          fallback_pass d3;; ret tt
                     else ret tt) t3) = Ok tt).
    { intros [|]; [|reflexivity].
      rewrite (res_bind_ok _ _ t3 tt) by reflexivity. cbn [print table].
      destruct (fallback_pass_ok d3 t3) as (idx & Hidx).
      now rewrite (res_bind_ok _ _ t3 idx Hidx). }
    rewrite (ending_rbind _ _ t3 tt) by (apply ending_lift_ok, Hblock).
    cbn [lift links_of].
    match goal with
    | |- context [rbind (lift (print "Final naming scheme")) _ ?t] => set (t4 := t)
    end.
    rewrite (ending_rbind _ _ t4 tt) by reflexivity.
    cbn [lift links_of print table].
    destruct (read_cases report t4) as [(d4 & _ & H4)|[H4 Hshort]];
      [|right; left; split; [now apply ending_rbind_faults|eauto]].
    rewrite (ending_rbind _ _ t4 d4 H4). left. reflexivity.
  - right. right. right. left.
    apply ending_rbind_faults. now apply ending_lift_raise.
Qed.

(** X15: [main], reading the reports of [ip link show], ends in one of
    five ways: normally, with [IndexError] from the loop over a report,
    with the I/O error of a configuration file, with [KeyError] for
    HWADDR, or with [success] unbound.  [IndexError] needs a report with
    a line, past the first two, of fewer than two fields; [success] is
    unbound only when a report lists no device. *)
Theorem main_outcomes (report : list link -> list string)
        (dir : list (string * option string)) (t : list link) :
  (ending_of (main_reading report dir t) = Returns tt \/
   ending_of (main_reading report dir t) = Faults (ScanFault IndexError) \/
   (exists path,
       ending_of (main_reading report dir t) = Faults (CoreFault (IOError path))) \/
   ending_of (main_reading report dir t) = Faults (CoreFault (KeyError "HWADDR")) \/
   ending_of (main_reading report dir t) =
     Faults (CoreFault (UnboundLocalError "success"))) /\
  (ending_of (main_reading report dir t) = Faults (ScanFault IndexError) ->
   exists t', Exists (fun line => List.length (split_ws line) < 2) (skipn 2 (report t'))) /\
  (ending_of (main_reading report dir t) =
     Faults (CoreFault (UnboundLocalError "success")) ->
   exists t', scan_report (report t') = Scanned []).
Proof.
  destruct (main_reading_cases report dir t)
    as [H|[[H Hs]|[(path & H)|[H|[H Hs]]]]]; rewrite H.
  - split; [auto|]. split; discriminate.
  - split; [auto|]. split; [auto|discriminate].
  - split; [eauto 6|]. split; discriminate.
  - split; [auto 6|]. split; discriminate.
  - split; [auto 6|]. split; [discriminate|auto].
Qed.

Lemma main_outcomes_witness :
  exists t',
    Exists (fun line => List.length (split_ws line) < 2)
           (skipn 2 ((fun t : list link =>
                        "1: lo: <LOOPBACK,UP,LOWER_UP> mtu 65536"
                        :: "    link/loopback 00:00:00:00:00:00 brd 00:00:00:00:00:00"
                        :: flat_map (fun l => [("2: " ++ name l ++ ": <BROADCAST>")%string;
                                               EmptyString]) t) t')).
Proof.
  apply (proj1 (proj2 (main_outcomes
                         (fun t : list link =>
                            "1: lo: <LOOPBACK,UP,LOWER_UP> mtu 65536"
                            :: "    link/loopback 00:00:00:00:00:00 brd 00:00:00:00:00:00"
                            :: flat_map (fun l => [("2: " ++ name l ++ ": <BROADCAST>")%string;
                                                   EmptyString]) t)
                         [] [Link "ens3" "aa:bb:cc:dd:ee:01" true]))).
  vm_compute. reflexivity.
Defined.

(** ** Reports that list the devices of the table *)

Lemma agrees_lift {A} (cs : list ip_cmd) (t0 : list link) (m : M A) :
  agrees cs t0 (lift m) m.
Proof. intros done rest t _ _. reflexivity. Qed.

Lemma agrees_ret {A} (cs : list ip_cmd) (t0 : list link) (a : A) :
  agrees cs t0 (rret a) (ret a).
Proof. intros done rest t _ _. reflexivity. Qed.

Lemma agrees_read (cs : list ip_cmd) (t0 : list link) (report : list link -> list string) :
  (forall n, scan_report (report (replay (firstn n cs) t0)) =
             Scanned (interface_dict (replay (firstn n cs) t0))) ->
  agrees cs t0 (read_interface_dict report) get_interface_dict.
Proof.
  intros H done rest t Ht Hcs. cbn [get_interface_dict trace commands Datatypes.app] in Hcs.
  assert (Hpre : firstn (List.length done) cs = done).
  { rewrite Hcs, firstn_app, Nat.sub_diag, firstn_all. cbn [firstn].
    now rewrite app_nil_r. }
  specialize (H (List.length done)). rewrite Hpre, <- Ht in H.
  unfold read_interface_dict. rewrite H. reflexivity.
Qed.

Lemma agrees_bind {A B} (cs : list ip_cmd) (t0 : list link)
      (rm : R A) (m : M A) (rf : A -> R B) (f : A -> M B) :
  sound m ->
  agrees cs t0 rm m ->
  (forall a, agrees cs t0 (rf a) (f a)) ->
  agrees cs t0 (rbind rm rf) (bind m f).
Proof.
  intros Hs Hm Hf done rest t Ht Hcs.
  destruct (res (m t)) as [a|e] eqn:E.
  - rewrite (trace_bind_ok _ _ t a E), commands_app, <- app_assoc in Hcs.
    pose proof (Hm done _ t Ht Hcs) as H1.
    assert (Ht' : table (m t) = replay (done ++ commands (trace (m t))) t0).
    { now rewrite replay_app, <- Ht, <- Hs. }
    rewrite app_assoc in Hcs.
    pose proof (Hf a _ rest _ Ht' Hcs) as H2.
    unfold rbind. rewrite H1. cbv zeta.
    change (ending_of (lift m t))
      with (match res (m t) with
            | Ok a => @Returns A a
            | Raise e => Faults (CoreFault e)
            end).
    change (links_of (lift m t)) with (table (m t)).
    change (events_of (lift m t)) with (trace (m t)).
    rewrite E, H2. unfold lift, bind. rewrite E.
    cbn [res table trace ending_of links_of events_of]. reflexivity.
  - rewrite (bind_raise _ _ t e E) in Hcs. cbn [trace] in Hcs.
    pose proof (Hm done _ t Ht Hcs) as H1.
    unfold rbind. rewrite H1. unfold lift, bind. cbn [ending_of links_of events_of].
    rewrite E. cbn [res table trace ending_of links_of events_of]. reflexivity.
Qed.

(** X20: when the report of every table that the commands of the run
    lead through lists the devices of that table (the dict read from it
    is the one of the table), [main] on reports ends, leaves the links
    and prints as [main] on the table does. *)
Theorem main_reading_agrees (report : list link -> list string)
        (dir : list (string * option string)) (t : list link) :
  (forall n,
      scan_report (report (replay (firstn n (commands (trace (main dir t)))) t)) =
      Scanned (interface_dict (replay (firstn n (commands (trace (main dir t)))) t))) ->
  main_reading report dir t = lift (main dir) t.
Proof.
  intros H.
  assert (Hagrees : agrees (commands (trace (main dir t))) t
                      (main_reading report dir) (main dir)).
  { unfold main_reading, main, main_after_quarantine.
    repeat first
      [ apply agrees_lift
      | apply agrees_ret
      | apply agrees_read; exact H
      | apply agrees_bind;
        [repeat first
           [ solve [auto 10 with sound]
           | match goal with |- sound (match ?x with _ => _ end) => destruct x end ]
        | |intros] ]. }
  apply (Hagrees [] [] t eq_refl). now rewrite app_nil_r.
Qed.

Lemma main_reading_agrees_witness :
  main_reading (report_of "1: lo: <LOOPBACK,UP,LOWER_UP> mtu 65536"
                          "    link/loopback 00:00:00:00:00:00 brd 00:00:00:00:00:00"
                          sample_dev_line sample_addr_line)
    [] [Link "ens3" "aa:bb:cc:dd:ee:01" true] =
  lift (main []) [Link "ens3" "aa:bb:cc:dd:ee:01" true].
Proof.
  apply (main_reading_agrees
           (report_of "1: lo: <LOOPBACK,UP,LOWER_UP> mtu 65536"
                      "    link/loopback 00:00:00:00:00:00 brd 00:00:00:00:00:00"
                      sample_dev_line sample_addr_line)
           [] [Link "ens3" "aa:bb:cc:dd:ee:01" true]).
  intros n.
  do 7 (destruct n as [|n]; [vm_compute; reflexivity|]).
  vm_compute. reflexivity.
Defined.

(** ** A run without configuration files *)

Lemma digits_without_e (d : uint) :
  free_of (Ascii.eqb "e") (NilEmpty.string_of_uint d) = true.
Proof.
  induction d; cbn [NilEmpty.string_of_uint free_of]; try reflexivity;
    rewrite IHd; reflexivity.
Qed.

Lemma contains_eth_needs_e (s : string) :
  free_of (Ascii.eqb "e") s = true -> Str.contains "eth" s = false.
Proof.
  induction s as [|a s IH]; [reflexivity|].
  cbn [free_of]. intros H. apply andb_prop in H as [Ha Hs].
  apply negb_true_iff in Ha.
  cbn [Str.contains prefix]. rewrite (IH Hs).
  destruct (ascii_dec "e" a) as [<-|_]; [discriminate|reflexivity].
Qed.

Lemma temp_without_eth (i : nat) : Str.contains "eth" (temp_name i) = false.
Proof.
  unfold temp_name, Str.fmt_nat.
  pose proof (contains_eth_needs_e _ (digits_without_e (Nat.to_uint i))) as H.
  cbn [append Str.contains prefix]. rewrite H.
  cbn. now destruct (NilEmpty.string_of_uint (Nat.to_uint i)).
Qed.



Lemma names_requeue (t : list link) :
  forall i, names (requeue i t) = map temp_name (seq i (List.length t)).
Proof.
  induction t as [|l t IH]; intros i; [reflexivity|].
  cbn [requeue names map List.length seq]. f_equal. apply IH.
Qed.

Lemma requeue_is_up (t : list link) :
  forall i dev, map (set_up dev true) (requeue i t) = requeue i t.
Proof.
  induction t as [|l t IH]; intros i dev; [reflexivity|].
  cbn [requeue map]. rewrite IH. f_equal.
  unfold set_up. cbn [name address up]. now destruct (String.eqb _ dev).
Qed.







(** ** The records of the files *)

Lemma get_absent {V} (k : string) (d : dict V) :
  ~ In k (keys d) -> Dict.get k d = None.
Proof.
  induction d as [|[k' v'] d IH]; intros H; [reflexivity|].
  cbn [Dict.get]. destruct (String.eqb k' k) eqn:E.
  - apply String.eqb_eq in E. subst. exfalso. apply H. now left.
  - apply IH. intros Hin. apply H. now right.
Qed.

Lemma keys_set_in {V} (k : string) (v : V) (d : dict V) (x : string) :
  In x (keys (Dict.set k v d)) -> x = k \/ In x (keys d).
Proof.
  unfold keys. intros H. apply in_map_iff in H as ([k0 v0] & <- & Hin).
  apply in_set in Hin as [Hin|Hin].
  - inversion Hin. now left.
  - right. now apply (in_map fst) in Hin.
Qed.

Lemma nodup_keys_set {V} (k : string) (v : V) (d : dict V) :
  NoDup (keys d) -> NoDup (keys (Dict.set k v d)).
Proof.
  induction d as [|[k' v'] d IH]; intros H.
  - cbn. constructor; [intros []|constructor].
  - cbn [Dict.set]. inversion H as [|a b Hk Hd]; subst.
    destruct (String.eqb k' k) eqn:E.
    + apply String.eqb_eq in E. subst. exact H.
    + cbn [keys map fst]. constructor; [|now apply IH].
      intros Hin. apply keys_set_in in Hin as [Hin|Hin]; [|contradiction].
      cbn [fst] in Hin. subst. rewrite String.eqb_refl in E. discriminate.
Qed.

Lemma get_fold_set {V W} (g : V -> W) (l : dict V) (k : string) :
  NoDup (keys l) ->
  forall d0 : dict W,
    Dict.get k (fold_left (fun d f => Dict.set (fst f) (g (snd f)) d) l d0) =
      match Dict.get k l with
      | Some v => Some (g v)
      | None => Dict.get k d0
      end.
Proof.
  induction l as [|[k' v'] l IH]; intros Hnd d0; [reflexivity|].
  inversion Hnd as [|a b Hk Hl]; subst.
  cbn [fold_left fst snd Dict.get]. rewrite (IH Hl), get_set.
  destruct (String.eqb k' k) eqn:E; [|reflexivity].
  apply String.eqb_eq in E. subst. now rewrite (get_absent _ _ Hk).
Qed.

Lemma read_all_nodup (l : list (string * option string)) :
  forall (files files' : dict string) (t : list link),
    res (for_fold l files
           (fun files f =>
              let (entry, content) := (f : string * option string) in
              if Str.contains ":" entry then ret files
              else match content with
                   | None => raise (IOError entry)
                   | Some text => ret (Dict.set entry text files)
                   end) t) = Ok files' ->
    NoDup (keys files) -> NoDup (keys files').
Proof.
  induction l as [|[entry content] l IH]; intros files files' t.
  - cbn. intros H. now inversion H.
  - cbn [for_fold]. destruct (Str.contains ":" entry).
    + rewrite (res_bind_ok _ _ t files) by reflexivity. apply IH.
    + destruct content as [text|].
      * rewrite (res_bind_ok _ _ t (Dict.set entry text files)) by reflexivity.
        intros H Hnd. apply (IH _ _ _ H). now apply nodup_keys_set.
      * rewrite (bind_raise _ _ t (IOError entry)) by reflexivity. discriminate.
Qed.

Lemma append_inj (p a b : string) : (p ++ a)%string = (p ++ b)%string -> a = b.
Proof.
  induction p as [|c p IH]; cbn [append]; intros H; [exact H|].
  inversion H. auto.
Qed.

Lemma nodup_fst_unique {A B} (l : list (A * B)) (k : A) (a b : B) :
  NoDup (map fst l) -> In (k, a) l -> In (k, b) l -> a = b.
Proof.
  induction l as [|[k' v'] l IH]; intros Hnd Ha Hb; [destruct Ha|].
  inversion Hnd as [|x y Hk Hl]; subst. cbn [map fst] in Hk.
  destruct Ha as [Ha|Ha], Hb as [Hb|Hb].
  - congruence.
  - inversion Ha; subst. exfalso. apply Hk. now apply (in_map fst) in Hb.
  - inversion Hb; subst. exfalso. apply Hk. now apply (in_map fst) in Ha.
  - now apply IH.
Qed.

(** X17: when the file names of the directory are distinct and every
    file that [get_config_files] opens can be opened, [get_config]
    returns, under the path of each of these files, the record that
    [parse_config] builds from its text, and has no other entry.  Nothing
    is printed and the link table is not touched. *)
Theorem get_config_parses_each_file (dir : list (string * option string)) (t : list link) :
  NoDup (map fst dir) ->
  (forall nm, In (nm, None) dir -> prefix "ifcfg-eth" nm = true ->
              Str.contains ":" (conf_dir ++ nm) = true) ->
  exists configs,
    get_config dir t = Run (Ok configs) t [] /\
    (forall nm text,
        In (nm, Some text) dir -> prefix "ifcfg-eth" nm = true ->
        Str.contains ":" (conf_dir ++ nm) = false ->
        Dict.get (conf_dir ++ nm) configs = Some (parse_config text)) /\
    (forall k record,
        Dict.get k configs = Some record ->
        exists nm text,
          k = (conf_dir ++ nm)%string /\ In (nm, Some text) dir /\
          prefix "ifcfg-eth" nm = true /\ Str.contains ":" k = false /\
          record = parse_config text).
Proof.
  intros Hnd Hdir.
  destruct (read_all_ok (glob_ifcfg_eth dir)) with (files := @nil (string * string)) (t := t)
    as (files & Hrun & Hfrom & _ & Hall).
  { intros [k content] Hin Hc. cbn [fst snd] in *.
    destruct content; [discriminate|].
    apply in_glob in Hin as (nm & -> & Hin & Hp).
    rewrite (Hdir nm Hin Hp) in Hc. discriminate. }
  assert (Hkeys : NoDup (keys files)).
  { apply (read_all_nodup (glob_ifcfg_eth dir) [] files t).
    - now rewrite Hrun.
    - constructor. }
  eexists. split; [|split].
  - unfold get_config, get_config_files.
    rewrite (bind_run_ok _ _ t t files [] Hrun). reflexivity.
  - intros nm text Hin Hp Hc. rewrite (get_fold_set parse_config files _ Hkeys).
    destruct (Dict.get (conf_dir ++ nm) files) as [text'|] eqn:Hg.
    + destruct (Hfrom _ _ Hg) as [H|[H _]]; [discriminate|].
      apply in_glob in H as (nm' & Heq & Hin' & _).
      apply append_inj in Heq. subst nm'.
      pose proof (nodup_fst_unique dir nm _ _ Hnd Hin Hin') as E. now inversion E.
    + exfalso. apply (Hall (conf_dir ++ nm)%string text); [|exact Hc|exact Hg].
      apply in_glob. exists nm. auto.
  - intros k record. rewrite (get_fold_set parse_config files _ Hkeys).
    destruct (Dict.get k files) as [text|] eqn:Hg; [|discriminate].
    intros H. inversion H; subst.
    destruct (Hfrom _ _ Hg) as [H'|[H1 H2]]; [discriminate|].
    apply in_glob in H1 as (nm & -> & Hin & Hp). exists nm, text. auto.
Qed.

Lemma get_config_parses_each_file_witness :
  exists configs,
    get_config [("ifcfg-eth0", Some "HWADDR=AA:BB:CC:DD:EE:01");
                ("ifcfg-eth0:1", None); ("ifcfg-lo", None)]
      [Link "ens3" "aa:bb:cc:dd:ee:01" true] =
      Run (Ok configs) [Link "ens3" "aa:bb:cc:dd:ee:01" true] [] /\
    (forall nm text,
        In (nm, Some text)
           [("ifcfg-eth0", Some "HWADDR=AA:BB:CC:DD:EE:01");
            ("ifcfg-eth0:1", None); ("ifcfg-lo", None)] ->
        prefix "ifcfg-eth" nm = true ->
        Str.contains ":" (conf_dir ++ nm) = false ->
        Dict.get (conf_dir ++ nm) configs = Some (parse_config text)) /\
    (forall k record,
        Dict.get k configs = Some record ->
        exists nm text,
          k = (conf_dir ++ nm)%string /\
          In (nm, Some text)
             [("ifcfg-eth0", Some "HWADDR=AA:BB:CC:DD:EE:01");
              ("ifcfg-eth0:1", None); ("ifcfg-lo", None)] /\
          prefix "ifcfg-eth" nm = true /\ Str.contains ":" k = false /\
          record = parse_config text).
Proof.
  apply (get_config_parses_each_file
           [("ifcfg-eth0", Some "HWADDR=AA:BB:CC:DD:EE:01");
            ("ifcfg-eth0:1", None); ("ifcfg-lo", None)]
           [Link "ens3" "aa:bb:cc:dd:ee:01" true]).
  - repeat constructor; cbn; intuition discriminate.
  - intros nm [H|[H|[H|[]]]] Hp; inversion H; subst; [reflexivity|discriminate].
Defined.

(** ** A run with one record for every interface *)

Lemma applies_hwaddr (i1 i2 : iface) (config : dict string) :
  hwaddr i1 = hwaddr i2 -> applies i1 config = applies i2 config.
Proof. intros H. unfold applies, hwaddr_in. now rewrite H. Qed.

Lemma targets_for_hwaddr (i1 i2 : iface) (configs : dict (dict string)) :
  hwaddr i1 = hwaddr i2 -> targets_for i1 configs = targets_for i2 configs.
Proof.
  intros H. unfold targets_for. f_equal. apply filter_ext.
  intros f. now apply applies_hwaddr.
Qed.

Lemma filter_none {A} (p : A -> bool) (l : list A) :
  filter p l = [] -> forall x, In x l -> p x = false.
Proof.
  intros H x Hx. destruct (p x) eqn:E; [|reflexivity].
  assert (Hin : In x (filter p l)) by (apply filter_In; auto).
  rewrite H in Hin. destruct Hin.
Qed.

Lemma assign_sole (interface : iface) (d : string) (configs : dict (dict string)) :
  (forall g, In g configs -> Dict.get "HWADDR" (snd g) <> None) ->
  targets_for interface configs = [Some d] ->
  forall (named : Z) (t : list link),
    res (for_fold configs named
           (fun named g => assign_entry interface named (snd g)) t) = Ok (named + 1)%Z /\
    table (for_fold configs named
             (fun named g => assign_entry interface named (snd g)) t) =
      table (link_name_change 0 (ifname interface) (Some d) t).
Proof.
  unfold targets_for.
  induction configs as [|g configs IH]; intros Hall Hsole named t; [discriminate|].
  assert (Hrest : forall h, In h configs -> Dict.get "HWADDR" (snd h) <> None).
  { intros h Hh. apply Hall. now right. }
  destruct (Dict.get "HWADDR" (snd g)) as [value|] eqn:Hv;
    [|exfalso; now apply (Hall g (or_introl eq_refl))].
  cbn [filter] in Hsole. destruct (applies interface (snd g)) eqn:Ha.
  - cbn [map] in Hsole. inversion Hsole as [[Hd Hnone]].
    apply map_eq_nil in Hnone.
    destruct (assign_entry_applies_table interface named (snd g) t Ha) as [Hr Ht].
    cbn [for_fold]. rewrite (res_bind_ok _ _ t _ Hr), (table_bind_ok _ _ t _ Hr).
    rewrite assign_inert.
    + cbn [res table]. rewrite Ht. split; reflexivity.
    + intros h Hh. split; [now apply Hrest|]. now apply (filter_none _ _ Hnone h).
  - destruct (assign_entry_run interface named (snd g) value t Hv) as (_ & _ & Hstay).
    cbn [for_fold]. rewrite (bind_run_ok _ _ t t named [] (Hstay Ha)).
    cbn [res table]. now apply IH.
Qed.

(** One rename of the match pass, to a name with [eth] in it that nobody
    holds. *)
Lemma rename_step (d : string) (done todo : list link) (l : link) :
  NoDup (names (done ++ l :: todo)) ->
  ~ In d (names (done ++ l :: todo)) ->
  Str.contains "eth" d = true ->
  (forall x, In x done -> Str.contains "eth" (name x) = true) ->
  table (link_name_change 0 (name l) (Some d) (done ++ l :: todo)) =
    done ++ Link d (address l) false :: map (set_up (temp_name 0) true) todo.
Proof.
  intros Hnd Hfree Hd Hdone.
  assert (Htarget : target 0 (Some d) = d) by (destruct d; [discriminate|reflexivity]).
  assert (Hnames : names (done ++ l :: todo) = names done ++ name l :: names todo).
  { now rewrite names_app. }
  rewrite Hnames in Hnd.
  rewrite link_name_change_table.
  - cbn [table]. rewrite Htarget.
    rewrite !map_map, map_app. cbn [map].
    rewrite rename_self_down; [|reflexivity|].
    + f_equal; [|f_equal].
      * apply map_fix. intros x Hx. apply rename_other.
        -- apply (nodup_middle _ _ _ _ Hnd). left. now apply in_map.
        -- apply named_eth_not_temp0. now apply Hdone.
      * apply map_ext_in. intros x Hx. apply rename_elsewhere.
        apply (nodup_middle _ _ _ _ Hnd). right. now apply in_map.
    + intros E. rewrite E, temp0_without_eth in Hd. discriminate.
  - rewrite Hnames. apply in_or_app. right. now left.
  - right. rewrite Htarget. exact Hfree.
Qed.

(** The match pass on a table that the quarantine pass has renamed
    throughout, when exactly one record applies to each interface. *)
Lemma match_on_requeued (configs : dict (dict string)) (dest : link -> string) :
  (forall g, In g configs -> Dict.get "HWADDR" (snd g) <> None) ->
  forall (rest done : list link) (i : nat) (bound : option Z),
    (forall l, In l rest -> targets_for (snd (item_of l)) configs = [Some (dest l)]) ->
    (forall l, In l rest -> Str.contains "eth" (dest l) = true) ->
    NoDup (map dest rest) ->
    (forall l, In l rest -> ~ In (dest l) (names done)) ->
    NoDup (names (done ++ requeue i rest)) ->
    (forall x, In x done -> Str.contains "eth" (name x) = true) ->
    res (for_fold (map item_of (requeue i rest)) bound
           (fun _ h => success <- assign_interface (snd h) configs ;; ret (Some success))
           (done ++ requeue i rest)) =
      Ok (match rest with [] => bound | _ => Some 1%Z end) /\
    table (for_fold (map item_of (requeue i rest)) bound
             (fun _ h => success <- assign_interface (snd h) configs ;; ret (Some success))
             (done ++ requeue i rest)) = done ++ named_table dest rest.
Proof.
  intros Hall.
  induction rest as [|l rest IH]; intros done i bound Hsole Heth Hdest Hfresh Hnd Hdone.
  - split; reflexivity.
  - cbn [requeue map for_fold named_table]. cbn [requeue] in Hnd.
    assert (Hfree : ~ In (dest l)
                      (names (done ++ Link (temp_name i) (address l) true
                                   :: requeue (S i) rest))).
    { rewrite names_app. intros Hin. apply in_app_or in Hin as [Hin|Hin].
      - now apply (Hfresh l (or_introl eq_refl)).
      - change (names (Link (temp_name i) (address l) true :: requeue (S i) rest))
          with (names (requeue i (l :: rest))) in Hin.
        rewrite names_requeue in Hin. apply in_map_iff in Hin as (j & Hj & _).
        pose proof (Heth l (or_introl eq_refl)) as He.
        rewrite <- Hj, temp_without_eth in He. discriminate. }
    assert (Htargets : targets_for (snd (item_of (Link (temp_name i) (address l) true)))
                         configs = [Some (dest l)]).
    { rewrite <- (Hsole l (or_introl eq_refl)). now apply targets_for_hwaddr. }
    destruct (assign_sole _ _ configs Hall Htargets 0%Z
                (done ++ Link (temp_name i) (address l) true :: requeue (S i) rest))
      as [Hr Ht].
    fold (assign_interface (snd (item_of (Link (temp_name i) (address l) true))) configs)
      in Hr, Ht.
    cbn [item_of snd ifname name address up] in Hr, Ht.
    pose proof (rename_step (dest l) done (requeue (S i) rest)
                  (Link (temp_name i) (address l) true) Hnd Hfree
                  (Heth l (or_introl eq_refl)) Hdone) as Hstep.
    cbn [name address] in Hstep. rewrite requeue_is_up in Hstep.
    rewrite Hstep in Ht.
    pose proof (sound_nodup
                  (assign_interface (Iface (Str.upper (address l)) true (temp_name i)) configs)
                  _ (sound_assign_interface _ _) Hnd) as Hnd'.
    rewrite Ht in Hnd'.
    cbn [item_of snd name address up].
    assert (Hround :
              res ((success <- assign_interface
                                 (Iface (Str.upper (address l)) true (temp_name i)) configs ;;
                    ret (Some success))
                     (done ++ Link (temp_name i) (address l) true :: requeue (S i) rest)) =
                Ok (Some 1%Z) /\
              table ((success <- assign_interface
                                   (Iface (Str.upper (address l)) true (temp_name i)) configs ;;
                      ret (Some success))
                       (done ++ Link (temp_name i) (address l) true :: requeue (S i) rest)) =
                (done ++ [Link (dest l) (address l) false]) ++ requeue (S i) rest).
    { rewrite (res_bind_ok _ _ _ _ Hr), (table_bind_ok _ _ _ _ Hr), Ht.
      cbn [ret res table]. now rewrite <- app_assoc. }
    destruct Hround as [Hrr Hrt].
    rewrite (res_bind_ok _ _ _ _ Hrr), (table_bind_ok _ _ _ _ Hrr), Hrt.
    destruct (IH (done ++ [Link (dest l) (address l) false]) (S i) (Some 1%Z)) as [Hres Htab].
    + intros l' Hl'. apply Hsole. now right.
    + intros l' Hl'. apply Heth. now right.
    + now inversion Hdest.
    + intros l' Hl'. rewrite names_app. intros Hin.
      apply in_app_or in Hin as [Hin|[Hin|[]]].
      * now apply (Hfresh l' (or_intror Hl')).
      * cbn [name] in Hin. inversion Hdest as [|a b Hnot _]; subst.
        apply Hnot. rewrite Hin. now apply in_map.
    + rewrite <- app_assoc. exact Hnd'.
    + intros x Hx. apply in_app_or in Hx as [Hx|[<-|[]]]; [now apply Hdone|].
      apply Heth. now left.
    + rewrite Hres, Htab. split.
      * now destruct rest.
      * now rewrite <- app_assoc.
Qed.

Lemma fallback_inert (interfaces its : dict iface) :
  (forall f, In f its -> Str.contains "eth" (ifname (snd f)) = true) ->
  forall (idx : nat) (t : list link),
    for_fold its idx (fallback_entry interfaces) t = Run (Ok idx) t [].
Proof.
  induction its as [|f its IH]; intros Hall idx t; [reflexivity|].
  cbn [for_fold]. unfold fallback_entry at 1.
  rewrite (Hall f (or_introl eq_refl)). cbn [negb].
  rewrite (bind_run_ok _ _ t t idx [] eq_refl).
  rewrite IH by (intros h Hh; apply Hall; now right). reflexivity.
Qed.

Lemma read_all_run (l : list (string * option string)) :
  forall (files : dict string) (t t' : list link),
    for_fold l files
      (fun files f =>
         let (entry, content) := (f : string * option string) in
         if Str.contains ":" entry then ret files
         else match content with
              | None => raise (IOError entry)
              | Some text => ret (Dict.set entry text files)
              end) t' =
    Run (res (for_fold l files
                (fun files f =>
                   let (entry, content) := (f : string * option string) in
                   if Str.contains ":" entry then ret files
                   else match content with
                        | None => raise (IOError entry)
                        | Some text => ret (Dict.set entry text files)
                        end) t)) t' [].
Proof.
  induction l as [|[entry content] l IH]; intros files t t'; [reflexivity|].
  cbn [for_fold]. destruct (Str.contains ":" entry).
  - rewrite (bind_run_ok _ _ t' t' files [] eq_refl).
    rewrite (res_bind_ok _ _ t files) by reflexivity.
    cbn [ret table]. rewrite (IH files t t'). reflexivity.
  - destruct content as [text|].
    + rewrite (bind_run_ok _ _ t' t' (Dict.set entry text files) [] eq_refl).
      rewrite (res_bind_ok _ _ t (Dict.set entry text files)) by reflexivity.
      cbn [ret table]. rewrite (IH _ t t'). reflexivity.
    + rewrite (bind_raise _ _ t' (IOError entry)) by reflexivity.
      rewrite (bind_raise _ _ t (IOError entry)) by reflexivity. reflexivity.
Qed.

(** [get_config] does not depend on the link table, and leaves it alone. *)
Lemma get_config_run (dir : list (string * option string)) (t t' : list link) :
  get_config dir t' = Run (res (get_config dir t)) t' [].
Proof.
  assert (Hfiles : get_config_files dir t' = Run (res (get_config_files dir t)) t' []).
  { unfold get_config_files. apply read_all_run. }
  unfold get_config.
  destruct (res (get_config_files dir t)) as [files|e] eqn:E.
  - rewrite (bind_run_ok _ _ t' t' files [] Hfiles).
    now rewrite (res_bind_ok _ _ t files E).
  - rewrite (bind_raise _ _ t' e) by now rewrite Hfiles.
    rewrite (bind_raise _ _ t e E). now rewrite Hfiles.
Qed.

Lemma in_trace_bind {A B} (m : M A) (f : A -> M B) (t : list link) (a : A) (e : event) :
  res (m t) = Ok a ->
  In e (trace (f a (table (m t)))) -> In e (trace (bind m f t)).
Proof.
  intros H Hin. rewrite (trace_bind_ok _ _ t a H). apply in_or_app. now right.
Qed.

Lemma main_after_quarantine_steps
      (dir : list (string * option string)) (t1 t2 : list link)
      (configs : dict (dict string)) (success : Z) :
  get_config dir t1 = Run (Ok configs) t1 [] ->
  res (match_pass (interface_dict t1) configs t1) = Ok (Some success) ->
  table (match_pass (interface_dict t1) configs t1) = t2 ->
  res (main_after_quarantine dir t1) = Ok tt /\
  table (main_after_quarantine dir t1) =
    (if negb (Z.of_nat (List.length (keys (interface_dict t1))) - success =? 0)%Z
     then table (fallback_pass (interface_dict t2) t2) else t2) /\
  In (Print (summary success (Z.of_nat (List.length (keys (interface_dict t1))) - success)))
     (trace (main_after_quarantine dir t1)).
Proof.
  intros Hcfg Hm Ht2.
  assert (Hc : res (get_config dir t1) = Ok configs) by now rewrite Hcfg.
  assert (Hct : table (get_config dir t1) = t1) by now rewrite Hcfg.
  destruct (fallback_pass_ok (interface_dict t2) t2) as (idx & Hidx).
  unfold main_after_quarantine.
  assert (Htail :
            forall b : bool,
              res (((if b
                     then print "Renaming the devices not found in the ifcfg-ethN files to an arbitrary ethN designation" ;;
                          fallback_pass (interface_dict t2) ;; ret tt
                     else ret tt) ;;
                    print "Final naming scheme" ;; get_interface_dict ;; ret tt) t2) = Ok tt /\
              table (((if b
                       then print "Renaming the devices not found in the ifcfg-ethN files to an arbitrary ethN designation" ;;
                            fallback_pass (interface_dict t2) ;; ret tt
                       else ret tt) ;;
                      print "Final naming scheme" ;; get_interface_dict ;; ret tt) t2) =
                (if b then table (fallback_pass (interface_dict t2) t2) else t2)).
  { intros b.
    assert (Hblock :
              res ((if b
                    then print "Renaming the devices not found in the ifcfg-ethN files to an arbitrary ethN designation" ;;
                         fallback_pass (interface_dict t2) ;; ret tt
                    else ret tt) t2) = Ok tt /\
              table ((if b
                      then print "Renaming the devices not found in the ifcfg-ethN files to an arbitrary ethN designation" ;;
                           fallback_pass (interface_dict t2) ;; ret tt
                      else ret tt) t2) =
                (if b then table (fallback_pass (interface_dict t2) t2) else t2)).
    { destruct b; [|split; reflexivity].
      rewrite (res_bind_ok _ _ t2 tt), (table_bind_ok _ _ t2 tt) by reflexivity.
      cbn [print table].
      rewrite (res_bind_ok _ _ t2 idx Hidx), (table_bind_ok _ _ t2 idx Hidx).
      split; reflexivity. }
    destruct Hblock as [Hbr Hbt].
    rewrite (res_bind_ok _ _ t2 tt Hbr), (table_bind_ok _ _ t2 tt Hbr), Hbt.
    rewrite (res_bind_ok _ _ _ tt), (table_bind_ok _ _ _ tt) by reflexivity.
    cbn [print table].
    rewrite (res_bind_ok _ _ _ (interface_dict _)), (table_bind_ok _ _ _ (interface_dict _))
      by reflexivity.
    split; reflexivity. }
  split; [|split].
  - rewrite (res_bind_ok _ _ t1 tt) by reflexivity. cbn [print table].
    rewrite (res_bind_ok _ _ t1 (interface_dict t1)) by reflexivity.
    cbn [get_interface_dict table].
    rewrite (res_bind_ok _ _ t1 tt) by reflexivity. cbn [print table].
    rewrite (res_bind_ok (get_config dir) _ t1 configs Hc), Hct.
    rewrite (res_bind_ok _ _ t1 tt) by reflexivity. cbn [print table].
    rewrite (res_bind_ok _ _ t1 (Some success) Hm), Ht2.
    rewrite (res_bind_ok _ _ t2 success) by reflexivity. cbn [ret table]. cbv zeta.
    rewrite (res_bind_ok _ _ t2 tt) by reflexivity. cbn [print table].
    rewrite (res_bind_ok _ _ t2 (interface_dict t2)) by reflexivity.
    cbn [get_interface_dict table].
    apply Htail.
  - rewrite (table_bind_ok _ _ t1 tt) by reflexivity. cbn [print table].
    rewrite (table_bind_ok _ _ t1 (interface_dict t1)) by reflexivity.
    cbn [get_interface_dict table].
    rewrite (table_bind_ok _ _ t1 tt) by reflexivity. cbn [print table].
    rewrite (table_bind_ok (get_config dir) _ t1 configs Hc), Hct.
    rewrite (table_bind_ok _ _ t1 tt) by reflexivity. cbn [print table].
    rewrite (table_bind_ok _ _ t1 (Some success) Hm), Ht2.
    rewrite (table_bind_ok _ _ t2 success) by reflexivity. cbn [ret table]. cbv zeta.
    rewrite (table_bind_ok _ _ t2 tt) by reflexivity. cbn [print table].
    rewrite (table_bind_ok _ _ t2 (interface_dict t2)) by reflexivity.
    cbn [get_interface_dict table].
    apply Htail.
  - apply (in_trace_bind _ _ t1 tt); [reflexivity|]. cbn [print table].
    apply (in_trace_bind _ _ t1 (interface_dict t1)); [reflexivity|].
    cbn [get_interface_dict table].
    apply (in_trace_bind _ _ t1 tt); [reflexivity|]. cbn [print table].
    apply (in_trace_bind (get_config dir) _ t1 configs _ Hc). rewrite Hct.
    apply (in_trace_bind _ _ t1 tt); [reflexivity|]. cbn [print table].
    apply (in_trace_bind _ _ t1 (Some success) _ Hm). rewrite Ht2.
    apply (in_trace_bind _ _ t2 success); [reflexivity|]. cbn [ret table]. cbv zeta.
    rewrite (trace_bind_ok _ _ t2 tt) by reflexivity. left. reflexivity.
Qed.

Lemma names_named_table (dest : link -> string) (t : list link) :
  names (named_table dest t) = map dest t.
Proof. unfold names, named_table. rewrite map_map. reflexivity. Qed.

(** X18: when every record has an HWADDR value, exactly one record
    applies to each interface, and the names these records ask for are
    distinct and hold [eth], a run of [main] (from distinct names, none of
    them a [temp<k>] name) ends normally and leaves every interface under
    the name asked for, with its address, and down.  The summary reports
    1 assigned and all the others unnamed. *)
Theorem main_applies_one_record_each
        (dir : list (string * option string)) (configs : dict (dict string))
        (dest : link -> string) (t : list link) :
  t <> [] ->
  NoDup (names t) ->
  (forall k, ~ In (temp_name k) (names t)) ->
  res (get_config dir t) = Ok configs ->
  (forall g, In g configs -> Dict.get "HWADDR" (snd g) <> None) ->
  (forall l, In l t -> targets_for (snd (item_of l)) configs = [Some (dest l)]) ->
  (forall l, In l t -> Str.contains "eth" (dest l) = true) ->
  NoDup (map dest t) ->
  res (main dir t) = Ok tt /\
  table (main dir t) = named_table dest t /\
  In (Print (summary 1 (Z.of_nat (List.length t) - 1))) (trace (main dir t)).
Proof.
  intros Hne Hnd Hfree Hconf Hall Hsole Heth Hdest.
  assert (Hq : table (quarantine_pass (interface_dict t) t) = requeue 0 t).
  { apply quarantine_pass_requeues; [exact Hnd|].
    apply ready_without_temp. intros k _. apply Hfree. }
  assert (Hnd1 : NoDup (names (requeue 0 t))).
  { rewrite <- Hq. apply sound_nodup; [apply sound_quarantine_pass|exact Hnd]. }
  assert (Hdict : interface_dict (requeue 0 t) = map item_of (requeue 0 t))
    by now apply interface_dict_items.
  assert (Hlen : List.length (keys (interface_dict (requeue 0 t))) = List.length t).
  { now rewrite Hdict, keys_items, names_requeue, length_map, length_seq. }
  assert (Hcfg : get_config dir (requeue 0 t) = Run (Ok configs) (requeue 0 t) []).
  { now rewrite (get_config_run dir t), Hconf. }
  destruct (match_on_requeued configs dest Hall t [] 0 None Hsole Heth Hdest
              (fun l _ (H : In (dest l) []) => match H with end) Hnd1
              (fun x (H : In x []) => match H with end)) as [Hmr Hmt].
  cbn [Datatypes.app] in Hmr, Hmt.
  assert (Hm : res (match_pass (interface_dict (requeue 0 t)) configs (requeue 0 t)) =
               Ok (Some 1%Z)).
  { unfold match_pass. rewrite Hdict, Hmr. destruct t; [congruence|reflexivity]. }
  assert (Ht2 : table (match_pass (interface_dict (requeue 0 t)) configs (requeue 0 t)) =
                named_table dest t).
  { unfold match_pass. now rewrite Hdict, Hmt. }
  destruct (main_after_quarantine_steps dir _ _ configs 1%Z Hcfg Hm Ht2) as (Hr & Ht & Hs).
  assert (Hfall : table (fallback_pass (interface_dict (named_table dest t))
                           (named_table dest t)) = named_table dest t).
  { unfold fallback_pass. rewrite fallback_inert; [reflexivity|].
    rewrite interface_dict_items by now rewrite names_named_table.
    intros f Hf. apply in_map_iff in Hf as (x & <- & Hx).
    unfold named_table in Hx. apply in_map_iff in Hx as (l & <- & Hl).
    cbn [item_of snd ifname name]. now apply Heth. }
  rewrite Hfall in Ht. rewrite Hlen in Ht, Hs.
  split; [|split].
  - now rewrite main_res, Hq.
  - rewrite main_table, Hq, Ht. now destruct (negb _).
  - unfold main.
    apply (in_trace_bind _ _ t tt); [reflexivity|]. cbn [print table].
    apply (in_trace_bind _ _ t (interface_dict t)); [reflexivity|].
    cbn [get_interface_dict table].
    apply (in_trace_bind _ _ t tt); [apply quarantine_pass_ok|].
    rewrite Hq. exact Hs.
Qed.


Lemma main_applies_one_record_each_witness :
  res (main [("ifcfg-eth0", Some ("DEVICE=eth0" ++ newline ++ "HWADDR=aa:bb:cc:dd:ee:01")%string);
             ("ifcfg-eth1", Some ("HWADDR=AA:BB:CC:DD:EE:02" ++ newline ++ "NAME=eth1")%string)]
         [Link "ens3" "aa:bb:cc:dd:ee:02" true; Link "ens4" "aa:bb:cc:dd:ee:01" false]) = Ok tt /\
  table (main [("ifcfg-eth0", Some ("DEVICE=eth0" ++ newline ++ "HWADDR=aa:bb:cc:dd:ee:01")%string);
               ("ifcfg-eth1", Some ("HWADDR=AA:BB:CC:DD:EE:02" ++ newline ++ "NAME=eth1")%string)]
           [Link "ens3" "aa:bb:cc:dd:ee:02" true; Link "ens4" "aa:bb:cc:dd:ee:01" false]) =
    [Link "eth1" "aa:bb:cc:dd:ee:02" false; Link "eth0" "aa:bb:cc:dd:ee:01" false] /\
  In (Print "1 Assigned, 1 Unnamed:")
     (trace (main [("ifcfg-eth0",
                    Some ("DEVICE=eth0" ++ newline ++ "HWADDR=aa:bb:cc:dd:ee:01")%string);
                   ("ifcfg-eth1",
                    Some ("HWADDR=AA:BB:CC:DD:EE:02" ++ newline ++ "NAME=eth1")%string)]
               [Link "ens3" "aa:bb:cc:dd:ee:02" true; Link "ens4" "aa:bb:cc:dd:ee:01" false])).
Proof.
  apply (main_applies_one_record_each
           [("ifcfg-eth0", Some ("DEVICE=eth0" ++ newline ++ "HWADDR=aa:bb:cc:dd:ee:01")%string);
            ("ifcfg-eth1", Some ("HWADDR=AA:BB:CC:DD:EE:02" ++ newline ++ "NAME=eth1")%string)]
           [((conf_dir ++ "ifcfg-eth0")%string,
             [("DEVICE", "ETH0"); ("HWADDR", "AA:BB:CC:DD:EE:01")]);
            ((conf_dir ++ "ifcfg-eth1")%string,
             [("HWADDR", "AA:BB:CC:DD:EE:02"); ("NAME", "ETH1")])]
           (fun l => if String.eqb (address l) "aa:bb:cc:dd:ee:01" then "eth0" else "eth1")
           [Link "ens3" "aa:bb:cc:dd:ee:02" true; Link "ens4" "aa:bb:cc:dd:ee:01" false]).
  - discriminate.
  - repeat constructor; simpl; intuition discriminate.
  - intros k [H|[H|[]]]; unfold temp_name in H; cbn [append] in H; discriminate.
  - vm_compute. reflexivity.
  - intros g [<-|[<-|[]]]; discriminate.
  - intros l [<-|[<-|[]]]; vm_compute; reflexivity.
  - intros l [<-|[<-|[]]]; vm_compute; reflexivity.
  - repeat constructor; simpl; intuition discriminate.
Defined.

(** ** A record without HWADDR, in general *)




